(** * Restaurant intelligence platform: feedback normalisation and pruning

    A shallow embedding of the text pipeline of
    [review-insights/src/review_analyzer.py] and
    [review-insights/src/business_insights.py] (Cleaner, Standardizer,
    Aggregator, priority tiers) and of [remove_low_variance_features] from
    [demand-forecasting/src/functions.py].

    Conventions of the embedding:
    - a Python [str] is a [string]; a character is its code point, so the
      embedding covers text whose code points are below 256.  On that range
      [str.isspace], [str.lower], the classes [\d] and [\s] and
      case-insensitive matching are the functions of module [PyStr];
    - the generative model is a function from the call number and the
      prompt to the response text;
    - a percentage is the exact rational value of the Python float. *)

From Stdlib Require Import Bool List Arith NArith ZArith QArith Lia Permutation Sorting.Sorted.
From Stdlib Require Import Ascii String Decimal DecimalString.
From Stdlib Require PrimFloat Uint63.
Import ListNotations.
Open Scope string_scope.
Open Scope nat_scope.

(* ================================================================== *)
(** * Python string primitives *)
(* ================================================================== *)

Module PyStr.

Definition code (c : ascii) : N := N_of_ascii c.

Definition newline : ascii := "010"%char.
Definition space : ascii := " "%char.
Definition dquote : ascii := "034"%char.

Definition in_range (lo hi n : N) : bool := ((lo <=? n) && (n <=? hi))%N.

(** [str.isspace] / the class [\s] on code points below 256:
    TAB..CR, FS..US, SPACE, NEL and NBSP. *)
Definition isspace (c : ascii) : bool :=
  let n := code c in
  in_range 9 13 n || in_range 28 32 n || (n =? 133)%N || (n =? 160)%N.

(** The class [\d] (decimal digits) on code points below 256. *)
Definition isdigit (c : ascii) : bool := in_range 48 57 (code c).

(** [str.lower] on one character: A-Z and the Latin-1 capitals. *)
Definition lower_char (c : ascii) : ascii :=
  let n := code c in
  if in_range 65 90 n || (in_range 192 222 n && negb (n =? 215)%N)
  then ascii_of_N (n + 32) else c.

Fixpoint lower (s : string) : string :=
  match s with
  | EmptyString => EmptyString
  | String c r => String (lower_char c) (lower r)
  end.

Fixpoint lstrip (s : string) : string :=
  match s with
  | EmptyString => EmptyString
  | String c r => if isspace c then lstrip r else s
  end.

Fixpoint rstrip (s : string) : string :=
  match s with
  | EmptyString => EmptyString
  | String c r =>
      match rstrip r with
      | EmptyString => if isspace c then EmptyString else String c EmptyString
      | r' => String c r'
      end
  end.

(** [s.strip()] *)
Definition strip (s : string) : string := rstrip (lstrip s).

(** Truth value of a string: [if not line] is [negb (truthy line)]. *)
Definition truthy (s : string) : bool :=
  match s with EmptyString => false | _ => true end.

(** [s.split(sep)] for a one-character separator: never the empty list. *)
Fixpoint split (sep : ascii) (s : string) : list string :=
  match s with
  | EmptyString => [EmptyString]
  | String c r =>
      if Ascii.eqb c sep then EmptyString :: split sep r
      else match split sep r with
           | h :: t => String c h :: t
           | [] => [String c EmptyString]
           end
  end.

(** [sep.join(parts)] for a one-character separator. *)
Fixpoint join (sep : ascii) (parts : list string) : string :=
  match parts with
  | [] => EmptyString
  | [p] => p
  | p :: rest => p ++ String sep (join sep rest)
  end.

(** [s.startswith(p)] *)
Definition startswith (s p : string) : bool := String.prefix p s.

(** [sub in s] *)
Fixpoint contains (s sub : string) : bool :=
  String.prefix sub s ||
  match s with
  | EmptyString => false
  | String _ r => contains r sub
  end.

(** [str(n)] for a non-negative integer. *)
Definition str_of_nat (n : nat) : string := NilZero.string_of_uint (Nat.to_uint n).

(** Every character of the string satisfies [p]. *)
Fixpoint all_chars (p : ascii -> bool) (s : string) : bool :=
  match s with
  | EmptyString => true
  | String c r => p c && all_chars p r
  end.

Definition lines (s : string) : list string := split newline s.
Definition unlines (l : list string) : string := join newline l.

End PyStr.

(* ================================================================== *)
(** * The fragment of Python's [re] used by the sources *)
(* ================================================================== *)

Module Re.
Import PyStr.

(** One-character matchers: a literal, [.], [\d], [\s]. *)
Inductive atom : Type :=
| Chr (c : ascii)
| Dot
| Digit
| Space.

(** Every repetition in the sources is over a one-character matcher. *)
Inductive regex : Type :=
| Eps
| One (a : atom)
| Star (a : atom)        (* a*   greedy *)
| StarLazy (a : atom)    (* a*?  *)
| Plus (a : atom)        (* a+   greedy *)
| Cat (r1 r2 : regex)
| Alt (r1 r2 : regex).

(** A literal word. *)
Fixpoint lit (s : string) : regex :=
  match s with
  | EmptyString => Eps
  | String c r => Cat (One (Chr c)) (lit r)
  end.

(** [(r|r1|...|rn)] *)
Fixpoint any_of (r : regex) (rs : list regex) : regex :=
  match rs with
  | [] => r
  | r' :: rs' => Alt r (any_of r' rs')
  end.

Section Matcher.

(** [re.IGNORECASE] *)
Variable ic : bool.

Definition atom_matches (a : atom) (c : ascii) : bool :=
  match a with
  | Chr x => if ic then Ascii.eqb (lower_char x) (lower_char c) else Ascii.eqb x c
  | Dot => negb (Ascii.eqb c newline)
  | Digit => isdigit c
  | Space => isspace c
  end.

(** Backtracking matchers in continuation style: the continuation [k] is
    given the text left after the part matched so far, and the first
    success in the engine's preference order is the answer. *)
Fixpoint greedy (a : atom) (s : string) (k : string -> option string) : option string :=
  match s with
  | EmptyString => k s
  | String c r =>
      if atom_matches a c
      then match greedy a r k with
           | Some x => Some x
           | None => k s
           end
      else k s
  end.

Fixpoint lazy (a : atom) (s : string) (k : string -> option string) : option string :=
  match k s with
  | Some x => Some x
  | None =>
      match s with
      | EmptyString => None
      | String c r => if atom_matches a c then lazy a r k else None
      end
  end.

Fixpoint mt (r : regex) (s : string) (k : string -> option string) : option string :=
  match r with
  | Eps => k s
  | One a =>
      match s with
      | EmptyString => None
      | String c s' => if atom_matches a c then k s' else None
      end
  | Star a => greedy a s k
  | StarLazy a => lazy a s k
  | Plus a =>
      match s with
      | EmptyString => None
      | String c s' => if atom_matches a c then greedy a s' k else None
      end
  | Cat r1 r2 => mt r1 s (fun s' => mt r2 s' k)
  | Alt r1 r2 =>
      match mt r1 s k with
      | Some x => Some x
      | None => mt r2 s k
      end
  end.

(** The characters a match of [r] can be made of. *)
Fixpoint charset (r : regex) (c : ascii) : bool :=
  match r with
  | Eps => false
  | One a | Star a | StarLazy a | Plus a => atom_matches a c
  | Cat r1 r2 | Alt r1 r2 => charset r1 c || charset r2 c
  end.

(** [re.match(r, s)]: the text after the match at position 0, if any.
    A leading [^] in the pattern is implied. *)
Definition re_match (r : regex) (s : string) : option string := mt r s Some.

(** [re.search(r, s)] as a truth value. *)
Fixpoint re_search (r : regex) (s : string) : bool :=
  match re_match r s with
  | Some _ => true
  | None =>
      match s with
      | EmptyString => false
      | String _ s' => re_search r s'
      end
  end.

(** [re.sub(r, repl, s)] for a pattern that cannot match the empty string:
    leftmost matches are replaced, scanning resumes after each match. *)
Fixpoint sub_fuel (fuel : nat) (r : regex) (repl s : string) : string :=
  match fuel with
  | O => s
  | S fuel' =>
      match s with
      | EmptyString => EmptyString
      | String c s' =>
          match re_match r s with
          | Some rest =>
              if String.length rest <? String.length s
              then repl ++ sub_fuel fuel' r repl rest
              else String c (sub_fuel fuel' r repl s')
          | None => String c (sub_fuel fuel' r repl s')
          end
      end
  end.

Definition re_sub (r : regex) (repl s : string) : string :=
  sub_fuel (String.length s) r repl s.

(** [re.sub('^' + r, repl, s)]: only a match at position 0 counts. *)
Definition re_sub_bol (r : regex) (repl s : string) : string :=
  match re_match r s with
  | Some rest => repl ++ rest
  | None => s
  end.

End Matcher.

(** What a successful match looks like: the text is the matched part
    followed by the rest that the continuation accepted. *)
Definition splits (p : ascii -> bool) (s : string) (k : string -> option string)
    (x : string) : Prop :=
  exists m rest : string, s = m ++ rest /\ k rest = Some x /\ all_chars p m = true.

End Re.

(* ================================================================== *)
(** * Cleaner and Standardizer
      ([clean_feedback] and [standardize_feedback], the same text in
      review_analyzer.py and business_insights.py) *)
(* ================================================================== *)

Module Feedback.
Import PyStr Re.

Definition is_some {A : Type} (o : option A) : bool :=
  match o with Some _ => true | None => false end.

Definition allowed_categories : list string :=
  ["Food Quality"; "Service"; "Cleanliness"; "Value"; "Ambiance"].

Definition skip_phrases : list string :=
  ["not mentioned"; "not explicitly"; "not specified";
   "implied"; "not discussed"; "none"; "n/a";
   "can be considered"; "however"; "since";
   "although"; "note:"; "the review"].

(** [^\d+\.] *)
Definition ordinal_re : regex := Cat (Plus Digit) (One (Chr ".")).
(** [\(.*?\)] *)
Definition paren_re : regex := Cat (One (Chr "(")) (Cat (StarLazy Dot) (One (Chr ")"))).
(** [\s+] *)
Definition spaces_re : regex := Plus Space.
(** [^\d+\.\s*] *)
Definition ordinal_ws_re : regex := Cat (Plus Digit) (Cat (One (Chr ".")) (Star Space)).

(** The four [continue] tests of the loop body, on the stripped line. *)
Definition has_skip_phrase (line : string) : bool :=
  existsb (fun phrase => contains (lower line) phrase) skip_phrases.

Definition starts_with_ordinal (line : string) : bool :=
  is_some (re_match false ordinal_re line).

Fixpoint has_valid_category_in (categories : list string) (line : string) : bool :=
  match categories with
  | [] => false
  | category :: rest =>
      if contains line category then true else has_valid_category_in rest line
  end.

Definition has_valid_category : string -> bool :=
  has_valid_category_in allowed_categories.

(** Removal of parenthetical asides and whitespace runs. *)
Definition tidy (line : string) : string :=
  strip (re_sub false spaces_re " " (re_sub false paren_re "" line)).

(** One iteration of the loop over [lines]; [None] is [continue]. *)
Definition clean_line (line0 : string) : option string :=
  let line := strip line0 in
  if negb (truthy line) then None
  else if has_skip_phrase line then None
  else if negb (starts_with_ordinal line) then None
  else if negb (has_valid_category line) then None
  else Some (tidy line).

Fixpoint clean_loop (lines : list string) (valid_points : list string) : list string :=
  match lines with
  | [] => valid_points
  | line :: rest =>
      match clean_line line with
      | None => clean_loop rest valid_points
      | Some point => clean_loop rest (valid_points ++ [point])
      end
  end.

Definition valid_points (feedback_text : string) : list string :=
  clean_loop (lines (strip feedback_text)) [].

Definition clean_feedback (feedback_text : string) : string :=
  let result := firstn 4 (valid_points feedback_text) in
  if List.length result <? 2 then feedback_text
  else unlines result.

(** [Prefix.*?(k1|k2|...)] *)
Definition pat (prefix : string) (k : regex) (ks : list regex) : regex :=
  Cat (lit prefix) (Cat (StarLazy Dot) (any_of k ks)).

(** [took.*long] *)
Definition took_long : regex := Cat (lit "took") (Cat (Star Dot) (lit "long")).

(** The [standardizations] dict, in insertion order. *)
Definition standardizations : list (regex * string) :=
  [ (pat "Service:" (lit "slow") [lit "wait"; lit "delay"; took_long; lit "forever";
                                  lit "responsiveness"; lit "speed"],
     "Service: speed");
    (pat "Service:" (lit "friendly") [lit "rude"; lit "attitude"; lit "interaction"],
     "Service: friendliness");
    (pat "Service:" (lit "attentive") [lit "attention"; lit "check"],
     "Service: attentiveness");
    (pat "Service:" (lit "professional") [lit "accommodation"; lit "handling"],
     "Service: professionalism");
    (pat "Food Quality:" (lit "cold") [lit "warm"; lit "hot"; lit "temperature"],
     "Food Quality: temperature");
    (pat "Food Quality:" (lit "delicious") [lit "taste"; lit "flavor"; lit "yummy"],
     "Food Quality: taste");
    (pat "Food Quality:" (lit "fresh") [lit "stale"],
     "Food Quality: freshness");
    (pat "Food Quality:" (lit "portion") [lit "size"; lit "amount"],
     "Food Quality: portion size");
    (pat "Food Quality:" (lit "variety") [lit "options"; lit "selection"],
     "Food Quality: variety");
    (pat "Food Quality:" (lit "presentation") [lit "plating"; lit "appearance"],
     "Food Quality: presentation");
    (pat "Value:" (lit "expensive") [lit "pricey"; lit "cheap"; lit "cost"; lit "price";
                                     lit "pricing"],
     "Value: pricing");
    (pat "Value:" (lit "worth") [lit "money"; lit "value"],
     "Value: quality for cost");
    (pat "Ambiance:" (lit "loud") [lit "quiet"; lit "noise"],
     "Ambiance: noise level");
    (pat "Ambiance:" (lit "decor") [lit "decoration"; lit "aesthetic"],
     "Ambiance: decor");
    (pat "Ambiance:" (lit "comfort") [lit "cozy"; lit "space"],
     "Ambiance: comfort");
    (pat "Ambiance:" (lit "atmosphere") [lit "vibe"; lit "ambiance"],
     "Ambiance: atmosphere");
    (pat "Ambiance:" (lit "light") [lit "lighting"; lit "bright"; lit "dark"],
     "Ambiance: lighting");
    (pat "Cleanliness:" (lit "clean") [lit "dirty"; lit "hygiene"; lit "sanitary"],
     "Cleanliness: overall hygiene") ].

(** The inner [for pattern, replacement in standardizations.items()] with
    its [break]: the replacement of the first pattern found in the line. *)
Fixpoint first_rule (rules : list (regex * string)) (line : string) : option string :=
  match rules with
  | [] => None
  | (pattern, replacement) :: rest =>
      if re_search true pattern line then Some replacement
      else first_rule rest line
  end.

(** [f"{len(standardized_lines) + 1}. {text}"] *)
Definition numbered (standardized_lines : list string) (text : string) : string :=
  str_of_nat (List.length standardized_lines + 1) ++ ". " ++ text.

(** One iteration of the loop over [lines]. *)
Definition standardize_step (standardized_lines : list string) (line : string) : list string :=
  if negb (truthy (strip line)) then standardized_lines
  else
    match first_rule standardizations line with
    | Some replacement => standardized_lines ++ [numbered standardized_lines replacement]
    | None =>
        let content := re_sub_bol false ordinal_ws_re "" line in
        if truthy content
        then standardized_lines ++ [numbered standardized_lines content]
        else standardized_lines
    end.

Definition standardize_lines (feedback_text : string) : list string :=
  fold_left standardize_step (lines feedback_text) [].

Definition standardize_feedback (feedback_text : string) : string :=
  unlines (standardize_lines feedback_text).

End Feedback.

(* ================================================================== *)
(** * Extractor and per-review pipeline (review_analyzer.py) *)
(* ================================================================== *)

Module ReviewAnalyzer.
Import PyStr Re Feedback.

(** A cell of the [text] column: a string, or the float NaN that pandas
    stores for a missing value. *)
Inductive pytext : Type :=
| Text (s : string)
| NaN.

(** [f"{review_text}"] *)
Definition format_text (t : pytext) : string :=
  match t with
  | Text s => s
  | NaN => "nan"
  end.

(** The generative model: call number and prompt to response text. *)
Definition model : Type := nat -> string -> string.

Definition nl : string := String newline "".
Definition dq : string := String dquote "".
(** U+2192 as its UTF-8 bytes; the prompt is never inspected by the pipeline. *)
Definition arrow : string :=
  String (ascii_of_nat 226) (String (ascii_of_nat 134) (String (ascii_of_nat 146) "")).

Definition extract_prompt (review_text : pytext) : string :=
  "Extract 3-4 key feedback points from this review." ++ nl ++
  nl ++
  "Use ONLY these categories:" ++ nl ++
  "- Food Quality" ++ nl ++
  "- Service" ++ nl ++
  "- Cleanliness" ++ nl ++
  "- Value" ++ nl ++
  "- Ambiance" ++ nl ++
  nl ++
  "Format: " ++ dq ++ "Category: detail" ++ dq ++ nl ++
  nl ++
  "Examples:" ++ nl ++
  dq ++ "Food was cold and service slow" ++ dq ++ " " ++ arrow ++
    " 1. Food Quality: temperature 2. Service: speed" ++ nl ++
  dq ++ "Great atmosphere but pricey" ++ dq ++ " " ++ arrow ++
    " 1. Ambiance: atmosphere 2. Value: pricing" ++ nl ++
  nl ++
  "Review: " ++ dq ++ format_text review_text ++ dq ++ nl ++
  nl ++
  "Feedback points:".

(** [analyze_review]: no test on the text precedes the model call. *)
Definition analyze_review (generate : model) (call : nat) (review_text : pytext) : string :=
  generate call (extract_prompt review_text).

Definition suggestion_prompt (feedback_point : string) : string :=
  "Given this customer feedback about a restaurant, provide ONE specific, actionable improvement suggestion." ++ nl ++
  nl ++
  "Feedback: " ++ feedback_point ++ nl ++
  nl ++
  "Requirements:" ++ nl ++
  "- Be specific and actionable" ++ nl ++
  "- Focus on practical business solutions" ++ nl ++
  "- Keep it brief (1-2 sentences)" ++ nl ++
  "- Make it relevant to restaurant operations" ++ nl ++
  nl ++
  "Improvement suggestion:".

Definition generate_improvement_suggestion (generate : model) (call : nat)
    (feedback_point : string) : string :=
  strip (generate call (suggestion_prompt feedback_point)).

(** [[line for line in standardized_feedback.split('\n') if line.strip()]] *)
Definition feedback_lines (standardized_feedback : string) : list string :=
  filter (fun line => truthy (strip line)) (lines standardized_feedback).

Record analysis : Type := {
  feedback_points : string;
  suggestions : string
}.

(** The loop over [feedback_lines]; the call number is threaded. *)
Fixpoint suggest_loop (generate : model) (call : nat) (points : list string) : list string :=
  match points with
  | [] => []
  | feedback_point :: rest =>
      let clean_point := re_sub_bol false ordinal_ws_re "" feedback_point in
      let suggestion := generate_improvement_suggestion generate call clean_point in
      (feedback_point ++ " " ++ arrow ++ " " ++ suggestion)
        :: suggest_loop generate (S call) rest
  end.

Definition analyze_review_with_suggestions (generate : model) (review_text : pytext) : analysis :=
  let raw_feedback := analyze_review generate 0 review_text in
  let cleaned_feedback := clean_feedback raw_feedback in
  let standardized_feedback := standardize_feedback cleaned_feedback in
  {| feedback_points := standardized_feedback;
     suggestions := unlines (suggest_loop generate 1 (feedback_lines standardized_feedback)) |}.

End ReviewAnalyzer.

(* ================================================================== *)
(** * Aggregator and priority tiers (business_insights.py) *)
(* ================================================================== *)

Module BusinessInsights.
Import PyStr Re Feedback ReviewAnalyzer.

Record review : Type := {
  business_id : string;
  name : string;
  text : pytext;
  stars_review : Z
}.

(** [extract_feedback_categories] *)
Fixpoint extract_loop (lines : list string) (categories : list string) : list string :=
  match lines with
  | [] => categories
  | line0 :: rest =>
      let line := re_sub_bol false ordinal_ws_re "" (strip line0) in
      if truthy line then extract_loop rest (categories ++ [line])
      else extract_loop rest categories
  end.

Definition extract_feedback_categories (feedback_text : string) : list string :=
  extract_loop (lines feedback_text) [].

(** [collections.Counter]: a dict, so keys are kept in first-insertion order. *)
Definition counter : Type := list (string * nat).

Fixpoint counter_add (c : counter) (x : string) : counter :=
  match c with
  | [] => [(x, 1)]
  | (k, n) :: rest =>
      if String.eqb k x then (k, S n) :: rest
      else (k, n) :: counter_add rest x
  end.

Definition Counter (items : list string) : counter := fold_left counter_add items [].

(** [sorted(items, key=count, reverse=True)]: stable, so ties keep their order. *)
Fixpoint insert_desc (x : string * nat) (sorted : list (string * nat)) : list (string * nat) :=
  match sorted with
  | [] => [x]
  | y :: rest =>
      if snd x <? snd y then y :: insert_desc x rest
      else x :: sorted
  end.

Definition sorted_desc (items : list (string * nat)) : list (string * nat) :=
  fold_right insert_desc [] items.

(** [Counter.most_common(n)] *)
Definition most_common (n : nat) (c : counter) : list (string * nat) :=
  firstn n (sorted_desc c).

(** [(count / total) * 100] *)
Definition percent (count total : nat) : Q :=
  (inject_Z (Z.of_nat count) / inject_Z (Z.of_nat total) * 100)%Q.

Inductive priority : Type := HIGH | MEDIUM | LOW.

Definition Qgtb (p q : Q) : bool := negb (Qle_bool p q).

(** ['HIGH' if percentage > 20 else 'MEDIUM' if percentage > 10 else 'LOW'] *)
Definition priority_of (percentage : Q) : priority :=
  if Qgtb percentage 20 then HIGH
  else if Qgtb percentage 10 then MEDIUM
  else LOW.

Import PrimFloat.

(** The same two steps on binary64 floats, as Python computes them. *)
Definition percent_float (count total : Uint63.int) : PrimFloat.float :=
  PrimFloat.mul (PrimFloat.div (PrimFloat.of_uint63 count) (PrimFloat.of_uint63 total))
                100%float.

Definition priority_of_float (percentage : PrimFloat.float) : priority :=
  if PrimFloat.ltb 20%float percentage then HIGH
  else if PrimFloat.ltb 10%float percentage then MEDIUM
  else LOW.

(** The Recommender's model call: its prompt is built from the issue, the
    mention count and the review count, and the response is stripped. *)
Definition recommender : Type := nat -> string -> nat -> nat -> string.

Definition generate_business_improvement (recommend : recommender) (call : nat)
    (issue : string) (mention_count total_reviews : nat) : string :=
  strip (recommend call issue mention_count total_reviews).

(** The loop over the rows of the business: the accumulator
    [all_feedback_categories] and the call number are threaded. *)
Fixpoint collect_loop (generate : model) (call : nat) (rows : list review)
    (all_feedback_categories : list string) : list string :=
  match rows with
  | [] => all_feedback_categories
  | row :: rest =>
      let raw_feedback := analyze_review generate call (text row) in
      let cleaned_feedback := clean_feedback raw_feedback in
      let standardized_feedback := standardize_feedback cleaned_feedback in
      let categories := extract_feedback_categories standardized_feedback in
      collect_loop generate (S call) rest (all_feedback_categories ++ categories)
  end.

Definition main_categories : list string :=
  ["Food Quality"; "Service"; "Cleanliness"; "Value"; "Ambiance"].

(** The inner loop over [category_summary.keys()] with its [break]. *)
Fixpoint bump (summary : list (string * nat)) (category : string) (count : nat)
    : list (string * nat) :=
  match summary with
  | [] => []
  | (main_cat, total) :: rest =>
      if startswith category main_cat then (main_cat, total + count) :: rest
      else (main_cat, total) :: bump rest category count
  end.

Definition summarize (category_counts : counter) : list (string * nat) :=
  fold_left (fun summary item => bump summary (fst item) (snd item))
            category_counts
            (map (fun c => (c, 0)) main_categories).

Definition sum_values (summary : list (string * nat)) : nat :=
  fold_right (fun item acc => snd item + acc) 0 summary.

Record recommendation : Type := {
  rec_issue : string;
  rec_percentage : Q;
  rec_priority : priority;
  rec_text : string
}.

Fixpoint recommend_loop (recommend : recommender) (call : nat) (total_reviews : nat)
    (issues : list (string * nat)) : list recommendation :=
  match issues with
  | [] => []
  | (issue, count) :: rest =>
      let percentage := percent count total_reviews in
      let suggestion := generate_business_improvement recommend call issue count total_reviews in
      {| rec_issue := issue; rec_percentage := percentage;
         rec_priority := priority_of percentage; rec_text := suggestion |}
        :: recommend_loop recommend (S call) total_reviews rest
  end.

(** What one run prints and returns. *)
Record report : Type := {
  total_reviews : nat;
  avg_rating : Q;
  top_issues : list (string * nat);
  issue_percentages : list (string * nat * Q);
  recommendations : list recommendation;
  category_summary : list (string * nat);
  total_mentions : nat;
  breakdown : list (string * nat * Q);
  positive : nat * Q;
  negative : nat * Q;
  neutral : nat * Q
}.

Definition count_rows (p : review -> bool) (rows : list review) : nat :=
  List.length (filter p rows).

(** [analyze_business_reviews(df, business_id=...)]; [None] is the early
    [return None] (no identifier, or no review of that business). *)
Definition analyze_business_reviews (generate : model) (recommend : recommender)
    (df : list review) (business : string) : option report :=
  if negb (truthy business) then None
  else
    let business_reviews := filter (fun r => String.eqb (business_id r) business) df in
    let n := List.length business_reviews in
    if n =? 0 then None
    else
      let all_feedback_categories := collect_loop generate 0 business_reviews [] in
      let category_counts := Counter all_feedback_categories in
      let top := most_common 10 category_counts in
      let summary := summarize category_counts in
      let mentions := sum_values summary in
      let band p := let k := count_rows p business_reviews in (k, percent k n) in
      Some {|
        total_reviews := n;
        avg_rating :=
          (inject_Z (fold_right Z.add 0%Z (map stars_review business_reviews))
           / inject_Z (Z.of_nat n))%Q;
        top_issues := top;
        issue_percentages := map (fun ic => (fst ic, snd ic, percent (snd ic) n)) top;
        recommendations := recommend_loop recommend 0 n (firstn 5 top);
        category_summary := summary;
        total_mentions := mentions;
        breakdown :=
          if 0 <? mentions
          then map (fun cc => (fst cc, snd cc, percent (snd cc) mentions)) (sorted_desc summary)
          else [];
        positive := band (fun r => (4 <=? stars_review r)%Z);
        negative := band (fun r => (stars_review r <=? 2)%Z);
        neutral := band (fun r => (stars_review r =? 3)%Z)
      |}.

End BusinessInsights.

(* ================================================================== *)
(** * Low-variance feature pruning (demand-forecasting/src/functions.py) *)
(* ================================================================== *)

Module Functions.

(** A cell of a column: a number, a missing value (NaN) or any other object. *)
Inductive cell : Type :=
| Num (q : Q)
| Missing
| Obj (s : string).

Definition cell_eqb (a b : cell) : bool :=
  match a, b with
  | Num x, Num y => Qeq_bool x y
  | Missing, Missing => true
  | Obj s, Obj t => String.eqb s t
  | _, _ => false
  end.

Definition notna (c : cell) : bool :=
  match c with Missing => false | _ => true end.

(** A column: its label, the name of its dtype, its values. *)
Record column : Type := {
  label : string;
  dtype : string;
  cells : list cell
}.

Definition dataframe : Type := list column.

Definition mem (x : string) (l : list string) : bool := existsb (String.eqb x) l.

(** [df[col]]: a Series when the label names one column; with a repeated
    label it is a DataFrame, whose [.dtype] raises ([None]). *)
Definition getitem (df : dataframe) (col : string) : option column :=
  match filter (fun c => String.eqb (label c) col) df with
  | [c] => Some c
  | _ => None
  end.

(** The distinct non-missing values, in order of first appearance. *)
Fixpoint distinct (values : list cell) : list cell :=
  match values with
  | [] => []
  | v :: rest =>
      let d := distinct rest in
      if notna v then v :: filter (fun w => negb (cell_eqb v w)) d else d
  end.

(** [Series.nunique()] *)
Definition nunique (values : list cell) : nat := List.length (distinct values).

Definition count_of (v : cell) (values : list cell) : nat :=
  List.length (filter (cell_eqb v) values).

(** [Series.value_counts(normalize=True).max()]: the largest share among
    the non-missing values; NaN ([None]) when there is none. *)
Definition max_proportion (values : list cell) : option Q :=
  match distinct values with
  | [] => None
  | _ =>
      let present := List.length (filter notna values) in
      let top := fold_right Nat.max 0 (map (fun v => count_of v values) (distinct values)) in
      Some (inject_Z (Z.of_nat top) / inject_Z (Z.of_nat present))%Q
  end.

Definition checked_dtypes : list string := ["int64"; "float64"; "int32"; "float32"].

(** A row of [low_var_df]; the [dominant_value] entry is left out. *)
Record low_variance : Type := {
  lv_column : string;
  lv_max_proportion : Q
}.

(** The loop over [feature_cols]. *)
Fixpoint scan (df : dataframe) (threshold : Q) (feature_cols : list string)
    (low_variance_features : list low_variance) : option (list low_variance) :=
  match feature_cols with
  | [] => Some low_variance_features
  | col :: rest =>
      match getitem df col with
      | None => None
      | Some series =>
          if mem (dtype series) checked_dtypes then
            let unique_vals := nunique (cells series) in
            if unique_vals <=? 10 then
              match max_proportion (cells series) with
              | Some max_prop =>
                  if Qle_bool threshold max_prop
                  then scan df threshold rest
                         (low_variance_features ++
                            [{| lv_column := col; lv_max_proportion := max_prop |}])
                  else scan df threshold rest low_variance_features
              | None => scan df threshold rest low_variance_features
              end
            else scan df threshold rest low_variance_features
          else scan df threshold rest low_variance_features
      end
  end.

(** [df.drop(columns=cols_to_drop)] *)
Definition drop (cols_to_drop : list string) (df : dataframe) : dataframe :=
  filter (fun c => negb (mem (label c) cols_to_drop)) df.

Definition default_threshold : Q := 90 # 100.
Definition default_exclude_cols : list string := ["business_id"; "month"; "demand"].

Definition remove_low_variance_features (df : dataframe) (threshold : Q)
    (exclude_cols : list string) : option (dataframe * list low_variance) :=
  let feature_cols := filter (fun col => negb (mem col exclude_cols)) (map label df) in
  match scan df threshold feature_cols [] with
  | None => None
  | Some low_var_df =>
      if 0 <? List.length low_var_df
      then Some (drop (map lv_column low_var_df) df, low_var_df)
      else Some (df, low_var_df)
  end.

(** The test the loop applies to one column. *)
Definition is_low_variance (threshold : Q) (exclude_cols : list string) (c : column) : bool :=
  negb (mem (label c) exclude_cols)
  && mem (dtype c) checked_dtypes
  && (nunique (cells c) <=? 10)
  && match max_proportion (cells c) with
     | Some max_prop => Qle_bool threshold max_prop
     | None => false
     end.

(** The numeric dtypes of pandas ([is_numeric_dtype]): the reading of
    "a numeric dtype" that is wider than [checked_dtypes]. *)
Definition numeric_dtypes : list string :=
  ["int8"; "int16"; "int32"; "int64"; "uint8"; "uint16"; "uint32"; "uint64";
   "float16"; "float32"; "float64"; "complex64"; "complex128"; "bool"].

Definition is_low_variance_numeric (threshold : Q) (exclude_cols : list string)
    (c : column) : bool :=
  negb (mem (label c) exclude_cols)
  && mem (dtype c) numeric_dtypes
  && (nunique (cells c) <=? 10)
  && match max_proportion (cells c) with
     | Some max_prop => Qle_bool threshold max_prop
     | None => false
     end.

(** A constant column of small unsigned integers, as dummy encoders emit. *)
Definition flag_column : column :=
  {| label := "is_open"; dtype := "uint8"; cells := [Num 1; Num 1; Num 1; Num 1] |}.

Definition rating_column : column :=
  {| label := "has_rating"; dtype := "int64"; cells := [Num 1; Num 1; Num 1; Num 1] |}.

Definition demand_column : column :=
  {| label := "demand"; dtype := "int64"; cells := [Num 7; Num 7; Num 7; Num 7] |}.

(** The row of [low_var_df] for a column that passed the test. *)
Definition low_variance_row (c : column) : list low_variance :=
  match max_proportion (cells c) with
  | Some max_prop => [{| lv_column := label c; lv_max_proportion := max_prop |}]
  | None => []
  end.

(** The test of the loop body, the exclusion list apart. *)
Definition low_variance_test (threshold : Q) (c : column) : bool :=
  mem (dtype c) checked_dtypes
  && (nunique (cells c) <=? 10)
  && match max_proportion (cells c) with
     | Some max_prop => Qle_bool threshold max_prop
     | None => false
     end.

End Functions.

(* ================================================================== *)
(** * Statement vocabulary *)
(* ================================================================== *)

Module Spec.
Import PyStr Re Feedback ReviewAnalyzer BusinessInsights.

(** A stripped line passes the Cleaner's four filters. *)
Definition survives (line : string) : bool :=
  truthy line
  && negb (has_skip_phrase line)
  && starts_with_ordinal line
  && has_valid_category line.

(** The stripped lines of the response that pass the four filters. *)
Definition survivors (feedback_text : string) : list string :=
  filter survives (map strip (lines (strip feedback_text))).

(** What the Cleaner joins when it does not fall back. *)
Definition cleaned_lines (feedback_text : string) : list string :=
  firstn 4 (valid_points feedback_text).

(** [k. label] for consecutive ordinals starting at [k]. *)
Fixpoint numbered_from (k : nat) (labels : list string) : list string :=
  match labels with
  | [] => []
  | l :: rest => (str_of_nat k ++ ". " ++ l) :: numbered_from (S k) rest
  end.

(** A label opens with one of the five top-level categories. *)
Definition recognized (category : string) : bool :=
  existsb (fun main_cat => startswith category main_cat) main_categories.

(** The labels a business run aggregates. *)
Definition business_rows (df : list review) (business : string) : list review :=
  filter (fun r => String.eqb (business_id r) business) df.

Definition aggregated_labels (generate : model) (df : list review) (business : string)
    : list string :=
  collect_loop generate 0 (business_rows df business) [].

(** A character other than the line break. *)
Definition no_newline (c : ascii) : bool := negb (Ascii.eqb c newline).

(** The characters of an ordinal prefix such as [12. ]. *)
Definition plain (c : ascii) : bool :=
  isdigit c || Ascii.eqb c "."%char || Ascii.eqb c " "%char.

(** The characters a bare ordinal prefix is made of. *)
Definition ordinal_char (c : ascii) : bool :=
  isdigit c || Ascii.eqb c "."%char || isspace c.

(** The first letters of the rule prefixes. *)
Definition initials : list ascii := ["S"; "F"; "V"; "A"; "C"]%char.

(** A response whose second point sits inside a parenthetical. *)
Definition parenthetical_response : string :=
  "1. Service (slow)" ++ nl ++ "2. (Value: pricey)".

(** The line without its leading ordinal: [re.sub(r'^\d+\.\s*', '', line)]. *)
Definition content (line : string) : string := re_sub_bol false ordinal_ws_re "" line.

(** The cleaned line has text after its ordinal. *)
Definition has_detail (line : string) : bool := truthy (content line).

(** The label one line contributes to the Standardizer's output, if any. *)
Definition label_of (line : string) : list string :=
  if negb (truthy (strip line)) then []
  else
    match first_rule standardizations line with
    | Some replacement => [replacement]
    | None => if truthy (content line) then [content line] else []
    end.

(** A label that a second pass gives back: the rule it meets first is its
    own, or it meets no rule and has no leading white space to lose. *)
Definition fixed (l : string) : bool :=
  match first_rule standardizations l with
  | Some r => String.eqb r l
  | None => truthy l && String.eqb (lstrip l) l
  end.

Definition quality_for_cost : string := "Value: quality for cost".

(** The label a second pass makes of a label. *)
Definition second (l : string) : string :=
  match first_rule standardizations l with
  | Some r => r
  | None => lstrip l
  end.

(** A label as the first pass emits it: free of line breaks, and not
    blank when it meets no rule. *)
Definition emitted (l : string) : Prop :=
  all_chars no_newline l = true
  /\ (first_rule standardizations l = None -> truthy (lstrip l) = true).

(** A line on which a second pass changes nothing: it is blank, or its
    first rule is not the quality-for-cost rule, or it meets no rule and
    does not begin with white space. *)
Definition settled_line (line : string) : bool :=
  negb (truthy (strip line))
  || match first_rule standardizations line with
     | Some r => negb (String.eqb r quality_for_cost)
     | None => String.eqb (lstrip line) line
     end.

Definition settled (feedback_text : string) : bool :=
  forallb settled_line (lines feedback_text).

(** The two-point response of the prompt's first example, on one line as
    the prompt prints it, and with one point per line. *)
Definition stub_one_line : string := "1. Food Quality: temperature 2. Service: speed".
Definition stub_two_lines : string :=
  "1. Food Quality: temperature" ++ nl ++ "2. Service: speed".

(** A model that answers every prompt with two well-formed points. *)
Definition two_point_model : model :=
  fun _ _ => "1. Service: slow" ++ nl ++ "2. Value: pricey".

(** A model whose answer names the slow service twice. *)
Definition repeating_model : model :=
  fun _ _ => "1. Service: slow" ++ nl ++ "2. Service: long wait".

Definition silent_recommender : recommender := fun _ _ _ _ => "".

Definition one_review : list review :=
  [ {| business_id := "b1"; name := "Cafe"; text := Text "Slow, and we waited long.";
       stars_review := 2 |} ].

(** [p] is [count] out of [total], in percent: a hundredth of [p], taken
    of [total], is [count]. *)
Definition percent_of (p : Q) (count total : nat) : Prop :=
  0 < total
  /\ (p * inject_Z (Z.of_nat total) == 100 * inject_Z (Z.of_nat count))%Q.

(** The part of a counter that falls under the labels satisfying [f]. *)
Definition weight (f : string -> bool) (c : counter) : nat :=
  fold_right (fun item acc => (if f (fst item) then snd item else 0) + acc) 0 c.

End Spec.

(* ================================================================== *)
(** * Batch summary ([process_all_businesses], business_insights.py) *)
(* ================================================================== *)

Module Batch.
Import PyStr Re Feedback ReviewAnalyzer BusinessInsights.

(** [Series.unique()]: the distinct values in order of first appearance. *)
Fixpoint unique (ids : list string) : list string :=
  match ids with
  | [] => []
  | x :: rest => x :: filter (fun y => negb (String.eqb x y)) (unique rest)
  end.

(** One dict of [all_results]. *)
Record summary_row : Type := {
  row_business_id : string;
  row_business_name : string;
  row_total_reviews : nat;
  row_avg_rating : Q;
  top_issue_1 : string;
  top_issue_1_count : nat;
  top_issue_2 : string;
  top_issue_2_count : nat;
  top_issue_3 : string;
  top_issue_3_count : nat
}.

(** [top_5[i][0] if len(top_5) > i else ''] with [top_5[i][1] ... else 0]. *)
Definition slot (top_5 : list (string * nat)) (i : nat) : string * nat :=
  match nth_error top_5 i with
  | Some issue => issue
  | None => (EmptyString, 0)
  end.

(** The body of the loop for one business id; the rows of a business are
    never empty, since the id is read off the frame. *)
Definition summarize_business (generate : model) (call : nat) (df : list review)
    (biz_id : string) : summary_row :=
  let business_reviews := filter (fun r => String.eqb (business_id r) biz_id) df in
  let business_name :=
    match business_reviews with
    | first :: _ => name first
    | [] => EmptyString
    end in
  let all_feedback := collect_loop generate call business_reviews [] in
  let category_counts := Counter all_feedback in
  let top_5 := most_common 5 category_counts in
  {| row_business_id := biz_id;
     row_business_name := business_name;
     row_total_reviews := List.length business_reviews;
     row_avg_rating :=
       (inject_Z (fold_right Z.add 0%Z (map stars_review business_reviews))
        / inject_Z (Z.of_nat (List.length business_reviews)))%Q;
     top_issue_1 := fst (slot top_5 0);
     top_issue_1_count := snd (slot top_5 0);
     top_issue_2 := fst (slot top_5 1);
     top_issue_2_count := snd (slot top_5 1);
     top_issue_3 := fst (slot top_5 2);
     top_issue_3_count := snd (slot top_5 2) |}.

(** The loop over [unique_businesses]; the call number runs on through
    the reviews of every business. *)
Fixpoint batch_loop (generate : model) (call : nat) (df : list review)
    (unique_businesses : list string) : list summary_row :=
  match unique_businesses with
  | [] => []
  | biz_id :: rest =>
      let reviews := List.length (filter (fun r => String.eqb (business_id r) biz_id) df) in
      summarize_business generate call df biz_id
        :: batch_loop generate (call + reviews) df rest
  end.

(** [process_all_businesses]: the rows written to the summary file. *)
Definition process_all_businesses (generate : model) (df : list review) : list summary_row :=
  batch_loop generate 0 df (unique (map business_id df)).

End Batch.

(* ================================================================== *)
(** * Multi-label encoding ([encode_multilabel_field], functions.py) *)
(* ================================================================== *)

Module Encoder.
Import PyStr Functions.

(** [s.lstrip(chars)], [s.rstrip(chars)] and [s.strip(chars)] *)
Fixpoint lstrip_chars (chars : list ascii) (s : string) : string :=
  match s with
  | EmptyString => EmptyString
  | String c r => if existsb (Ascii.eqb c) chars then lstrip_chars chars r else s
  end.

Fixpoint rstrip_chars (chars : list ascii) (s : string) : string :=
  match s with
  | EmptyString => EmptyString
  | String c r =>
      match rstrip_chars chars r with
      | EmptyString =>
          if existsb (Ascii.eqb c) chars then EmptyString else String c EmptyString
      | r' => String c r'
      end
  end.

Definition strip_chars (chars : list ascii) (s : string) : string :=
  rstrip_chars chars (lstrip_chars chars s).

Definition brackets : list ascii := ["["; "]"]%char.
Definition quotes : list ascii := ["'"%char; dquote].
Definition comma : ascii := ","%char.

(** [x in ['[]', '', 'nan']]: only a string equals one of them. *)
Definition is_placeholder (x : cell) : bool :=
  match x with
  | Obj s => mem s ["[]"; ""; "nan"]
  | _ => false
  end.

(** One item of the lambda: [strip()], then [strip] of both quote
    characters. *)
Definition item_label (item : string) : string := strip_chars quotes (strip item).

(** np.unique on strings: sorted by code points. *)
Fixpoint insert_sorted (x : string) (l : list string) : list string :=
  match l with
  | [] => [x]
  | y :: rest => if String.leb x y then x :: l else y :: insert_sorted x rest
  end.

Definition sorted_strings (l : list string) : list string := fold_right insert_sorted [] l.

(** [mlb.classes_]: the distinct labels of all rows, sorted. *)
Definition classes (rows : list (list string)) : list string :=
  sorted_strings (Batch.unique (List.concat rows)).

(** One entry of the indicator matrix. *)
Definition indicator (c : string) (row : list string) : cell :=
  if mem c row then Num 1 else Num 0.

Section Platform.

(** [str(x)] of a number, and the dtype of NumPy's default integer
    (int64, or int32 where a C long has 32 bits). *)
Variable str_num : Q -> string.
Variable int_dtype : string.

Definition str_cell (x : cell) : string :=
  match x with
  | Obj s => s
  | Num q => str_num q
  | Missing => "nan"
  end.

(** The lambda applied to every cell of the column. *)
Definition parse_cell (x : cell) : list string :=
  if notna x && negb (is_placeholder x)
  then map item_label (split comma (strip_chars brackets (str_cell x)))
  else [].

(** The frame [encoded]: one column per class. *)
Definition encoded_columns (col : string) (rows : list (list string)) : dataframe :=
  map (fun c => {| label := col ++ "_" ++ c;
                   dtype := int_dtype;
                   cells := map (indicator c) rows |})
      (classes rows).

(** [encode_multilabel_field]: [None] when [df[col]] is not one column
    (a missing label raises, and so does [apply] on a repeated one). *)
Definition encode_multilabel_field (df : dataframe) (col : string) : option dataframe :=
  match getitem df col with
  | None => None
  | Some series =>
      let rows := map parse_cell (cells series) in
      Some (drop [col] df ++ encoded_columns col rows)%list
  end.

End Platform.

End Encoder.

(* ================================================================== *)
(** * Further statement vocabulary *)
(* ================================================================== *)

Module Terms.
Import PyStr Re Feedback ReviewAnalyzer BusinessInsights Functions Spec Batch Encoder.

(** Counts from the largest down. *)
Definition descending (items : list (string * nat)) : Prop :=
  StronglySorted (fun x y => snd y <= snd x) items.

(** The entries with a given count. *)
Definition with_count (n : nat) (items : list (string * nat)) : list (string * nat) :=
  filter (fun p => snd p =? n) items.

(** How often a label occurs. *)
Definition occurrences (label : string) (items : list string) : nat :=
  List.length (filter (String.eqb label) items).

(** The labels that open with a given category. *)
Definition under (main_cat : string) (labels : list string) : nat :=
  List.length (filter (fun l => startswith l main_cat) labels).

(** A table over fixed keys. *)
Definition tally (keys : list string) (f : string -> nat) : list (string * nat) :=
  map (fun m => (m, f m)) keys.

(** The line is not blank. *)
Definition nonblank (line : string) : bool := truthy (strip line).

(** The label is one of the eighteen canonical ones. *)
Definition canonical (l : string) : Prop := In l (map snd standardizations).

(** Two continuations that succeed together, one on a text and the other
    on the text in lower case. *)
Definition agree (k k' : string -> option string) : Prop :=
  forall t : string, is_some (k t) = is_some (k' (lower t)).

(** The text opens with a white-space character. *)
Definition head_space (s : string) : bool :=
  match s with
  | EmptyString => false
  | String c _ => isspace c
  end.

(** Every white-space character is a plain space with no white space
    right after it. *)
Fixpoint single_spaced (s : string) : bool :=
  match s with
  | EmptyString => true
  | String c r =>
      (if isspace c then Ascii.eqb c " "%char && negb (head_space r) else true)
      && single_spaced r
  end.

Definition not_close (c : ascii) : bool := negb (Ascii.eqb c ")"%char).

(** No opening parenthesis has a closing one anywhere after it. *)
Fixpoint no_pair (s : string) : bool :=
  match s with
  | EmptyString => true
  | String c r => (negb (Ascii.eqb c "("%char) || all_chars not_close r) && no_pair r
  end.

(** An ASCII capital replaced by its small letter; any other character
    is left alone. *)
Definition fold_ascii (c : ascii) : ascii :=
  let n := code c in
  if in_range 65 90 n then ascii_of_N (n + 32) else c.

Fixpoint fold_ascii_case (s : string) : string :=
  match s with
  | EmptyString => EmptyString
  | String c r => String (fold_ascii c) (fold_ascii_case r)
  end.

(** Adjacent entries in code-point order. *)
Definition ascending (l : list string) : Prop :=
  Sorted (fun a b => String.leb a b = true) l.

Definition not_comma (c : ascii) : bool := negb (Ascii.eqb c comma).

(** The characters that [repr] of a string writes as they are, between
    single quotes: the printable ones, the backslash and the single quote
    apart (a backslash or a non-printable character is escaped, a single
    quote switches the quoting). *)
Definition verbatim (c : ascii) : bool :=
  let n := code c in
  in_range 32 38 n || in_range 40 91 n || in_range 93 126 n
  || in_range 161 172 n || in_range 174 255 n.

Definition plain_char (c : ascii) : bool := verbatim c && not_comma c.

(** The label is printed as it is and read back whole: every character
    is written verbatim and is no comma, and the label neither begins nor
    ends with a quote. *)
Definition plain_label (l : string) : Prop :=
  all_chars plain_char l = true
  /\ lstrip_chars quotes l = l
  /\ rstrip_chars quotes l = l.

(** The text Python prints for a list of labels whose characters are all
    [verbatim]: ['a', 'b', 'c']. *)
Fixpoint repr_items (labels : list string) : string :=
  match labels with
  | [] => EmptyString
  | [l] => "'" ++ l ++ "'"
  | l :: rest => "'" ++ l ++ "'" ++ ", " ++ repr_items rest
  end.

Definition repr_list (labels : list string) : string := "[" ++ repr_items labels ++ "]".

(** A frame whose [categories] column holds printed lists, as read from
    a CSV file: strings and a missing value. *)
Definition categories_column : column :=
  {| label := "categories"; dtype := "object";
     cells := [Obj "['Bars', 'Pubs']"; Obj "[]"; Missing; Obj "['Bars']"] |}.

Definition venue_frame : dataframe := [demand_column; categories_column].

(** The text of numbers for a frame whose encoded column holds none. *)
Definition no_number_text : Q -> string := fun _ => "".

End Terms.

Import PyStr Re Feedback ReviewAnalyzer BusinessInsights Functions Spec.
Import Batch Encoder Terms.

(* ================================================================== *)
(** * Cleaner facts *)
(* ================================================================== *)

Section CleanerFacts.

Lemma clean_line_survives (line : string) :
  clean_line line =
  if survives (strip line) then Some (tidy (strip line)) else None.
Proof.
  unfold clean_line, survives.
  destruct (truthy (strip line)); simpl; [|reflexivity].
  destruct (has_skip_phrase (strip line)); simpl; [reflexivity|].
  destruct (starts_with_ordinal (strip line)); simpl; [|reflexivity].
  destruct (has_valid_category (strip line)); reflexivity.
Qed.

Lemma clean_loop_filter (ls acc : list string) :
  clean_loop ls acc = (acc ++ map tidy (filter survives (map strip ls)))%list.
Proof.
  revert acc; induction ls as [|l ls IH]; intros acc; simpl.
  - now rewrite app_nil_r.
  - rewrite clean_line_survives.
    destruct (survives (strip l)); simpl.
    + rewrite IH, <- app_assoc. reflexivity.
    + apply IH.
Qed.

Lemma valid_points_survivors (feedback_text : string) :
  valid_points feedback_text = map tidy (survivors feedback_text).
Proof. unfold valid_points, survivors. now rewrite clean_loop_filter. Qed.

Lemma length_firstn_lt2 {A : Type} (l : list A) :
  List.length l < 2 -> List.length (firstn 4 l) < 2.
Proof. intros H. rewrite length_firstn. lia. Qed.

(** C1. If fewer than two lines pass the Cleaner's filters (blank-line
    drop, hedging denylist, leading ordinal, allowed category), the
    Cleaner returns its input unchanged; the all-hedging response
    "Not mentioned in this review." has no surviving line and comes back
    as it was. *)
Theorem clean_feedback_fallback :
  (forall feedback_text : string,
      List.length (survivors feedback_text) < 2 ->
      clean_feedback feedback_text = feedback_text)
  /\ survivors "Not mentioned in this review." = []
  /\ clean_feedback "Not mentioned in this review." = "Not mentioned in this review.".
Proof.
  split; [|split; reflexivity].
  intros feedback_text H. unfold clean_feedback.
  assert (L : List.length (firstn 4 (valid_points feedback_text)) < 2).
  { apply length_firstn_lt2. now rewrite valid_points_survivors, length_map. }
  apply Nat.ltb_lt in L. now rewrite L.
Qed.

Lemma clean_feedback_fallback_witness :
  List.length (survivors "1. Service: slow") < 2
  /\ clean_feedback "1. Service: slow" = "1. Service: slow".
Proof.
  split.
  - vm_compute. lia.
  - apply (proj1 clean_feedback_fallback). vm_compute. lia.
Defined.

End CleanerFacts.

(* ================================================================== *)
(** * Rule priority *)
(* ================================================================== *)

Section RulePriority.

Lemma first_rule_first_match (rules : list (regex * string)) (line : string) :
  forall (i : nat) (pattern : regex) (replacement : string),
    nth_error rules i = Some (pattern, replacement) ->
    re_search true pattern line = true ->
    (forall j p r, j < i -> nth_error rules j = Some (p, r) ->
                   re_search true p line = false) ->
    first_rule rules line = Some replacement.
Proof.
  induction rules as [|[p0 r0] rules IH]; intros i pattern replacement Hi Hm Hearlier.
  - destruct i; discriminate.
  - destruct i as [|i]; simpl in *.
    + injection Hi as -> ->. now rewrite Hm.
    + rewrite (Hearlier 0 p0 r0); [|lia|reflexivity].
      apply (IH i pattern replacement Hi Hm).
      intros j p r Hj Hn. apply (Hearlier (S j) p r); [lia|exact Hn].
Qed.

(** C8. A line found by several rules is given the replacement of the
    first of them in the order of the rule list, whatever later rules
    find it; the Service rules come in the order speed, friendliness,
    attentiveness, professionalism, and a line with both a speed and a
    friendliness keyword becomes the Service speed label. *)
Theorem first_matching_rule_wins :
  (forall (standardized_lines : list string) (line : string)
          (i : nat) (pattern : regex) (replacement : string),
      truthy (strip line) = true ->
      nth_error standardizations i = Some (pattern, replacement) ->
      re_search true pattern line = true ->
      (forall j p r, j < i -> nth_error standardizations j = Some (p, r) ->
                     re_search true p line = false) ->
      standardize_step standardized_lines line
      = (standardized_lines ++ [numbered standardized_lines replacement])%list)
  /\ map snd (firstn 4 standardizations)
     = ["Service: speed"; "Service: friendliness";
        "Service: attentiveness"; "Service: professionalism"]
  /\ (forall p, In p (map fst (firstn 2 standardizations)) ->
                re_search true p "1. Service: slow and rude staff" = true)
  /\ standardize_feedback "1. Service: slow and rude staff" = "1. Service: speed".
Proof.
  split; [|split; [reflexivity|split; [|reflexivity]]].
  - intros standardized_lines line i pattern replacement Hline Hi Hm Hearlier.
    unfold standardize_step. rewrite Hline. simpl negb. cbv iota.
    now rewrite (first_rule_first_match standardizations line i pattern replacement Hi Hm Hearlier).
  - intros p [<-|[<-|[]]]; reflexivity.
Qed.

Lemma first_matching_rule_wins_witness :
  standardize_step ["1. Food Quality: taste"] "7. Service: friendly but forever waiting"
  = ["1. Food Quality: taste"; "2. Service: speed"].
Proof.
  refine (proj1 first_matching_rule_wins ["1. Food Quality: taste"]
            "7. Service: friendly but forever waiting" 0 _ "Service: speed" _ _ _ _).
  - reflexivity.
  - reflexivity.
  - reflexivity.
  - intros j p r Hj. lia.
Defined.

End RulePriority.

(* ================================================================== *)
(** * The stubbed two-point response *)
(* ================================================================== *)

Section StubbedResponse.

(** C3, as stated, fails: the response printed on one line is one line to
    the Cleaner, which falls back, and the Standardizer's first rule finds
    the Service point in it. *)
Lemma stub_one_line_gives_one_line :
  standardize_lines (clean_feedback stub_one_line) = ["1. Service: speed"]
  /\ List.length (feedback_lines (standardize_feedback (clean_feedback stub_one_line))) <> 2.
Proof. split; [reflexivity|vm_compute; lia]. Qed.

(** C3, amended. With one point per line, the Cleaner followed by the
    Standardizer gives exactly the two numbered lines
    "1. Food Quality: temperature" and "2. Service: speed", in that order;
    on the one-line text the Cleaner returns its input and the result is
    the single line "1. Service: speed". *)
Theorem stub_two_lines_standardized :
  standardize_lines (clean_feedback stub_two_lines)
  = ["1. Food Quality: temperature"; "2. Service: speed"]
  /\ feedback_lines (standardize_feedback (clean_feedback stub_two_lines))
     = ["1. Food Quality: temperature"; "2. Service: speed"]
  /\ clean_feedback stub_one_line = stub_one_line
  /\ standardize_feedback (clean_feedback stub_one_line) = "1. Service: speed".
Proof. repeat split; reflexivity. Qed.

End StubbedResponse.

(* ================================================================== *)
(** * Priority tiers *)
(* ================================================================== *)

Section PriorityTiers.

Import PrimFloat Uint63.




(** On floats the boundary shares come out exact: 2 of 10 is 20.0 and
    MEDIUM, 1 of 10 is 10.0 and LOW, 201 of 1000 is HIGH, 101 of 1000 is
    MEDIUM. *)
Lemma priority_float_boundaries :
  percent_float 2%uint63 10%uint63 = 20%float
  /\ priority_of_float (percent_float 2%uint63 10%uint63) = MEDIUM
  /\ percent_float 1%uint63 10%uint63 = 10%float
  /\ priority_of_float (percent_float 1%uint63 10%uint63) = LOW
  /\ priority_of_float (percent_float 201%uint63 1000%uint63) = HIGH
  /\ priority_of_float (percent_float 101%uint63 1000%uint63) = MEDIUM
  /\ priority_of_float (percent_float 3%uint63 10%uint63) = HIGH.
Proof. repeat split; reflexivity. Qed.


End PriorityTiers.

(* ================================================================== *)
(** * Aggregation *)
(* ================================================================== *)

Section Aggregation.

(** C4 at a failing input: one review whose two points both standardize to
    "Service: speed" gives that issue the count 2 for a business of one
    review (200 percent of reviews). *)
Theorem mention_count_exceeds_reviews :
  exists rep : report,
    analyze_business_reviews repeating_model silent_recommender one_review "b1" = Some rep
    /\ total_reviews rep = 1
    /\ top_issues rep = [("Service: speed", 2)]
    /\ issue_percentages rep = [("Service: speed", 2, percent 2 1)].
Proof. eexists. repeat split. Qed.

Lemma counter_add_weight (f : string -> bool) (c : counter) (x : string) :
  weight f (counter_add c x) = weight f c + (if f x then 1 else 0).
Proof.
  induction c as [|[k n] c IH]; simpl.
  - lia.
  - destruct (String.eqb k x) eqn:E; simpl.
    + apply String.eqb_eq in E. subst k. destruct (f x); lia.
    + rewrite IH. lia.
Qed.

Lemma Counter_weight (f : string -> bool) (items : list string) :
  forall c : counter,
    weight f (fold_left counter_add items c) = weight f c + List.length (filter f items).
Proof.
  induction items as [|x items IH]; intros c; simpl.
  - lia.
  - rewrite IH, counter_add_weight. destruct (f x); simpl; lia.
Qed.

Lemma bump_keys (summary : list (string * nat)) (category : string) (count : nat) :
  map fst (bump summary category count) = map fst summary.
Proof.
  induction summary as [|[m t] summary IH]; simpl; [reflexivity|].
  destruct (startswith category m); simpl; [reflexivity|now rewrite IH].
Qed.

Lemma bump_sum (summary : list (string * nat)) (category : string) (count : nat) :
  sum_values (bump summary category count)
  = sum_values summary
    + (if existsb (fun m => startswith category m) (map fst summary) then count else 0).
Proof.
  induction summary as [|[m t] summary IH]; simpl; [reflexivity|].
  destruct (startswith category m); simpl.
  - lia.
  - rewrite IH. lia.
Qed.

Lemma summarize_sum (c : counter) :
  forall summary : list (string * nat),
    map fst summary = main_categories ->
    sum_values (fold_left (fun s item => bump s (fst item) (snd item)) c summary)
    = sum_values summary + weight recognized c.
Proof.
  induction c as [|[k n] c IH]; intros summary Hkeys; simpl.
  - lia.
  - rewrite IH by (now rewrite bump_keys).
    rewrite bump_sum, Hkeys. fold (recognized k). lia.
Qed.

Lemma summarize_total (labels : list string) :
  sum_values (summarize (Counter labels)) = List.length (filter recognized labels).
Proof.
  unfold summarize. rewrite summarize_sum by reflexivity.
  unfold Counter. rewrite Counter_weight. reflexivity.
Qed.

Lemma insert_desc_perm (x : string * nat) (l : list (string * nat)) :
  Permutation (insert_desc x l) (x :: l).
Proof.
  induction l as [|y l IH]; simpl; [reflexivity|].
  destruct (snd x <? snd y); [|reflexivity].
  rewrite IH. apply perm_swap.
Qed.

Lemma sorted_desc_perm (c : list (string * nat)) : Permutation (sorted_desc c) c.
Proof.
  induction c as [|x c IH]; simpl; [constructor|].
  rewrite insert_desc_perm. now constructor.
Qed.

Lemma summarize_keys (c : counter) :
  forall summary : list (string * nat),
    map fst (fold_left (fun s item => bump s (fst item) (snd item)) c summary)
    = map fst summary.
Proof.
  induction c as [|[k n] c IH]; intros summary; cbn [fold_left]; [reflexivity|].
  now rewrite IH, bump_keys.
Qed.

Lemma percent_is_percent_of (count total : nat) :
  0 < total -> percent_of (percent count total) count total.
Proof.
  intros H. split; [exact H|]. unfold percent.
  field. intros E. unfold Qeq in E. simpl in E. lia.
Qed.

Lemma recommend_loop_rows (recommend : recommender) (n : nat)
    (issues : list (string * nat)) :
  0 < n ->
  forall call : nat,
    Forall2 (fun r e => rec_issue r = fst e
                        /\ percent_of (rec_percentage r) (snd e) n)
            (recommend_loop recommend call n issues) issues.
Proof.
  intros Hn. induction issues as [|[issue count] issues IH]; intros call;
    cbn [recommend_loop]; constructor.
  - split; [reflexivity|]. now apply percent_is_percent_of.
  - apply IH.
Qed.

(** C9. In a business run the category summary holds the five top-level
    categories, and its totals add up to the number of aggregated labels
    that open with one of them. The breakdown lists the entries of the
    summary (all of them, or none when no label was recognized), each
    with its count as a percentage of the total mentions across
    categories; an issue, a recommendation and a rating band carry their
    count as a percentage of the number of reviews of the business. *)
Theorem category_breakdown_totals
    (generate : model) (recommend : recommender) (df : list review)
    (business : string) (rep : report) :
  analyze_business_reviews generate recommend df business = Some rep ->
  map fst (category_summary rep) = main_categories
  /\ sum_values (category_summary rep)
     = List.length (filter recognized (aggregated_labels generate df business))
  /\ total_mentions rep = sum_values (category_summary rep)
  /\ (total_mentions rep = 0 -> breakdown rep = [])
  /\ (0 < total_mentions rep ->
      Permutation (map fst (breakdown rep)) (category_summary rep))
  /\ Forall (fun e => percent_of (snd e) (snd (fst e)) (total_mentions rep))
            (breakdown rep)
  /\ total_reviews rep = List.length (business_rows df business)
  /\ map fst (issue_percentages rep) = top_issues rep
  /\ Forall (fun e => percent_of (snd e) (snd (fst e)) (total_reviews rep))
            (issue_percentages rep)
  /\ Forall2 (fun r e => rec_issue r = fst e
                         /\ percent_of (rec_percentage r) (snd e) (total_reviews rep))
             (recommendations rep) (firstn 5 (top_issues rep))
  /\ (fst (positive rep)
      = List.length (filter (fun r => (4 <=? stars_review r)%Z) (business_rows df business))
      /\ percent_of (snd (positive rep)) (fst (positive rep)) (total_reviews rep))
  /\ (fst (negative rep)
      = List.length (filter (fun r => (stars_review r <=? 2)%Z) (business_rows df business))
      /\ percent_of (snd (negative rep)) (fst (negative rep)) (total_reviews rep))
  /\ (fst (neutral rep)
      = List.length (filter (fun r => (stars_review r =? 3)%Z) (business_rows df business))
      /\ percent_of (snd (neutral rep)) (fst (neutral rep)) (total_reviews rep)).
Proof.
  unfold analyze_business_reviews.
  destruct (negb (truthy business)); [discriminate|].
  fold (business_rows df business).
  destruct (List.length (business_rows df business) =? 0) eqn:En; [discriminate|].
  apply Nat.eqb_neq in En.
  assert (Hn : 0 < List.length (business_rows df business)) by lia.
  fold (aggregated_labels generate df business).
  intros H. injection H as <-. cbn [category_summary total_mentions breakdown
    total_reviews issue_percentages top_issues recommendations positive negative neutral].
  set (summary := summarize (Counter (aggregated_labels generate df business))).
  split; [unfold summary, summarize; now rewrite summarize_keys|].
  split; [apply summarize_total|].
  split; [reflexivity|].
  split; [intros E; now rewrite E|].
  split.
  { intros Hm. apply Nat.ltb_lt in Hm. rewrite Hm, map_map. cbn [fst].
    rewrite (map_ext _ (fun cc => cc)) by now intros [].
    rewrite map_id. apply sorted_desc_perm. }
  split.
  { destruct (0 <? sum_values summary) eqn:Hm; [|constructor].
    apply Nat.ltb_lt in Hm.
    apply Forall_forall. intros e He. apply in_map_iff in He.
    destruct He as (cc & <- & _). cbn [fst snd].
    now apply percent_is_percent_of. }
  split; [reflexivity|].
  split.
  { rewrite map_map. cbn [fst]. rewrite (map_ext _ (fun cc => cc)) by now intros [].
    apply map_id. }
  split.
  { apply Forall_forall. intros e He. apply in_map_iff in He.
    destruct He as (cc & <- & _). cbn [fst snd].
    now apply percent_is_percent_of. }
  split; [now apply recommend_loop_rows|].
  cbn [fst snd].
  repeat split; try exact Hn; apply (percent_is_percent_of _ _ Hn).
Qed.

(** One review with two labels: the same count of 1 is 100 percent of the
    reviews and 50 percent of the mentions. *)
Lemma category_breakdown_totals_witness :
  exists rep : report,
    analyze_business_reviews two_point_model silent_recommender one_review "b1" = Some rep
    /\ sum_values (category_summary rep)
       = List.length (filter recognized (aggregated_labels two_point_model one_review "b1"))
    /\ total_mentions rep = 2
    /\ total_reviews rep = 1
    /\ issue_percentages rep
       = [("Service: speed", 1, percent 1 1); ("Value: pricing", 1, percent 1 1)]
    /\ filter (fun e => 0 <? snd (fst e)) (breakdown rep)
       = [("Service", 1, percent 1 2); ("Value", 1, percent 1 2)].
Proof.
  eexists. split; [reflexivity|].
  split; [|repeat split; reflexivity].
  refine (proj1 (proj2 (category_breakdown_totals two_point_model silent_recommender
                          one_review "b1" _ _))).
  reflexivity.
Defined.

End Aggregation.

(* ================================================================== *)
(** * Low-variance pruning *)
(* ================================================================== *)

Section Pruning.

Lemma label_inj (df : dataframe) :
  NoDup (map label df) ->
  forall c c' : column, In c df -> In c' df -> label c = label c' -> c = c'.
Proof.
  induction df as [|d df IH]; intros ND c c' Hc Hc' E; [contradiction|].
  simpl in ND. apply NoDup_cons_iff in ND. destruct ND as [Hd ND].
  destruct Hc as [<-|Hc], Hc' as [<-|Hc'].
  - reflexivity.
  - exfalso. apply Hd. rewrite E. now apply in_map.
  - exfalso. apply Hd. rewrite <- E. now apply in_map.
  - now apply IH.
Qed.

Lemma filter_label_absent (df : dataframe) (col : string) :
  ~ In col (map label df) -> filter (fun c => String.eqb (label c) col) df = [].
Proof.
  induction df as [|d df IH]; intros H; simpl; [reflexivity|].
  destruct (String.eqb (label d) col) eqn:E.
  - apply String.eqb_eq in E. exfalso. apply H. now left.
  - apply IH. intros Hin. apply H. now right.
Qed.

Lemma getitem_unique (df : dataframe) (c : column) :
  NoDup (map label df) -> In c df -> getitem df (label c) = Some c.
Proof.
  unfold getitem. induction df as [|d df IH]; intros ND Hc; [contradiction|].
  simpl in ND. apply NoDup_cons_iff in ND. destruct ND as [Hd ND]. simpl.
  destruct Hc as [<-|Hc].
  - rewrite String.eqb_refl. now rewrite filter_label_absent.
  - destruct (String.eqb (label d) (label c)) eqn:E.
    + apply String.eqb_eq in E. exfalso. apply Hd. rewrite E. now apply in_map.
    + now apply IH.
Qed.

Lemma scan_rows (df : dataframe) (threshold : Q) :
  NoDup (map label df) ->
  forall (cs : list column) (acc : list low_variance),
    (forall c, In c cs -> In c df) ->
    scan df threshold (map label cs) acc
    = Some (acc ++ flat_map low_variance_row (filter (low_variance_test threshold) cs))%list.
Proof.
  intros ND. induction cs as [|c cs IH]; intros acc Hsub.
  - simpl. now rewrite app_nil_r.
  - cbn [map scan filter].
    rewrite (getitem_unique df c ND) by (apply Hsub; now left).
    assert (Hcs : forall c', In c' cs -> In c' df) by (intros c' H; apply Hsub; now right).
    unfold low_variance_test at 1.
    destruct (mem (dtype c) checked_dtypes); cbn [andb]; [|now apply IH].
    destruct (nunique (cells c) <=? 10); cbn [andb]; [|now apply IH].
    destruct (max_proportion (cells c)) as [mp|] eqn:E; [|now apply IH].
    destruct (Qle_bool threshold mp); [|now apply IH].
    cbn [flat_map]. unfold low_variance_row at 1. rewrite E.
    rewrite IH by exact Hcs. now rewrite <- app_assoc.
Qed.

Lemma scan_rows_labels (threshold : Q) (cs : list column) :
  map lv_column (flat_map low_variance_row (filter (low_variance_test threshold) cs))
  = map label (filter (low_variance_test threshold) cs).
Proof.
  induction cs as [|c cs IH]; simpl; [reflexivity|].
  destruct (low_variance_test threshold c) eqn:E; [|exact IH].
  simpl. rewrite map_app, IH. f_equal.
  unfold low_variance_test in E. unfold low_variance_row.
  destruct (max_proportion (cells c)); [reflexivity|].
  now rewrite andb_false_r in E.
Qed.

Lemma feature_cols_columns (exclude_cols : list string) (df : dataframe) :
  filter (fun col => negb (mem col exclude_cols)) (map label df)
  = map label (filter (fun c => negb (mem (label c) exclude_cols)) df).
Proof.
  induction df as [|c df IH]; simpl; [reflexivity|].
  destruct (negb (mem (label c) exclude_cols)); simpl; now rewrite IH.
Qed.

Lemma filter_filter {A : Type} (f g : A -> bool) (l : list A) :
  filter g (filter f l) = filter (fun x => f x && g x) l.
Proof.
  induction l as [|x l IH]; simpl; [reflexivity|].
  destruct (f x); simpl; [destruct (g x)|]; now rewrite IH.
Qed.

Lemma is_low_variance_split (threshold : Q) (exclude_cols : list string) (c : column) :
  is_low_variance threshold exclude_cols c
  = negb (mem (label c) exclude_cols) && low_variance_test threshold c.
Proof.
  unfold is_low_variance, low_variance_test. now rewrite !andb_assoc.
Qed.

Lemma mem_In (x : string) (l : list string) : mem x l = true <-> In x l.
Proof.
  unfold mem. rewrite existsb_exists. split.
  - intros (y & Hy & E). apply String.eqb_eq in E. now subst.
  - intros H. exists x. split; [exact H|apply String.eqb_refl].
Qed.

Lemma drop_selected (df : dataframe) (P : column -> bool) :
  NoDup (map label df) ->
  drop (map label (filter P df)) df = filter (fun c => negb (P c)) df.
Proof.
  intros ND. unfold drop. apply filter_ext_in. intros c Hc. f_equal.
  destruct (P c) eqn:E.
  - apply mem_In. apply in_map. apply filter_In. now split.
  - destruct (mem (label c) (map label (filter P df))) eqn:M; [|reflexivity].
    apply mem_In in M. apply in_map_iff in M. destruct M as (c' & El & Hc').
    apply filter_In in Hc'. destruct Hc' as [Hc' Pc'].
    rewrite (label_inj df ND c' c Hc' Hc El) in Pc'. congruence.
Qed.

Lemma filter_none {A : Type} (P : A -> bool) (l : list A) :
  filter P l = [] -> filter (fun x => negb (P x)) l = l.
Proof.
  induction l as [|x l IH]; simpl; [reflexivity|].
  destruct (P x); [discriminate|]. intros H. simpl. now rewrite IH.
Qed.

(** C10, as stated, fails when "a numeric dtype" is read as pandas reads
    it: a constant [uint8] column outside the exclusion list has one
    unique value of share 1, and is kept. *)
Lemma numeric_column_kept :
  is_low_variance_numeric default_threshold default_exclude_cols flag_column = true
  /\ remove_low_variance_features [flag_column; demand_column]
       default_threshold default_exclude_cols
     = Some ([flag_column; demand_column], []).
Proof. split; reflexivity. Qed.

(** C10, amended. On a frame whose column labels are distinct,
    [remove_low_variance_features] drops exactly the columns that are
    outside the exclusion list, have dtype int64, float64, int32 or
    float32, have at most 10 unique values, and whose most frequent value
    has a share of at least the threshold; every other column is kept as
    it was, in its place, and the summary lists the dropped labels. *)
Theorem low_variance_columns_dropped
    (df : dataframe) (threshold : Q) (exclude_cols : list string) :
  NoDup (map label df) ->
  exists low_var_df : list low_variance,
    remove_low_variance_features df threshold exclude_cols
    = Some (filter (fun c => negb (is_low_variance threshold exclude_cols c)) df, low_var_df)
    /\ map lv_column low_var_df
       = map label (filter (is_low_variance threshold exclude_cols) df).
Proof.
  intros ND. unfold remove_low_variance_features.
  rewrite feature_cols_columns.
  rewrite (scan_rows df threshold ND)
    by (intros c Hc; apply filter_In in Hc; tauto).
  cbn [app].
  set (low := flat_map low_variance_row _).
  assert (Hlabels : map lv_column low
                    = map label (filter (is_low_variance threshold exclude_cols) df)).
  { unfold low. rewrite scan_rows_labels, filter_filter. f_equal. apply filter_ext.
    intros c. now rewrite is_low_variance_split. }
  exists low. split; [|exact Hlabels].
  change ([] ++ low)%list with low.
  destruct (0 <? List.length low) eqn:E.
  - now rewrite Hlabels, drop_selected.
  - apply Nat.ltb_ge in E.
    assert (Hnil : filter (is_low_variance threshold exclude_cols) df = []).
    { destruct (filter (is_low_variance threshold exclude_cols) df) eqn:F; [reflexivity|].
      apply (f_equal (@List.length _)) in Hlabels. rewrite length_map in Hlabels.
      simpl in Hlabels. lia. }
    now rewrite (filter_none _ _ Hnil).
Qed.

Lemma low_variance_columns_dropped_witness :
  exists low_var_df : list low_variance,
    remove_low_variance_features [flag_column; rating_column; demand_column]
      default_threshold default_exclude_cols
    = Some ([flag_column; demand_column], low_var_df)
    /\ map lv_column low_var_df = ["has_rating"].
Proof.
  apply (low_variance_columns_dropped [flag_column; rating_column; demand_column]
           default_threshold default_exclude_cols).
  repeat constructor; simpl; intuition discriminate.
Defined.

End Pruning.

(* ================================================================== *)
(** * Blank text *)
(* ================================================================== *)

Section BlankText.

Lemma rstrip_empty (s : string) : rstrip s = "" -> all_chars isspace s = true.
Proof.
  induction s as [|c r IH]; simpl; [reflexivity|].
  destruct (rstrip r) eqn:E; [|discriminate].
  destruct (isspace c); [|discriminate].
  intros _. now rewrite IH.
Qed.

Lemma lstrip_suffix_space (s : string) :
  all_chars isspace (lstrip s) = true -> all_chars isspace s = true.
Proof.
  induction s as [|c r IH]; simpl; [reflexivity|].
  destruct (isspace c) eqn:E; simpl.
  - exact IH.
  - now rewrite E.
Qed.

Lemma strip_empty_spaces (s : string) : strip s = "" -> all_chars isspace s = true.
Proof. intros H. apply lstrip_suffix_space, rstrip_empty, H. Qed.

Lemma spaces_lstrip (s : string) : all_chars isspace s = true -> lstrip s = "".
Proof.
  induction s as [|c r IH]; simpl; [reflexivity|].
  intros H. apply andb_true_iff in H. destruct H as [-> H]. now apply IH.
Qed.

Lemma spaces_strip_empty (s : string) : all_chars isspace s = true -> strip s = "".
Proof. intros H. unfold strip. now rewrite spaces_lstrip. Qed.

Lemma split_all_chars (p : ascii -> bool) (sep : ascii) (s : string) :
  all_chars p s = true -> Forall (fun l => all_chars p l = true) (split sep s).
Proof.
  induction s as [|c r IH]; simpl; intros H.
  - repeat constructor.
  - apply andb_true_iff in H. destruct H as [Hc Hr]. specialize (IH Hr).
    destruct (Ascii.eqb c sep).
    + constructor; [reflexivity|exact IH].
    + destruct (split sep r) as [|h t].
      * repeat constructor. simpl. now rewrite Hc.
      * inversion IH; subst. constructor; [simpl; now rewrite Hc|assumption].
Qed.

Lemma standardize_blank_lines (ls : list string) :
  Forall (fun l => all_chars isspace l = true) ls ->
  forall acc : list string, fold_left standardize_step ls acc = acc.
Proof.
  induction 1 as [|l ls Hl _ IH]; intros acc; simpl; [reflexivity|].
  unfold standardize_step at 2. rewrite (spaces_strip_empty l Hl). simpl. apply IH.
Qed.

(** A response of white space only leaves no line after the two steps. *)
Lemma blank_response_no_lines (response : string) :
  strip response = "" ->
  standardize_lines (clean_feedback response) = [].
Proof.
  intros H.
  assert (C : clean_feedback response = response).
  { unfold clean_feedback, valid_points. rewrite H. reflexivity. }
  rewrite C. unfold standardize_lines.
  apply standardize_blank_lines, split_all_chars, strip_empty_spaces, H.
Qed.

(** C7, as stated, fails: no test on the text precedes the model call, so
    with a model that answers every prompt with two well-formed points an
    empty or missing review text yields two feedback points. *)
Lemma empty_review_not_short_circuited :
  feedback_lines (feedback_points (analyze_review_with_suggestions two_point_model (Text "")))
  = ["1. Service: speed"; "2. Value: pricing"]
  /\ feedback_lines (feedback_points (analyze_review_with_suggestions two_point_model NaN))
     = ["1. Service: speed"; "2. Value: pricing"].
Proof. split; reflexivity. Qed.

(** C7, amended. For a review text that is empty or missing the pipeline
    runs as for any other text: the model is called on the prompt built
    from the text (a missing text is printed as "nan") and the feedback
    points are the cleaned, standardized response; there are no feedback
    points whenever that response is blank. *)
Theorem empty_review_follows_model (generate : model) (review_text : pytext) :
  review_text = Text "" \/ review_text = NaN ->
  feedback_points (analyze_review_with_suggestions generate review_text)
  = standardize_feedback (clean_feedback (generate 0 (extract_prompt review_text)))
  /\ (format_text review_text = "" \/ format_text review_text = "nan")
  /\ (strip (generate 0 (extract_prompt review_text)) = "" ->
      feedback_points (analyze_review_with_suggestions generate review_text) = ""
      /\ feedback_lines
           (feedback_points (analyze_review_with_suggestions generate review_text)) = []).
Proof.
  intros Ht. split; [reflexivity|]. split.
  - destruct Ht as [-> | ->]; [now left|now right].
  - intros Hblank. cbn [analyze_review_with_suggestions feedback_points].
    unfold analyze_review, standardize_feedback.
    rewrite (blank_response_no_lines _ Hblank). split; reflexivity.
Qed.

Lemma empty_review_follows_model_witness :
  feedback_points (analyze_review_with_suggestions (fun _ _ => "   ") NaN) = ""
  /\ feedback_lines
       (feedback_points (analyze_review_with_suggestions (fun _ _ => "   ") NaN)) = [].
Proof.
  refine (proj2 (proj2 (empty_review_follows_model (fun _ _ => "   ") NaN _)) _).
  - now right.
  - reflexivity.
Defined.

End BlankText.

(* ================================================================== *)
(** * Facts about the matcher *)
(* ================================================================== *)

Section EngineFacts.

Lemma all_chars_app (p : ascii -> bool) (a b : string) :
  all_chars p (a ++ b) = all_chars p a && all_chars p b.
Proof.
  induction a as [|c a IH]; simpl; [reflexivity|].
  now rewrite IH, andb_assoc.
Qed.

Lemma append_assoc (a b c : string) : a ++ b ++ c = (a ++ b) ++ c.
Proof. induction a as [|x a IH]; simpl; [reflexivity|now rewrite IH]. Qed.

Lemma all_chars_weaken (p q : ascii -> bool) (s : string) :
  (forall c, p c = true -> q c = true) ->
  all_chars p s = true -> all_chars q s = true.
Proof.
  intros Hpq. induction s as [|c s IH]; simpl; [reflexivity|].
  intros H. apply andb_true_iff in H. destruct H as [Hc Hs].
  now rewrite (Hpq c Hc), IH.
Qed.

Variable ic : bool.

Lemma splits_here (p : ascii -> bool) (s : string) (k : string -> option string) (x : string) :
  k s = Some x -> splits p s k x.
Proof. intros H. exists "", s. repeat split. exact H. Qed.

Lemma splits_step (p : ascii -> bool) (c : ascii) (s : string)
    (k : string -> option string) (x : string) :
  p c = true -> splits p s k x -> splits p (String c s) k x.
Proof.
  intros Hc (m & rest & -> & Hk & Hm). exists (String c m), rest.
  repeat split; [exact Hk|]. simpl. now rewrite Hc.
Qed.

Lemma greedy_splits (a : atom) (s : string) :
  forall (k : string -> option string) (x : string),
    greedy ic a s k = Some x -> splits (atom_matches ic a) s k x.
Proof.
  induction s as [|c s IH]; intros k x; simpl.
  - apply splits_here.
  - destruct (atom_matches ic a c) eqn:E; [|apply splits_here].
    destruct (greedy ic a s k) as [y|] eqn:G; [|apply splits_here].
    intros H. injection H as ->. apply splits_step; [exact E|]. now apply IH.
Qed.

Lemma lazy_splits (a : atom) (s : string) :
  forall (k : string -> option string) (x : string),
    lazy ic a s k = Some x -> splits (atom_matches ic a) s k x.
Proof.
  induction s as [|c s IH]; intros k x; simpl.
  - destruct (k "") eqn:K; [|discriminate]. intros H. apply splits_here. congruence.
  - destruct (k (String c s)) eqn:K.
    + intros H. apply splits_here. congruence.
    + destruct (atom_matches ic a c) eqn:E; [|discriminate].
      intros H. apply splits_step; [exact E|]. now apply IH.
Qed.

Lemma mt_splits (r : regex) :
  forall (s : string) (k : string -> option string) (x : string),
    mt ic r s k = Some x -> splits (charset ic r) s k x.
Proof.
  induction r as [|a|a|a|a|r1 IH1 r2 IH2|r1 IH1 r2 IH2]; intros s k x; simpl.
  - apply splits_here.
  - destruct s as [|c s]; [discriminate|].
    destruct (atom_matches ic a c) eqn:E; [|discriminate].
    intros H. apply splits_step; [exact E|]. now apply splits_here.
  - apply greedy_splits.
  - apply lazy_splits.
  - destruct s as [|c s]; [discriminate|].
    destruct (atom_matches ic a c) eqn:E; [|discriminate].
    intros H. apply splits_step; [exact E|]. now apply greedy_splits.
  - intros H. apply IH1 in H. destruct H as (m1 & rest1 & -> & H & Hm1).
    apply IH2 in H. destruct H as (m2 & rest2 & -> & H & Hm2).
    exists (m1 ++ m2), rest2. repeat split.
    + apply append_assoc.
    + exact H.
    + rewrite all_chars_app. apply andb_true_iff. split.
      * revert Hm1. apply all_chars_weaken. intros c ->. reflexivity.
      * revert Hm2. apply all_chars_weaken. intros c ->. apply orb_true_r.
  - destruct (mt ic r1 s k) as [y|] eqn:M.
    + intros H. injection H as ->. apply IH1 in M.
      destruct M as (m & rest & -> & H & Hm). exists m, rest. repeat split; [exact H|].
      revert Hm. apply all_chars_weaken. intros c ->. reflexivity.
    + intros H. apply IH2 in H.
      destruct H as (m & rest & -> & H & Hm). exists m, rest. repeat split; [exact H|].
      revert Hm. apply all_chars_weaken. intros c ->. apply orb_true_r.
Qed.

(** The text after a match is a suffix of the subject. *)
Lemma re_match_suffix (r : regex) (s rest : string) :
  re_match ic r s = Some rest ->
  exists m : string, s = m ++ rest /\ all_chars (charset ic r) m = true.
Proof.
  intros H. apply mt_splits in H. destruct H as (m & rest' & -> & H & Hm).
  injection H as ->. now exists m.
Qed.

Lemma re_search_suffix (r : regex) (pre s : string) :
  re_search ic r s = true -> re_search ic r (pre ++ s) = true.
Proof.
  intros H. induction pre as [|c pre IH]; [exact H|].
  simpl. destruct (re_match ic r (String c (pre ++ s))); [reflexivity|exact IH].
Qed.

Lemma re_search_found (r : regex) (s : string) :
  re_search ic r s = true ->
  exists pre t : string, s = pre ++ t /\ re_match ic r t <> None.
Proof.
  induction s as [|c s IH]; simpl.
  - destruct (re_match ic r "") eqn:M; [|discriminate].
    intros _. exists "", "". split; [reflexivity|congruence].
  - destruct (re_match ic r (String c s)) eqn:M.
    + intros _. exists "", (String c s). split; [reflexivity|congruence].
    + intros H. destruct (IH H) as (pre & t & -> & Ht).
      exists (String c pre), t. split; [reflexivity|exact Ht].
Qed.

Lemma sub_fuel_all_chars (p : ascii -> bool) (r : regex) (repl : string) :
  all_chars p repl = true ->
  forall (fuel : nat) (s : string),
    all_chars p s = true -> all_chars p (sub_fuel ic fuel r repl s) = true.
Proof.
  intros Hrepl. induction fuel as [|fuel IH]; intros s Hs; simpl; [exact Hs|].
  destruct s as [|c s]; [reflexivity|].
  assert (Hcons : all_chars p (String c (sub_fuel ic fuel r repl s)) = true).
  { simpl in *. apply andb_true_iff in Hs. destruct Hs as [-> Hs]. now rewrite IH. }
  destruct (re_match ic r (String c s)) as [rest|] eqn:M; [|exact Hcons].
  destruct (String.length rest <? String.length (String c s)); [|exact Hcons].
  apply re_match_suffix in M. destruct M as (m & E & _).
  rewrite E, all_chars_app in Hs. apply andb_true_iff in Hs.
  rewrite all_chars_app, Hrepl. simpl. apply IH, Hs.
Qed.

Lemma re_sub_all_chars (p : ascii -> bool) (r : regex) (repl s : string) :
  all_chars p repl = true -> all_chars p s = true ->
  all_chars p (re_sub ic r repl s) = true.
Proof. intros Hr Hs. now apply sub_fuel_all_chars. Qed.

End EngineFacts.

(* ================================================================== *)
(** * Lines and numbering *)
(* ================================================================== *)

(** A fact about one character, settled by running through all 256. *)
Ltac each_char c := destruct c as [[] [] [] [] [] [] [] []]; vm_compute; congruence.

Section LinesAndNumbers.

Lemma split_no_sep (s : string) :
  all_chars no_newline s = true -> lines s = [s].
Proof.
  unfold lines. induction s as [|c s IH]; simpl; [reflexivity|].
  intros H. apply andb_true_iff in H. destruct H as [Hc Hs].
  unfold no_newline in Hc. apply negb_true_iff in Hc. rewrite Hc.
  now rewrite (IH Hs).
Qed.

Lemma split_app_sep (a b : string) :
  all_chars no_newline a = true ->
  lines (a ++ String newline b) = a :: lines b.
Proof.
  unfold lines. induction a as [|c a IH]; simpl.
  - intros _. reflexivity.
  - intros H. apply andb_true_iff in H. destruct H as [Hc Ha].
    unfold no_newline in Hc. apply negb_true_iff in Hc. rewrite Hc.
    now rewrite (IH Ha).
Qed.

(** Splitting what was joined gives the parts back. *)
Lemma lines_unlines (ls : list string) :
  ls <> [] ->
  Forall (fun l => all_chars no_newline l = true) ls ->
  lines (unlines ls) = ls.
Proof.
  intros Hne H. induction H as [|l ls Hl Hls IH]; [congruence|].
  destruct ls as [|l' ls].
  - simpl. now apply split_no_sep.
  - change (unlines (l :: l' :: ls)) with (l ++ String newline (unlines (l' :: ls))).
    rewrite (split_app_sep _ _ Hl). f_equal. apply IH. discriminate.
Qed.

Lemma lines_no_newline (s : string) :
  Forall (fun l => all_chars no_newline l = true) (lines s).
Proof.
  unfold lines. induction s as [|c s IH]; simpl.
  - repeat constructor.
  - destruct (Ascii.eqb c newline) eqn:E.
    + constructor; [reflexivity|exact IH].
    + destruct (split newline s) as [|h t].
      * repeat constructor. simpl. unfold no_newline. now rewrite E.
      * inversion IH; subst. constructor; [|assumption].
        simpl. unfold no_newline at 1. now rewrite E.
Qed.

Lemma lstrip_all_chars (p : ascii -> bool) (s : string) :
  all_chars p s = true -> all_chars p (lstrip s) = true.
Proof.
  induction s as [|c s IH]; simpl; [reflexivity|].
  intros H. destruct (isspace c); [|exact H].
  apply andb_true_iff in H. now apply IH.
Qed.

Lemma rstrip_all_chars (p : ascii -> bool) (s : string) :
  all_chars p s = true -> all_chars p (rstrip s) = true.
Proof.
  induction s as [|c s IH]; simpl; [reflexivity|].
  intros H. apply andb_true_iff in H. destruct H as [Hc Hs]. specialize (IH Hs).
  destruct (rstrip s) as [|c' s'].
  - destruct (isspace c); [reflexivity|]. simpl. now rewrite Hc.
  - simpl in *. now rewrite Hc, IH.
Qed.

Lemma strip_all_chars (p : ascii -> bool) (s : string) :
  all_chars p s = true -> all_chars p (strip s) = true.
Proof. intros H. apply rstrip_all_chars, lstrip_all_chars, H. Qed.

Lemma uint_digits (d : uint) : all_chars isdigit (NilEmpty.string_of_uint d) = true.
Proof. induction d; simpl; [reflexivity|exact IHd..]. Qed.

(** A printed ordinal is a digit followed by digits. *)
Lemma str_of_nat_digits (n : nat) :
  exists (d : ascii) (ds : string),
    str_of_nat n = String d ds /\ isdigit d = true /\ all_chars isdigit ds = true.
Proof.
  unfold str_of_nat. generalize (Nat.to_uint n). intros u.
  destruct u; simpl; eexists _, _; (split; [reflexivity|split; [reflexivity|]]);
    try reflexivity; apply uint_digits.
Qed.

Lemma digit_no_newline (c : ascii) : isdigit c = true -> no_newline c = true.
Proof.
  each_char c.
Qed.

Lemma digit_not_space (c : ascii) : isdigit c = true -> isspace c = false.
Proof.
  each_char c.
Qed.

Lemma numbered_from_app (k : nat) (a b : list string) :
  numbered_from k (a ++ b) = (numbered_from k a ++ numbered_from (k + List.length a) b)%list.
Proof.
  revert k. induction a as [|x a IH]; intros k; simpl.
  - now rewrite Nat.add_0_r.
  - rewrite IH. now replace (S k + List.length a) with (k + S (List.length a)) by lia.
Qed.

Lemma numbered_from_length (k : nat) (labels : list string) :
  List.length (numbered_from k labels) = List.length labels.
Proof. revert k. induction labels as [|l labels IH]; intros k; simpl; [|rewrite IH]; reflexivity. Qed.

Lemma standardize_step_label (acc : list string) (line : string) :
  standardize_step acc line
  = (acc ++ numbered_from (List.length acc + 1) (label_of line))%list.
Proof.
  unfold standardize_step, label_of. fold (content line).
  destruct (negb (truthy (strip line))); [now rewrite app_nil_r|].
  destruct (first_rule standardizations line); [reflexivity|].
  destruct (truthy (content line)); [reflexivity|now rewrite app_nil_r].
Qed.

(** The loop of the Standardizer: the labels of the lines, numbered on. *)
Lemma standardize_fold (ls : list string) :
  forall acc : list string,
    fold_left standardize_step ls acc
    = (acc ++ numbered_from (List.length acc + 1) (flat_map label_of ls))%list.
Proof.
  induction ls as [|l ls IH]; intros acc; simpl.
  - now rewrite app_nil_r.
  - rewrite IH, standardize_step_label, numbered_from_app, <- app_assoc.
    rewrite length_app, numbered_from_length.
    do 3 f_equal. lia.
Qed.

Lemma standardize_lines_numbered (feedback_text : string) :
  standardize_lines feedback_text
  = numbered_from 1 (flat_map label_of (lines feedback_text)).
Proof. unfold standardize_lines. now rewrite standardize_fold. Qed.

End LinesAndNumbers.

(* ================================================================== *)
(** * Cleaned lines under the Standardizer *)
(* ================================================================== *)

Section CleanedLines.

Lemma digit_not_paren (c : ascii) : isdigit c = true -> Ascii.eqb "("%char c = false.
Proof.
  each_char c.
Qed.

Lemma initial_not_ordinal_char (a c : ascii) :
  In a initials -> ordinal_char c = true -> atom_matches true (Chr a) c = false.
Proof.
  intros Ha. simpl in Ha.
  destruct Ha as [<-|[<-|[<-|[<-|[<-|[]]]]]];
    each_char c.
Qed.

Lemma plain_ordinal_char (c : ascii) : plain c = true -> ordinal_char c = true.
Proof.
  each_char c.
Qed.

Lemma rstrip_head (c : ascii) (s : string) :
  isspace c = false -> exists s', rstrip (String c s) = String c s'.
Proof.
  intros H. simpl. destruct (rstrip s); [rewrite H|]; eexists; reflexivity.
Qed.

Lemma strip_head (c : ascii) (s : string) :
  isspace c = false -> exists s', strip (String c s) = String c s'.
Proof.
  intros H. unfold strip. simpl lstrip. rewrite H. now apply rstrip_head.
Qed.

Lemma re_sub_head (r : regex) (repl : string) (c : ascii) (s : string) :
  re_match false r (String c s) = None ->
  exists s', re_sub false r repl (String c s) = String c s'.
Proof.
  intros H. unfold re_sub. simpl String.length. cbn [sub_fuel]. rewrite H.
  eexists; reflexivity.
Qed.

Lemma starts_with_ordinal_digit (line : string) :
  starts_with_ordinal line = true ->
  exists (d : ascii) (rest : string), line = String d rest /\ isdigit d = true.
Proof.
  unfold starts_with_ordinal, re_match, ordinal_re. simpl.
  destruct line as [|d rest]; [discriminate|].
  destruct (isdigit d) eqn:E; [|discriminate].
  intros _. now exists d, rest.
Qed.

(** Tidying keeps the leading digit of a line that opens with an ordinal. *)
Lemma tidy_head (d : ascii) (rest : string) :
  isdigit d = true -> exists t, tidy (String d rest) = String d t.
Proof.
  intros Hd. unfold tidy.
  destruct (re_sub_head paren_re "" d rest) as [s1 E1].
  { unfold re_match, paren_re. cbn [mt atom_matches]. now rewrite (digit_not_paren d Hd). }
  rewrite E1.
  destruct (re_sub_head spaces_re " " d s1) as [s2 E2].
  { unfold re_match, spaces_re. cbn [mt atom_matches]. now rewrite (digit_not_space d Hd). }
  rewrite E2. apply strip_head, digit_not_space, Hd.
Qed.

Lemma tidy_no_newline (line : string) :
  all_chars no_newline line = true -> all_chars no_newline (tidy line) = true.
Proof.
  intros H. unfold tidy.
  apply strip_all_chars, re_sub_all_chars; [reflexivity|].
  apply re_sub_all_chars; [reflexivity|exact H].
Qed.

Lemma In_firstn {A : Type} (n : nat) (l : list A) (x : A) :
  In x (firstn n l) -> In x l.
Proof.
  revert l. induction n as [|n IH]; intros [|y l]; simpl; try tauto.
  intros [H|H]; [now left|right; now apply IH].
Qed.

(** A cleaned line has no line break and opens with a digit. *)
Lemma cleaned_line_shape (feedback_text line : string) :
  In line (cleaned_lines feedback_text) ->
  all_chars no_newline line = true
  /\ exists (d : ascii) (t : string), line = String d t /\ isdigit d = true.
Proof.
  unfold cleaned_lines. intros H. apply In_firstn in H.
  rewrite valid_points_survivors in H. apply in_map_iff in H.
  destruct H as (l & <- & Hl). unfold survivors in Hl.
  apply filter_In in Hl. destruct Hl as [Hl Hs].
  apply in_map_iff in Hl. destruct Hl as (l0 & <- & Hl0).
  split.
  - apply tidy_no_newline, strip_all_chars.
    pose proof (lines_no_newline (strip feedback_text)) as F.
    rewrite Forall_forall in F. now apply F.
  - unfold survives in Hs. apply andb_true_iff in Hs. destruct Hs as [Hs _].
    apply andb_true_iff in Hs. destruct Hs as [_ Ho].
    apply starts_with_ordinal_digit in Ho. destruct Ho as (d & rest & E & Hd).
    rewrite E. destruct (tidy_head d rest Hd) as [t Et]. now exists d, t.
Qed.

Lemma rule_shape (p : regex) (r : string) :
  In (p, r) standardizations ->
  exists (a : ascii) (rest : string) (k : regex) (ks : list regex),
    p = pat (String a rest) k ks /\ In a initials.
Proof.
  unfold standardizations. intros H.
  repeat (destruct H as [H|H];
          [injection H as <- _; eexists _, _, _, _; split; [reflexivity|simpl; tauto]|]).
  contradiction.
Qed.

Lemma pat_head (ic : bool) (a : ascii) (rest : string) (k : regex) (ks : list regex)
    (c : ascii) (t : string) :
  atom_matches ic (Chr a) c = false ->
  re_match ic (pat (String a rest) k ks) (String c t) = None.
Proof.
  intros H. unfold re_match, pat. cbn [lit mt]. now rewrite H.
Qed.

Lemma first_rule_some (rules : list (regex * string)) (line r : string) :
  first_rule rules line = Some r ->
  exists p, In (p, r) rules /\ re_search true p line = true.
Proof.
  induction rules as [|[p0 r0] rules IH]; simpl; [discriminate|].
  destruct (re_search true p0 line) eqn:E.
  - intros H. injection H as <-. exists p0. split; [now left|exact E].
  - intros H. destruct (IH H) as (p & Hin & Hp). exists p. split; [now right|exact Hp].
Qed.

Lemma first_rule_none (rules : list (regex * string)) (line : string) :
  first_rule rules line = None <->
  (forall p r, In (p, r) rules -> re_search true p line = false).
Proof.
  induction rules as [|[p0 r0] rules IH]; simpl.
  - split; [intros _ p r []|reflexivity].
  - destruct (re_search true p0 line) eqn:E.
    + split; [discriminate|]. intros H. rewrite (H p0 r0) in E; [discriminate|now left].
    + rewrite IH. split.
      * intros H p r [Hin|Hin]; [injection Hin as <- <-; exact E|now apply (H p r)].
      * intros H p r Hin. apply (H p r). now right.
Qed.

(** No rule finds anything in text made of ordinal characters only. *)
Lemma rules_need_letters (p : regex) (r line : string) :
  In (p, r) standardizations ->
  all_chars ordinal_char line = true ->
  re_search true p line = false.
Proof.
  intros Hin Hline. destruct (re_search true p line) eqn:E; [|reflexivity].
  exfalso. apply re_search_found in E. destruct E as (pre & t & -> & Hm).
  destruct (rule_shape p r Hin) as (a & rest & k & ks & -> & Ha).
  rewrite all_chars_app in Hline. apply andb_true_iff in Hline. destruct Hline as [_ Ht].
  destruct t as [|c t]; [now apply Hm|].
  simpl in Ht. apply andb_true_iff in Ht. destruct Ht as [Hc _].
  apply Hm, pat_head, initial_not_ordinal_char; assumption.
Qed.

Lemma content_empty_ordinal (line : string) :
  content line = "" -> all_chars ordinal_char line = true.
Proof.
  unfold content, re_sub_bol.
  destruct (re_match false ordinal_ws_re line) as [rest|] eqn:M.
  - simpl. intros ->. apply re_match_suffix in M. destruct M as (m & -> & Hm).
    rewrite all_chars_app, andb_true_r. revert Hm. apply all_chars_weaken.
    intros c. each_char c.
  - intros ->. reflexivity.
Qed.

(** A line that some rule finds has text after its ordinal. *)
Lemma rule_match_has_detail (line r : string) :
  first_rule standardizations line = Some r -> has_detail line = true.
Proof.
  intros H. unfold has_detail. destruct (content line) eqn:E; [|reflexivity].
  exfalso. apply first_rule_some in H. destruct H as (p & Hin & Hs).
  rewrite (rules_need_letters p r line Hin (content_empty_ordinal line E)) in Hs.
  discriminate.
Qed.

Lemma contains_needs_first (p : ascii -> bool) (a : ascii) (sub s : string) :
  all_chars p s = true -> p a = false -> contains s (String a sub) = false.
Proof.
  intros Hs Ha. induction s as [|c s IH]; [reflexivity|].
  simpl in Hs. apply andb_true_iff in Hs. destruct Hs as [Hc Hs].
  cbn [contains String.prefix]. rewrite (IH Hs).
  destruct (ascii_dec a c) as [->|_]; [congruence|reflexivity].
Qed.

(** A line that names a category has text after its ordinal. *)
Lemma category_has_detail (line : string) :
  has_valid_category line = true -> has_detail line = true.
Proof.
  intros H. unfold has_detail. destruct (content line) eqn:E; [|reflexivity].
  exfalso. apply content_empty_ordinal in E.
  unfold has_valid_category, allowed_categories in H. cbn [has_valid_category_in] in H.
  rewrite !(contains_needs_first ordinal_char _ _ line E) in H by reflexivity.
  discriminate.
Qed.

Lemma label_of_cleaned (d : ascii) (t : string) :
  isdigit d = true ->
  List.length (label_of (String d t)) = if has_detail (String d t) then 1 else 0.
Proof.
  intros Hd. unfold label_of.
  destruct (strip_head d t (digit_not_space d Hd)) as [s' ->]. simpl negb. cbv iota.
  destruct (first_rule standardizations (String d t)) as [r|] eqn:F.
  - now rewrite (rule_match_has_detail _ r F).
  - unfold has_detail. now destruct (truthy (content (String d t))).
Qed.

Lemma flat_map_filter_length {A B : Type} (f : A -> list B) (g : A -> bool) (l : list A) :
  (forall x, In x l -> List.length (f x) = if g x then 1 else 0) ->
  List.length (flat_map f l) = List.length (filter g l).
Proof.
  induction l as [|x l IH]; intros H; simpl; [reflexivity|].
  rewrite length_app, (H x) by now left.
  rewrite IH by (intros y Hy; apply H; now right).
  now destruct (g x).
Qed.

Lemma filter_length_all {A : Type} (g : A -> bool) (l : list A) :
  forallb g l = true -> List.length (filter g l) = List.length l.
Proof.
  induction l as [|x l IH]; simpl; [reflexivity|].
  intros H. apply andb_true_iff in H. destruct H as [-> H]. simpl. now rewrite IH.
Qed.

(** C6, as stated, fails: the response has two valid lines, the Cleaner
    gives the two lines "1. Service" and "2.", and the Standardizer gives
    one line, since nothing is left of the second after its ordinal. *)
Lemma bare_ordinal_line_dropped :
  List.length (survivors parenthetical_response) = 2
  /\ cleaned_lines parenthetical_response = ["1. Service"; "2."]
  /\ standardize_lines (clean_feedback parenthetical_response) = ["1. Service"]
  /\ List.length (standardize_lines (clean_feedback parenthetical_response))
     <> List.length (cleaned_lines parenthetical_response).
Proof. repeat split; try reflexivity. vm_compute. lia. Qed.

(** C6, amended. For every response with at least 2 valid lines the
    Standardizer gives one line for each cleaned line that has text left
    after its ordinal: never more lines than the Cleaner produced, as many
    when every cleaned line has such text (in particular when every
    cleaned line still names a category), and numbered 1, 2, ..., m. *)
Theorem standardizer_line_count (feedback_text : string) :
  2 <= List.length (survivors feedback_text) ->
  exists labels : list string,
    clean_feedback feedback_text = unlines (cleaned_lines feedback_text)
    /\ standardize_lines (clean_feedback feedback_text) = numbered_from 1 labels
    /\ List.length labels = List.length (filter has_detail (cleaned_lines feedback_text))
    /\ List.length labels <= List.length (cleaned_lines feedback_text)
    /\ (forallb has_detail (cleaned_lines feedback_text) = true ->
        List.length labels = List.length (cleaned_lines feedback_text))
    /\ (forallb has_valid_category (cleaned_lines feedback_text) = true ->
        List.length labels = List.length (cleaned_lines feedback_text)).
Proof.
  intros H2.
  assert (Hlen : 2 <= List.length (cleaned_lines feedback_text)).
  { unfold cleaned_lines. rewrite length_firstn, valid_points_survivors, length_map. lia. }
  assert (Hclean : clean_feedback feedback_text = unlines (cleaned_lines feedback_text)).
  { unfold clean_feedback. fold (cleaned_lines feedback_text).
    destruct (List.length (cleaned_lines feedback_text) <? 2) eqn:E; [|reflexivity].
    apply Nat.ltb_lt in E. lia. }
  assert (Hlines : lines (unlines (cleaned_lines feedback_text)) = cleaned_lines feedback_text).
  { apply lines_unlines.
    - intros E. rewrite E in Hlen. simpl in Hlen. lia.
    - apply Forall_forall. intros l Hl. now apply (cleaned_line_shape feedback_text). }
  assert (Hcount : List.length (flat_map label_of (cleaned_lines feedback_text))
                   = List.length (filter has_detail (cleaned_lines feedback_text))).
  { apply flat_map_filter_length. intros l Hl.
    destruct (cleaned_line_shape feedback_text l Hl) as (_ & d & t & -> & Hd).
    now apply label_of_cleaned. }
  exists (flat_map label_of (cleaned_lines feedback_text)).
  split; [exact Hclean|].
  split; [now rewrite Hclean, standardize_lines_numbered, Hlines|].
  split; [exact Hcount|].
  split; [rewrite Hcount; apply filter_length_le|].
  split.
  - intros Hall. now rewrite Hcount, filter_length_all.
  - intros Hall. rewrite Hcount, filter_length_all; [reflexivity|].
    rewrite forallb_forall in *. intros l Hl. apply category_has_detail, Hall, Hl.
Qed.

Lemma standardizer_line_count_witness :
  exists labels : list string,
    clean_feedback stub_two_lines = unlines (cleaned_lines stub_two_lines)
    /\ standardize_lines (clean_feedback stub_two_lines) = numbered_from 1 labels
    /\ List.length labels = List.length (filter has_detail (cleaned_lines stub_two_lines))
    /\ List.length labels <= List.length (cleaned_lines stub_two_lines)
    /\ (forallb has_detail (cleaned_lines stub_two_lines) = true ->
        List.length labels = List.length (cleaned_lines stub_two_lines))
    /\ (forallb has_valid_category (cleaned_lines stub_two_lines) = true ->
        List.length labels = List.length (cleaned_lines stub_two_lines)).
Proof.
  apply (standardizer_line_count stub_two_lines). vm_compute. lia.
Defined.

End CleanedLines.

(* ================================================================== *)
(** * A second pass of the Standardizer *)
(* ================================================================== *)

Section SecondPass.

Lemma lstrip_idem (s : string) : lstrip (lstrip s) = lstrip s.
Proof.
  induction s as [|c s IH]; simpl; [reflexivity|].
  destruct (isspace c) eqn:E; [exact IH|]. simpl. now rewrite E.
Qed.

Lemma greedy_space_lstrip (s : string) : greedy false Space s Some = Some (lstrip s).
Proof.
  induction s as [|c s IH]; simpl; [reflexivity|].
  destruct (isspace c); [now rewrite IH|reflexivity].
Qed.

Lemma greedy_digits_dot (t : string) (k : string -> option string) (x : string) :
  k (String "." t) = Some x ->
  forall ds : string,
    all_chars isdigit ds = true ->
    greedy false Digit (ds ++ String "." t) k = Some x.
Proof.
  intros Hk. induction ds as [|d ds IH]; simpl.
  - intros _. exact Hk.
  - intros H. apply andb_true_iff in H. destruct H as [-> H]. now rewrite IH.
Qed.

(** Removing the ordinal of a numbered line. *)
Lemma ordinal_ws_numbered (d : ascii) (ds t : string) :
  isdigit d = true -> all_chars isdigit ds = true ->
  re_match false ordinal_ws_re (String d (ds ++ String "." t)) = Some (lstrip t).
Proof.
  intros Hd Hds. unfold re_match, ordinal_ws_re. cbn [mt atom_matches]. rewrite Hd.
  apply greedy_digits_dot; [|exact Hds].
  cbn. apply greedy_space_lstrip.
Qed.

(** What is left after an ordinal has no leading white space. *)
Lemma ordinal_ws_rest (s rest : string) :
  re_match false ordinal_ws_re s = Some rest -> lstrip rest = rest.
Proof.
  unfold re_match, ordinal_ws_re. cbn [mt]. intros H.
  destruct s as [|c s]; [discriminate|].
  destruct (atom_matches false Digit c); [|discriminate].
  apply greedy_splits in H. destruct H as (m & rest1 & _ & H & _).
  destruct rest1 as [|c1 s2]; [discriminate|].
  destruct (atom_matches false (Chr ".") c1); [|discriminate].
  rewrite greedy_space_lstrip in H. injection H as <-. apply lstrip_idem.
Qed.

Lemma content_suffix (line : string) :
  exists m : string, line = m ++ content line.
Proof.
  unfold content, re_sub_bol.
  destruct (re_match false ordinal_ws_re line) as [rest|] eqn:M.
  - apply re_match_suffix in M. destruct M as (m & E & _). now exists m.
  - now exists "".
Qed.

Lemma content_lstrip (line : string) :
  lstrip line = line -> lstrip (content line) = content line.
Proof.
  intros H. unfold content, re_sub_bol.
  destruct (re_match false ordinal_ws_re line) as [rest|] eqn:M.
  - simpl. now apply (ordinal_ws_rest line).
  - exact H.
Qed.

Lemma rule_skip_plain (p : regex) (r : string) (c : ascii) (t : string) :
  In (p, r) standardizations -> plain c = true ->
  re_search true p (String c t) = re_search true p t.
Proof.
  intros Hin Hc. destruct (rule_shape p r Hin) as (a & rest & k & ks & -> & Ha).
  cbn [re_search]. rewrite pat_head; [reflexivity|].
  apply initial_not_ordinal_char; [exact Ha|now apply plain_ordinal_char].
Qed.

Lemma first_rule_skip_char (rules : list (regex * string)) (c : ascii) (t : string) :
  (forall pr, In pr rules -> In pr standardizations) ->
  plain c = true ->
  first_rule rules (String c t) = first_rule rules t.
Proof.
  intros Hsub Hc. induction rules as [|[p r] rules IH]; [reflexivity|].
  cbn [first_rule]. rewrite (rule_skip_plain p r c t) by (auto; apply Hsub; now left).
  rewrite IH by (intros pr H; apply Hsub; now right). reflexivity.
Qed.

(** The rules see through an ordinal prefix. *)
Lemma first_rule_skip (pre t : string) :
  all_chars plain pre = true ->
  first_rule standardizations (pre ++ t) = first_rule standardizations t.
Proof.
  induction pre as [|c pre IH]; [reflexivity|].
  cbn [append all_chars].
  intros H. apply andb_true_iff in H. destruct H as [Hc Hpre].
  rewrite first_rule_skip_char by auto. now apply IH.
Qed.

Lemma first_rule_suffix_none (pre t : string) :
  first_rule standardizations (pre ++ t) = None ->
  first_rule standardizations t = None.
Proof.
  rewrite !first_rule_none. intros H p r Hin.
  destruct (re_search true p t) eqn:E; [|reflexivity].
  rewrite <- (H p r Hin). symmetry. now apply re_search_suffix.
Qed.

Lemma digits_plain (s : string) : all_chars isdigit s = true -> all_chars plain s = true.
Proof.
  apply all_chars_weaken. intros c H. unfold plain. now rewrite H.
Qed.

(** A fixed label comes back from any numbered line that carries it. *)
Lemma fixed_label (l : string) (k : nat) :
  fixed l = true -> label_of (str_of_nat k ++ ". " ++ l) = [l].
Proof.
  intros Hfix. destruct (str_of_nat_digits k) as (d & ds & -> & Hd & Hds).
  change (String d ds ++ ". " ++ l) with (String d (ds ++ String "." (String " " l))).
  unfold label_of.
  destruct (strip_head d (ds ++ String "." (String " " l)) (digit_not_space d Hd)) as [s' ->].
  simpl negb. cbv iota.
  assert (Hrule : first_rule standardizations (String d (ds ++ String "." (String " " l)))
                  = first_rule standardizations l).
  { replace (String d (ds ++ String "." (String " " l)))
      with ((String d ds ++ ". ") ++ l) by (simpl; now rewrite <- append_assoc).
    apply first_rule_skip. rewrite all_chars_app. apply andb_true_iff. split.
    - apply digits_plain. simpl. now rewrite Hd.
    - reflexivity. }
  assert (Hcontent : content (String d (ds ++ String "." (String " " l))) = lstrip l).
  { unfold content, re_sub_bol. now rewrite ordinal_ws_numbered. }
  rewrite Hrule, Hcontent. unfold fixed in Hfix.
  destruct (first_rule standardizations l) as [r|].
  - apply String.eqb_eq in Hfix. now subst.
  - apply andb_true_iff in Hfix. destruct Hfix as [Ht He].
    apply String.eqb_eq in He. now rewrite He, Ht.
Qed.

Lemma fixed_labels_numbered (labels : list string) :
  Forall (fun l => fixed l = true) labels ->
  forall k : nat, flat_map label_of (numbered_from k labels) = labels.
Proof.
  induction 1 as [|l labels Hl _ IH]; intros k; [reflexivity|].
  cbn [numbered_from flat_map]. now rewrite (fixed_label l k Hl), IH.
Qed.

Lemma canonical_labels_fixed :
  forall r : string,
    In r (map snd standardizations) ->
    r <> quality_for_cost ->
    fixed r = true /\ all_chars no_newline r = true.
Proof.
  intros r H. simpl in H.
  repeat (destruct H as [<-|H]; [intros Hne; try (now exfalso; apply Hne); split; reflexivity|]).
  contradiction.
Qed.

(** The labels of a settled line are fixed and free of line breaks. *)
Lemma settled_labels (line l : string) :
  all_chars no_newline line = true ->
  settled_line line = true ->
  In l (label_of line) ->
  fixed l = true /\ all_chars no_newline l = true.
Proof.
  intros Hnl Hset. unfold settled_line in Hset. unfold label_of.
  destruct (truthy (strip line)); cbn [negb orb] in *; [|intros []].
  destruct (first_rule standardizations line) as [r|] eqn:F.
  - intros [<-|[]]. apply canonical_labels_fixed.
    + apply first_rule_some in F. destruct F as (p & Hin & _).
      apply in_map_iff. now exists (p, r).
    + intros E. rewrite E, String.eqb_refl in Hset. discriminate.
  - apply String.eqb_eq in Hset.
    destruct (truthy (content line)) eqn:T; [|intros []].
    intros [<-|[]]. destruct (content_suffix line) as [m Em]. split.
    + unfold fixed. rewrite Em in F. rewrite (first_rule_suffix_none m _ F), T.
      rewrite (content_lstrip line Hset). apply String.eqb_refl.
    + rewrite Em, all_chars_app in Hnl. apply andb_true_iff in Hnl. tauto.
Qed.

Lemma numbered_no_newline (labels : list string) :
  Forall (fun l => all_chars no_newline l = true) labels ->
  forall k : nat, Forall (fun l => all_chars no_newline l = true) (numbered_from k labels).
Proof.
  induction 1 as [|l labels Hl _ IH]; intros k; simpl; constructor; [|apply IH].
  destruct (str_of_nat_digits k) as (d & ds & -> & Hd & Hds).
  rewrite !all_chars_app. simpl. rewrite (digit_no_newline d Hd), Hl.
  rewrite (all_chars_weaken _ _ ds digit_no_newline Hds). reflexivity.
Qed.

(** What a second pass makes of a numbered line. *)
Lemma second_label (l : string) (k : nat) :
  (first_rule standardizations l = None -> truthy (lstrip l) = true) ->
  label_of (str_of_nat k ++ ". " ++ l) = [second l].
Proof.
  intros Hne. destruct (str_of_nat_digits k) as (d & ds & -> & Hd & Hds).
  change (String d ds ++ ". " ++ l) with (String d (ds ++ String "." (String " " l))).
  unfold label_of, second.
  destruct (strip_head d (ds ++ String "." (String " " l)) (digit_not_space d Hd)) as [s' ->].
  simpl negb. cbv iota.
  replace (String d (ds ++ String "." (String " " l)))
    with ((String d ds ++ ". ") ++ l) at 1 by (simpl; now rewrite <- append_assoc).
  rewrite first_rule_skip.
  - destruct (first_rule standardizations l) as [r|] eqn:F; [reflexivity|].
    unfold content, re_sub_bol. rewrite ordinal_ws_numbered by assumption.
    cbn [append lstrip]. change (isspace " ") with true. cbv iota.
    now rewrite (Hne eq_refl).
  - rewrite all_chars_app. apply andb_true_iff. split; [|reflexivity].
    apply digits_plain. simpl. now rewrite Hd.
Qed.

Lemma second_labels_numbered (labels : list string) :
  Forall emitted labels ->
  forall k : nat, flat_map label_of (numbered_from k labels) = map second labels.
Proof.
  induction 1 as [|l labels [_ Hl] _ IH]; intros k; [reflexivity|].
  cbn [numbered_from flat_map map]. now rewrite (second_label l k Hl), IH.
Qed.

Lemma strip_truthy_lstrip (s : string) :
  truthy (strip s) = true -> truthy (lstrip s) = true.
Proof. unfold strip. now destruct (lstrip s). Qed.

Lemma canonical_labels_emitted (r : string) :
  In r (map snd standardizations) -> emitted r.
Proof.
  intros H. simpl in H.
  repeat (destruct H as [<-|H]; [split; [reflexivity|intros _; reflexivity]|]).
  contradiction.
Qed.

(** Every label of the first pass is an emitted label. *)
Lemma label_of_emitted (line l : string) :
  all_chars no_newline line = true -> In l (label_of line) -> emitted l.
Proof.
  intros Hnl. unfold label_of.
  destruct (truthy (strip line)) eqn:Hline; cbn [negb]; [|intros []].
  destruct (first_rule standardizations line) as [r|] eqn:F.
  - intros [<-|[]]. apply canonical_labels_emitted.
    apply first_rule_some in F. destruct F as (p & Hin & _).
    apply in_map_iff. now exists (p, r).
  - destruct (truthy (content line)) eqn:T; [|intros []].
    intros [<-|[]]. split.
    + destruct (content_suffix line) as [m Em].
      rewrite Em, all_chars_app in Hnl. apply andb_true_iff in Hnl. tauto.
    + intros _. revert T. unfold content, re_sub_bol.
      destruct (re_match false ordinal_ws_re line) as [rest|] eqn:M.
      * simpl. now rewrite (ordinal_ws_rest line rest M).
      * intros _. now apply strip_truthy_lstrip.
Qed.

Lemma append_cancel (s x y : string) : s ++ x = s ++ y -> x = y.
Proof.
  induction s as [|c s IH]; simpl; [tauto|].
  intros H. injection H as H. now apply IH.
Qed.

Lemma numbered_from_inj (a : list string) :
  forall (b : list string) (k : nat),
    numbered_from k a = numbered_from k b -> a = b.
Proof.
  induction a as [|x a IH]; intros [|y b] k; simpl; try discriminate; [reflexivity|].
  intros H. injection H as Hx Hrest.
  apply append_cancel in Hx. injection Hx as ->. f_equal. now apply (IH b (S k)).
Qed.

Lemma numbered_head_truthy (k : nat) (l : string) (rest : list string) :
  numbered_from k (l :: rest) <> [""].
Proof.
  simpl. destruct (str_of_nat_digits k) as (d & ds & -> & _). discriminate.
Qed.

(** Two numbered lists that join to the same text are the same list. *)
Lemma unlines_numbered_inj (a b : list string) :
  Forall (fun l => all_chars no_newline l = true) a ->
  Forall (fun l => all_chars no_newline l = true) b ->
  List.length a = List.length b ->
  unlines (numbered_from 1 a) = unlines (numbered_from 1 b) -> a = b.
Proof.
  intros Ha Hb Hlen H.
  destruct a as [|x a], b as [|y b]; try discriminate; [reflexivity|].
  apply (numbered_from_inj _ _ 1).
  rewrite <- (lines_unlines (numbered_from 1 (x :: a))),
          <- (lines_unlines (numbered_from 1 (y :: b))).
  - now rewrite H.
  - discriminate.
  - now apply numbered_no_newline.
  - discriminate.
  - now apply numbered_no_newline.
Qed.

Lemma ordinal_ws_lstrip (line rest : string) :
  re_match false ordinal_ws_re line = Some rest -> lstrip line = line.
Proof.
  unfold re_match, ordinal_ws_re. cbn [mt].
  destruct line as [|c line]; [discriminate|].
  cbn [atom_matches]. destruct (isdigit c) eqn:E; [|discriminate].
  intros _. simpl. now rewrite (digit_not_space c E).
Qed.

(** A line whose labels a second pass returns is a settled line. *)
Lemma returned_settled (line : string) :
  (forall l, In l (label_of line) -> second l = l) -> settled_line line = true.
Proof.
  unfold label_of, settled_line.
  destruct (truthy (strip line)) eqn:Hline; cbn [negb orb]; [|reflexivity].
  destruct (first_rule standardizations line) as [r|] eqn:F.
  - intros H. specialize (H r (or_introl eq_refl)).
    destruct (String.eqb r quality_for_cost) eqn:E; [|reflexivity].
    apply String.eqb_eq in E. subst r. discriminate.
  - intros H. apply String.eqb_eq.
    destruct (re_match false ordinal_ws_re line) as [rest|] eqn:M.
    + now apply (ordinal_ws_lstrip line rest).
    + assert (C : content line = line) by (unfold content, re_sub_bol; now rewrite M).
      rewrite C in H.
      assert (T : truthy line = true).
      { destruct line; [discriminate|reflexivity]. }
      rewrite T in H. specialize (H line (or_introl eq_refl)).
      unfold second in H. now rewrite F in H.
Qed.

(** C2, as stated, fails: the label "Value: quality for cost" holds the
    keyword "cost" of the earlier pricing rule and becomes
    "Value: pricing" on a second pass; and an unmatched line with leading
    white space loses that white space on a second pass. *)
Lemma standardizer_not_idempotent :
  standardize_feedback "1. Value: worth it" = "1. Value: quality for cost"
  /\ standardize_feedback (standardize_feedback "1. Value: worth it") = "1. Value: pricing"
  /\ standardize_feedback (standardize_feedback "1. Value: worth it")
     <> standardize_feedback "1. Value: worth it"
  /\ standardize_feedback "  great staff" = "1.   great staff"
  /\ standardize_feedback (standardize_feedback "  great staff") = "1. great staff".
Proof. repeat split; try reflexivity. vm_compute. discriminate. Qed.

(** C2, amended. A second pass of the Standardizer changes nothing exactly
    on the inputs in which no line is given the label
    "Value: quality for cost" and no line that meets no rule begins with
    white space; every other canonical label is returned by a second pass
    as it is. *)
Theorem standardizer_idempotent_when_settled :
  (forall feedback_text : string,
      settled feedback_text = true <->
      standardize_feedback (standardize_feedback feedback_text)
      = standardize_feedback feedback_text)
  /\ (forall (r : string) (k : nat),
         In r (map snd standardizations) -> r <> quality_for_cost ->
         standardize_feedback (str_of_nat k ++ ". " ++ r) = "1. " ++ r).
Proof.
  split.
  - intros feedback_text.
    pose proof (lines_no_newline feedback_text) as Hnl. rewrite Forall_forall in Hnl.
    set (labels := flat_map label_of (lines feedback_text)).
    assert (Hemitted : Forall emitted labels).
    { apply Forall_forall. intros l Hl. unfold labels in Hl. apply in_flat_map in Hl.
      destruct Hl as (line & Hline & Hl). apply (label_of_emitted line l); auto. }
    assert (Hnl1 : Forall (fun l => all_chars no_newline l = true) labels).
    { revert Hemitted. apply Forall_impl. intros l [H _]. exact H. }
    assert (Hfirst : standardize_feedback feedback_text = unlines (numbered_from 1 labels)).
    { unfold standardize_feedback. now rewrite standardize_lines_numbered. }
    assert (Hsecond : standardize_feedback (standardize_feedback feedback_text)
                      = unlines (numbered_from 1 (map second labels))).
    { rewrite Hfirst. unfold standardize_feedback. rewrite standardize_lines_numbered.
      destruct labels as [|l0 labels0] eqn:E; [reflexivity|]. rewrite <- E in *.
      rewrite lines_unlines.
      - now rewrite second_labels_numbered.
      - rewrite E. discriminate.
      - now apply numbered_no_newline. }
    rewrite Hsecond, Hfirst. split.
    + intros Hset. do 2 f_equal. rewrite <- map_id. apply map_ext_in.
      intros l Hl. unfold labels in Hl. apply in_flat_map in Hl.
      destruct Hl as (line & Hline & Hl).
      unfold settled in Hset. rewrite forallb_forall in Hset.
      destruct (settled_labels line l (Hnl line Hline) (Hset line Hline) Hl) as [Hfix _].
      unfold fixed in Hfix. unfold second.
      destruct (first_rule standardizations l).
      * now apply String.eqb_eq.
      * apply andb_true_iff in Hfix. destruct Hfix as [_ Hfix]. now apply String.eqb_eq.
    + intros Heq. apply unlines_numbered_inj in Heq.
      * unfold settled. apply forallb_forall. intros line Hline.
        apply returned_settled. intros l Hl.
        assert (Hin : In l labels) by (apply in_flat_map; now exists line).
        clear - Heq Hin. revert Heq Hin. generalize labels as ls.
        induction ls as [|x ls IH]; intros Heq Hin; [contradiction|].
        simpl in Heq. injection Heq as Hx Hrest.
        destruct Hin as [<-|Hin]; [exact Hx|now apply IH].
      * clear - Hemitted. induction Hemitted as [|l ls [Hl Hne] _ IH]; constructor; [|exact IH].
        unfold second. destruct (first_rule standardizations l) as [r|] eqn:F.
        -- apply first_rule_some in F. destruct F as (p & Hin & _).
           apply (canonical_labels_emitted r). apply in_map_iff. now exists (p, r).
        -- now apply lstrip_all_chars.
      * exact Hnl1.
      * apply length_map.
  - intros r k Hin Hne. destruct (canonical_labels_fixed r Hin Hne) as [Hfix Hnl].
    unfold standardize_feedback. rewrite standardize_lines_numbered.
    rewrite split_no_sep.
    + cbn [flat_map]. rewrite (fixed_label r k Hfix). reflexivity.
    + destruct (str_of_nat_digits k) as (d & ds & -> & Hd & Hds).
      rewrite !all_chars_app. simpl. rewrite (digit_no_newline d Hd), Hnl.
      rewrite (all_chars_weaken _ _ ds digit_no_newline Hds). reflexivity.
Qed.

Lemma standardizer_idempotent_when_settled_witness :
  standardize_feedback
    (standardize_feedback ("3. Service: we had to wait" ++ nl ++ "Great patio"))
  = standardize_feedback ("3. Service: we had to wait" ++ nl ++ "Great patio")
  /\ standardize_feedback (str_of_nat 5 ++ ". " ++ "Ambiance: lighting")
     = "1. " ++ "Ambiance: lighting".
Proof.
  split.
  - apply (proj1 (proj1 standardizer_idempotent_when_settled _)). reflexivity.
  - apply (proj2 standardizer_idempotent_when_settled).
    + simpl. tauto.
    + discriminate.
Defined.

End SecondPass.

(* ================================================================== *)
(** * Counting and ranking *)
(* ================================================================== *)

Section Ranking.

Lemma counter_add_keys (c : counter) (x : string) :
  map fst (counter_add c x)
  = if mem x (map fst c) then map fst c else (map fst c ++ [x])%list.
Proof.
  induction c as [|[k n] c IH]; [reflexivity|].
  cbn [counter_add map fst]. unfold mem in *. cbn [existsb].
  rewrite (String.eqb_sym x k).
  destruct (String.eqb k x); [reflexivity|].
  cbn [map fst orb]. rewrite IH. now destruct (existsb (String.eqb x) (map fst c)).
Qed.

Lemma unique_In (x : string) (items : list string) : In x (unique items) <-> In x items.
Proof.
  induction items as [|y items IH]; simpl; [tauto|].
  rewrite filter_In, IH, negb_true_iff. split.
  - intros [H|[H _]]; auto.
  - intros [H|H]; [now left|].
    destruct (String.eqb y x) eqn:E; [left; now apply String.eqb_eq|right; now split].
Qed.

Lemma unique_NoDup (items : list string) : NoDup (unique items).
Proof.
  induction items as [|y items IH]; simpl; constructor.
  - rewrite filter_In, String.eqb_refl. intros [_ H]. discriminate.
  - now apply NoDup_filter.
Qed.

Lemma counter_keys_from (items : list string) :
  forall c : counter,
    map fst (fold_left counter_add items c)
    = (map fst c ++ filter (fun y => negb (mem y (map fst c))) (unique items))%list.
Proof.
  induction items as [|x items IH]; intros c.
  - simpl. now rewrite app_nil_r.
  - cbn [fold_left unique filter]. rewrite IH, counter_add_keys.
    destruct (mem x (map fst c)) eqn:M; cbn [negb].
    + f_equal. rewrite filter_filter. apply filter_ext_in. intros y _.
      destruct (String.eqb x y) eqn:E; [|reflexivity].
      apply String.eqb_eq in E. subst y. now rewrite M.
    + rewrite <- app_assoc. f_equal. cbn [List.app]. f_equal.
      rewrite filter_filter. apply filter_ext. intros y.
      unfold mem. rewrite existsb_app. cbn [existsb]. rewrite orb_false_r.
      rewrite (String.eqb_sym y x).
      now destruct (String.eqb x y), (existsb (String.eqb y) (map fst c)).
Qed.

Lemma counter_keys (items : list string) : map fst (Counter items) = unique items.
Proof.
  unfold Counter. rewrite counter_keys_from. simpl.
  induction (unique items) as [|y l IH]; simpl; [reflexivity|now rewrite IH].
Qed.

Lemma weight_lookup (k : string) (n : nat) (c : counter) :
  NoDup (map fst c) -> In (k, n) c -> weight (String.eqb k) c = n.
Proof.
  induction c as [|[k0 n0] c IH]; intros ND Hin; [contradiction|].
  simpl in ND. apply NoDup_cons_iff in ND. destruct ND as [Hk0 ND].
  cbn [weight fold_right fst snd]. fold (weight (String.eqb k) c).
  destruct Hin as [E|Hin].
  - injection E as -> ->. rewrite String.eqb_refl.
    assert (W : weight (String.eqb k) c = 0).
    { clear - Hk0. induction c as [|[k1 n1] c IH]; [reflexivity|].
      cbn [weight fold_right fst snd]. fold (weight (String.eqb k) c).
      destruct (String.eqb k k1) eqn:E.
      - apply String.eqb_eq in E. subst. exfalso. apply Hk0. now left.
      - rewrite IH; [reflexivity|]. intros H. apply Hk0. now right. }
    lia.
  - destruct (String.eqb k k0) eqn:E.
    + apply String.eqb_eq in E. subst k0. exfalso. apply Hk0.
      apply in_map_iff. now exists (k, n).
    + now apply IH.
Qed.

Lemma weight_all (c : counter) : weight (fun _ => true) c = sum_values c.
Proof. reflexivity. Qed.

(** X1. The counter holds the distinct labels in the order they were first
    seen, each with the number of its occurrences; the counts add up to the
    number of labels counted. *)
Theorem counter_counts_occurrences (items : list string) :
  map fst (Counter items) = unique items
  /\ NoDup (map fst (Counter items))
  /\ (forall label, In label (map fst (Counter items)) <-> In label items)
  /\ (forall label n, In (label, n) (Counter items) ->
                      n = occurrences label items /\ 1 <= n)
  /\ sum_values (Counter items) = List.length items.
Proof.
  assert (K := counter_keys items).
  split; [exact K|].
  split; [rewrite K; apply unique_NoDup|].
  split; [intros label; rewrite K; apply unique_In|].
  split.
  - intros label n Hin.
    assert (E : n = occurrences label items).
    { rewrite <- (weight_lookup label n (Counter items)); [|rewrite K; apply unique_NoDup|exact Hin].
      unfold Counter. now rewrite Counter_weight. }
    split; [exact E|].
    assert (Hl : In label items).
    { apply unique_In. rewrite <- K. apply in_map_iff. now exists (label, n). }
    rewrite E. unfold occurrences. clear - Hl.
    induction items as [|x items IH]; [contradiction|]. simpl.
    destruct Hl as [->|Hl].
    + rewrite String.eqb_refl. simpl. lia.
    + specialize (IH Hl). destruct (String.eqb label x); simpl; lia.
  - rewrite <- weight_all. unfold Counter. rewrite Counter_weight. simpl.
    clear. induction items; simpl; congruence.
Qed.

Lemma counter_counts_occurrences_witness :
  1 <= 2 /\ 2 = occurrences "Service: speed" ["Service: speed"; "Value: pricing"; "Service: speed"].
Proof.
  destruct (counter_counts_occurrences ["Service: speed"; "Value: pricing"; "Service: speed"])
    as (_ & _ & _ & H & _).
  destruct (H "Service: speed" 2) as [E P]; [vm_compute; now left|].
  split; [exact P|exact E].
Defined.

Lemma insert_desc_descending (x : string * nat) (l : list (string * nat)) :
  descending l -> descending (insert_desc x l).
Proof.
  unfold descending. induction 1 as [|y l Hl IH Hy]; simpl.
  - repeat constructor.
  - destruct (snd x <? snd y) eqn:E.
    + constructor; [exact IH|].
      apply Nat.ltb_lt in E.
      rewrite Forall_forall in *. intros z Hz.
      apply (Permutation_in _ (insert_desc_perm x l)) in Hz.
      destruct Hz as [<-|Hz]; [lia|now apply Hy].
    + apply Nat.ltb_ge in E. constructor; [now constructor|].
      constructor; [exact E|].
      rewrite Forall_forall in *. intros z Hz. specialize (Hy z Hz). lia.
Qed.

Lemma sorted_desc_descending (c : list (string * nat)) : descending (sorted_desc c).
Proof.
  induction c as [|x c IH]; simpl; [constructor|].
  now apply insert_desc_descending.
Qed.

Lemma insert_desc_stable (n : nat) (x : string * nat) (l : list (string * nat)) :
  with_count n (insert_desc x l) = with_count n (x :: l).
Proof.
  unfold with_count. induction l as [|y l IH]; [reflexivity|].
  cbn [insert_desc]. destruct (snd x <? snd y) eqn:E; [|reflexivity].
  apply Nat.ltb_lt in E. cbn [filter] in *. rewrite IH.
  destruct (snd x =? n) eqn:Ex, (snd y =? n) eqn:Ey; try reflexivity.
  apply Nat.eqb_eq in Ex, Ey. lia.
Qed.

Lemma sorted_desc_stable (n : nat) (c : list (string * nat)) :
  with_count n (sorted_desc c) = with_count n c.
Proof.
  induction c as [|x c IH]; [reflexivity|].
  cbn [sorted_desc fold_right]. fold (sorted_desc c).
  rewrite insert_desc_stable. unfold with_count in *. cbn [filter]. now rewrite IH.
Qed.

Lemma descending_split (l : list (string * nat)) (n : nat) :
  descending l ->
  descending (firstn n l)
  /\ forall p q, In p (firstn n l) -> In q (skipn n l) -> snd q <= snd p.
Proof.
  unfold descending. intros H. revert n.
  induction H as [|y l Hl IH Hy]; intros n.
  - rewrite firstn_nil, skipn_nil. split; [constructor|intros p q []].
  - destruct n as [|n]; [split; [constructor|intros p q []]|].
    destruct (IH n) as [IH1 IH2]. cbn [firstn skipn]. split.
    + constructor; [exact IH1|].
      rewrite Forall_forall in *. intros z Hz. apply Hy. revert Hz. apply In_firstn.
    + intros p q [<-|Hp] Hq.
      * rewrite Forall_forall in Hy. apply Hy.
        rewrite <- (firstn_skipn n l). apply in_or_app. now right.
      * now apply IH2.
Qed.

(** X2. [most_common n] returns the [n] entries with the largest counts
    (all of them when there are fewer), from the largest count down, and
    entries with equal counts stay in the order the counter holds them. *)
Theorem most_common_ranks (n : nat) (c : counter) :
  exists rest : list (string * nat),
    Permutation (most_common n c ++ rest) c
    /\ List.length (most_common n c) = Nat.min n (List.length c)
    /\ descending (most_common n c)
    /\ (forall p q, In p (most_common n c) -> In q rest -> snd q <= snd p)
    /\ (forall k, (with_count k (most_common n c) ++ with_count k rest)%list = with_count k c).
Proof.
  exists (skipn n (sorted_desc c)). unfold most_common.
  destruct (descending_split (sorted_desc c) n (sorted_desc_descending c)) as [D1 D2].
  split; [rewrite firstn_skipn; apply sorted_desc_perm|].
  split.
  { rewrite length_firstn. now rewrite (Permutation_length (sorted_desc_perm c)). }
  split; [exact D1|].
  split; [exact D2|].
  intros k. unfold with_count. rewrite <- filter_app, firstn_skipn.
  apply sorted_desc_stable.
Qed.

Lemma most_common_ranks_witness :
  exists rest : list (string * nat),
    Permutation (most_common 1 [("a", 1); ("b", 3)] ++ rest) [("a", 1); ("b", 3)]
    /\ descending (most_common 1 [("a", 1); ("b", 3)]).
Proof.
  destruct (most_common_ranks 1 [("a", 1); ("b", 3)]) as (rest & P & _ & D & _).
  exists rest. split; [exact P|exact D].
Defined.

End Ranking.

(* ================================================================== *)
(** * Category totals and the business report *)
(* ================================================================== *)

Section CategoryTotals.

Lemma startswith_head (category main_cat : string) (a : ascii) (rest : string) :
  main_cat = String a rest ->
  startswith category main_cat = true ->
  exists t, category = String a t.
Proof.
  intros -> H. unfold startswith in H. destruct category as [|c t]; [discriminate|].
  cbn [String.prefix] in H. destruct (ascii_dec a c) as [->|]; [|discriminate].
  now exists t.
Qed.

(** No label opens with two of the five categories. *)
Lemma main_categories_exclusive (category m m' : string) :
  In m main_categories -> In m' main_categories ->
  startswith category m = true -> startswith category m' = true -> m = m'.
Proof.
  unfold main_categories. cbn [In]. intros Hm Hm' S S'.
  repeat (destruct Hm as [<-|Hm]); try contradiction;
    repeat (destruct Hm' as [<-|Hm']); try contradiction; try reflexivity;
    destruct (startswith_head _ _ _ _ eq_refl S) as [t ->];
    destruct (startswith_head _ _ _ _ eq_refl S') as [t' E]; discriminate.
Qed.

Lemma bump_tally (keys : list string) (f : string -> nat) (category : string) (count : nat) :
  NoDup keys ->
  (forall m m', In m keys -> In m' keys ->
                startswith category m = true -> startswith category m' = true -> m = m') ->
  bump (tally keys f) category count
  = tally keys (fun m => f m + if startswith category m then count else 0).
Proof.
  unfold tally. induction keys as [|m keys IH]; intros ND Hex; [reflexivity|].
  apply NoDup_cons_iff in ND. destruct ND as [Hm ND].
  cbn [map bump]. destruct (startswith category m) eqn:E.
  - f_equal. apply map_ext_in. intros m' Hm'.
    destruct (startswith category m') eqn:E'; [|now rewrite Nat.add_0_r].
    exfalso. apply Hm. rewrite (Hex m m'); auto; [now left|now right].
  - rewrite Nat.add_0_r. f_equal. apply IH; [exact ND|].
    intros a b Ha Hb. apply Hex; now right.
Qed.

Lemma summarize_tally (c : counter) :
  forall f : string -> nat,
    fold_left (fun s item => bump s (fst item) (snd item)) c (tally main_categories f)
    = tally main_categories (fun m => f m + weight (fun l => startswith l m) c).
Proof.
  induction c as [|[k n] c IH]; intros f.
  - cbn [fold_left]. unfold tally. apply map_ext. intros m.
    cbn [weight fold_right]. now rewrite Nat.add_0_r.
  - cbn [fold_left fst snd]. rewrite bump_tally.
    + rewrite IH. unfold tally. apply map_ext. intros m.
      cbn [weight fold_right fst snd]. fold (weight (fun l => startswith l m) c).
      f_equal. lia.
    + unfold main_categories. repeat constructor; simpl; intuition discriminate.
    + intros m m'. apply main_categories_exclusive.
Qed.

(** X3. The category summary always lists the five categories in their
    fixed order, and the total of a category is the number of aggregated
    labels that open with its name; labels that open with none of them
    are counted nowhere. *)
Theorem summary_counts_by_category (labels : list string) :
  summarize (Counter labels) = tally main_categories (fun m => under m labels).
Proof.
  unfold summarize. change (map (fun c => (c, 0)) main_categories)
    with (tally main_categories (fun _ => 0)).
  rewrite summarize_tally. unfold tally. apply map_ext. intros m.
  unfold Counter. rewrite Counter_weight. reflexivity.
Qed.

Lemma recommend_loop_issues (recommend : recommender) (n : nat)
    (issues : list (string * nat)) :
  forall call : nat,
    map rec_issue (recommend_loop recommend call n issues) = map fst issues.
Proof.
  induction issues as [|[issue count] issues IH]; intros call; simpl; [reflexivity|].
  now rewrite IH.
Qed.

(** X4. [analyze_business_reviews] gives up exactly when the id is empty
    or no review carries it; otherwise the report counts at least one
    review, ranks at most ten issues, namely the ten most common labels,
    and recommends on the first five of them, in rank order. *)
Theorem report_shape (generate : model) (recommend : recommender)
    (df : list review) (business : string) :
  (analyze_business_reviews generate recommend df business = None
   <-> business = "" \/ business_rows df business = [])
  /\ (forall rep,
         analyze_business_reviews generate recommend df business = Some rep ->
         1 <= total_reviews rep
         /\ top_issues rep = most_common 10 (Counter (aggregated_labels generate df business))
         /\ List.length (top_issues rep) <= 10
         /\ map rec_issue (recommendations rep) = map fst (firstn 5 (top_issues rep))
         /\ List.length (recommendations rep) = Nat.min 5 (List.length (top_issues rep))).
Proof.
  unfold analyze_business_reviews. fold (business_rows df business).
  fold (aggregated_labels generate df business).
  destruct business as [|b0 business'] eqn:Eb; cbn [truthy negb].
  - split; [split; auto|discriminate].
  - rewrite <- Eb.
    destruct (business_rows df business) as [|r rows] eqn:Er; cbn [List.length Nat.eqb].
    + split; [split; auto|discriminate].
    + split.
      * split; [discriminate|]. intros [H|H]; [subst; discriminate|discriminate].
      * intros rep H. injection H as <-.
        cbn [total_reviews top_issues recommendations].
        split; [lia|]. split; [reflexivity|].
        split; [unfold most_common; rewrite length_firstn; lia|].
        split; [apply recommend_loop_issues|].
        rewrite <- (length_map rec_issue), recommend_loop_issues, length_map.
        exact (length_firstn 5
                 (most_common 10 (Counter (aggregated_labels generate df business)))).
Qed.

Lemma band_partition (rows : list review) :
  count_rows (fun r => (4 <=? stars_review r)%Z) rows
  + count_rows (fun r => (stars_review r <=? 2)%Z) rows
  + count_rows (fun r => (stars_review r =? 3)%Z) rows
  = List.length rows.
Proof.
  unfold count_rows. induction rows as [|r rows IH]; [reflexivity|].
  cbn [filter List.length].
  destruct (4 <=? stars_review r)%Z eqn:E1, (stars_review r <=? 2)%Z eqn:E2,
           (stars_review r =? 3)%Z eqn:E3; cbn [List.length];
    try lia;
    rewrite ?Z.leb_le, ?Z.leb_gt, ?Z.eqb_eq, ?Z.eqb_neq in *; lia.
Qed.

(** X5. With whole-number star ratings the three rating bands (4 and
    above, 2 and below, exactly 3) count every review of the business
    once: their sizes add up to the number of reviews. *)
Theorem rating_bands_partition (generate : model) (recommend : recommender)
    (df : list review) (business : string) (rep : report) :
  analyze_business_reviews generate recommend df business = Some rep ->
  fst (positive rep) + fst (negative rep) + fst (neutral rep) = total_reviews rep.
Proof.
  unfold analyze_business_reviews.
  destruct (negb (truthy business)); [discriminate|].
  destruct (List.length _ =? 0); [discriminate|].
  intros H. injection H as <-. cbn [positive negative neutral total_reviews fst].
  apply band_partition.
Qed.

Lemma rating_bands_partition_witness :
  exists rep : report,
    analyze_business_reviews two_point_model silent_recommender one_review "b1" = Some rep
    /\ fst (positive rep) + fst (negative rep) + fst (neutral rep) = total_reviews rep.
Proof.
  eexists. split; [reflexivity|].
  apply (rating_bands_partition two_point_model silent_recommender one_review "b1").
  reflexivity.
Defined.

End CategoryTotals.

Lemma report_shape_witness :
  exists rep : report,
    analyze_business_reviews two_point_model silent_recommender one_review "b1" = Some rep
    /\ 1 <= total_reviews rep
    /\ List.length (top_issues rep) <= 10.
Proof.
  eexists. split; [reflexivity|].
  destruct (proj2 (report_shape two_point_model silent_recommender one_review "b1")
              _ eq_refl) as (H1 & _ & H3 & _).
  split; [exact H1|exact H3].
Defined.

(* ================================================================== *)
(** * The batch summary *)
(* ================================================================== *)

Section BatchSummary.

Lemma batch_loop_ids (generate : model) (df : list review) (ids : list string) :
  forall call : nat, map row_business_id (batch_loop generate call df ids) = ids.
Proof.
  induction ids as [|id ids IH]; intros call; [reflexivity|].
  cbn [batch_loop map]. now rewrite IH.
Qed.

Lemma batch_loop_totals (generate : model) (df : list review) (ids : list string) :
  forall call : nat,
    map row_total_reviews (batch_loop generate call df ids)
    = map (fun id => List.length (business_rows df id)) ids.
Proof.
  induction ids as [|id ids IH]; intros call; [reflexivity|].
  cbn [batch_loop map]. now rewrite IH.
Qed.

Lemma indicator_sum (x : string) (ids : list string) :
  NoDup ids -> In x ids ->
  fold_right Nat.add 0 (map (fun id => if String.eqb x id then 1 else 0) ids) = 1.
Proof.
  induction ids as [|id ids IH]; intros ND Hin; [contradiction|].
  apply NoDup_cons_iff in ND. destruct ND as [Hid ND]. cbn [map fold_right].
  destruct Hin as [->|Hin].
  - rewrite String.eqb_refl.
    assert (Z : fold_right Nat.add 0 (map (fun id => if String.eqb x id then 1 else 0) ids) = 0).
    { clear - Hid. induction ids as [|y ids IH]; [reflexivity|]. cbn [map fold_right].
      destruct (String.eqb x y) eqn:E.
      - apply String.eqb_eq in E. subst. exfalso. apply Hid. now left.
      - rewrite IH; [reflexivity|]. intros H. apply Hid. now right. }
    lia.
  - destruct (String.eqb x id) eqn:E.
    + apply String.eqb_eq in E. subst. contradiction.
    + now rewrite IH.
Qed.

(** Grouping rows by a duplicate-free list of ids that covers them loses
    and repeats no row. *)
Lemma groups_cover (df : list review) (ids : list string) :
  NoDup ids ->
  (forall r, In r df -> In (business_id r) ids) ->
  fold_right Nat.add 0 (map (fun id => List.length (business_rows df id)) ids)
  = List.length df.
Proof.
  intros ND. induction df as [|r df IH]; intros Hcov.
  - clear. induction ids as [|id ids IHi]; [reflexivity|exact IHi].
  - assert (E : fold_right Nat.add 0
                  (map (fun id => List.length (business_rows (r :: df) id)) ids)
                = fold_right Nat.add 0
                    (map (fun id => if String.eqb (business_id r) id then 1 else 0) ids)
                  + fold_right Nat.add 0
                      (map (fun id => List.length (business_rows df id)) ids)).
    { clear. induction ids as [|id ids IHi]; [reflexivity|].
      cbn [map fold_right]. rewrite IHi. unfold business_rows at 1 3. cbn [filter].
      destruct (String.eqb (business_id r) id); cbn [List.length]; lia. }
    rewrite E, (indicator_sum (business_id r) ids ND) by (apply Hcov; now left).
    rewrite IH by (intros r' H; apply Hcov; now right). reflexivity.
Qed.

(** X6. The batch summary has one row per business id of the frame, in
    order of first appearance and without repetition; every row counts at
    least one review, and the review counts of the rows add up to the
    number of reviews in the frame. *)
Theorem batch_rows_cover_frame (generate : model) (df : list review) :
  map row_business_id (process_all_businesses generate df) = unique (map business_id df)
  /\ NoDup (map row_business_id (process_all_businesses generate df))
  /\ (forall r, In r df ->
                In (business_id r) (map row_business_id (process_all_businesses generate df)))
  /\ Forall (fun row => 1 <= row_total_reviews row) (process_all_businesses generate df)
  /\ fold_right Nat.add 0 (map row_total_reviews (process_all_businesses generate df))
     = List.length df.
Proof.
  unfold process_all_businesses.
  assert (Hids := batch_loop_ids generate df (unique (map business_id df)) 0).
  assert (Htot := batch_loop_totals generate df (unique (map business_id df)) 0).
  split; [exact Hids|].
  split; [rewrite Hids; apply unique_NoDup|].
  split; [intros r Hr; rewrite Hids; apply unique_In; now apply in_map|].
  split.
  - apply Forall_forall. intros row Hrow.
    assert (Hin : In (row_total_reviews row)
                     (map row_total_reviews
                        (batch_loop generate 0 df (unique (map business_id df)))))
      by now apply in_map.
    rewrite Htot in Hin. apply in_map_iff in Hin. destruct Hin as (id & <- & Hid).
    apply unique_In, in_map_iff in Hid. destruct Hid as (r & <- & Hr).
    assert (Hrow' : In r (business_rows df (business_id r))).
    { unfold business_rows. apply filter_In. split; [exact Hr|apply String.eqb_refl]. }
    destruct (business_rows df (business_id r)); [contradiction|simpl; lia].
  - rewrite Htot. apply groups_cover; [apply unique_NoDup|].
    intros r Hr. apply unique_In. now apply in_map.
Qed.

Lemma counter_add_positive (c : counter) (x : string) :
  Forall (fun p => 1 <= snd p) c -> Forall (fun p => 1 <= snd p) (counter_add c x).
Proof.
  induction 1 as [|[k n] c Hp Hc IH]; simpl.
  - repeat constructor.
  - destruct (String.eqb k x); constructor; try assumption; simpl in *; lia.
Qed.

Lemma counter_positive (items : list string) : Forall (fun p => 1 <= snd p) (Counter items).
Proof.
  unfold Counter. generalize (@Forall_nil _ (fun p : string * nat => 1 <= snd p)).
  generalize (@nil (string * nat)).
  induction items as [|x items IH]; intros c Hc; simpl; [exact Hc|].
  apply IH. now apply counter_add_positive.
Qed.

Lemma slot_filled (top : list (string * nat)) (i : nat) :
  Forall (fun p => 1 <= snd p) top ->
  (snd (slot top i) = 0 <-> List.length top <= i)
  /\ (List.length top <= i -> slot top i = (EmptyString, 0)).
Proof.
  intros Hpos. unfold slot. destruct (nth_error top i) as [p|] eqn:E.
  - assert (Hi : i < List.length top) by (apply nth_error_Some; congruence).
    apply nth_error_In in E. rewrite Forall_forall in Hpos. specialize (Hpos p E).
    split; [split|]; lia.
  - apply nth_error_None in E. split; [split|]; auto.
Qed.

Lemma slot_descending (top : list (string * nat)) (i : nat) :
  descending top -> snd (slot top (S i)) <= snd (slot top i).
Proof.
  unfold descending, slot. intros H. revert i.
  induction H as [|p top Hs IH Hp]; intros i.
  - destruct i; simpl; lia.
  - destruct i as [|i].
    + cbn [nth_error]. destruct top as [|q top]; cbn [nth_error snd]; [lia|].
      rewrite Forall_forall in Hp. apply Hp. now left.
    + apply (IH i).
Qed.

Lemma summarize_business_slots (generate : model) (call : nat) (df : list review)
    (biz_id : string) :
  let row := summarize_business generate call df biz_id in
  let labels := collect_loop generate call (business_rows df biz_id) [] in
  top_issue_3_count row <= top_issue_2_count row
  /\ top_issue_2_count row <= top_issue_1_count row
  /\ (top_issue_1_count row = 0 <-> List.length (unique labels) <= 0)
  /\ (top_issue_2_count row = 0 <-> List.length (unique labels) <= 1)
  /\ (top_issue_3_count row = 0 <-> List.length (unique labels) <= 2)
  /\ (top_issue_1_count row = 0 -> top_issue_1 row = "")
  /\ (top_issue_2_count row = 0 -> top_issue_2 row = "")
  /\ (top_issue_3_count row = 0 -> top_issue_3 row = "").
Proof.
  intros row labels. subst row. unfold summarize_business.
  fold (business_rows df biz_id). fold labels.
  cbn [top_issue_1 top_issue_1_count top_issue_2 top_issue_2_count
       top_issue_3 top_issue_3_count].
  set (top := most_common 5 (Counter labels)).
  assert (Hdesc : descending top).
  { unfold top, most_common.
    apply (descending_split (sorted_desc (Counter labels)) 5), sorted_desc_descending. }
  assert (Hpos : Forall (fun p => 1 <= snd p) top).
  { apply Forall_forall. intros p Hp. unfold top, most_common in Hp.
    apply In_firstn in Hp. apply (Permutation_in _ (sorted_desc_perm _)) in Hp.
    pose proof (counter_positive labels) as F. rewrite Forall_forall in F. now apply F. }
  assert (Hlen : List.length top = Nat.min 5 (List.length (unique labels))).
  { unfold top, most_common. rewrite length_firstn.
    rewrite (Permutation_length (sorted_desc_perm _)).
    now rewrite <- (length_map fst), counter_keys. }
  split; [apply slot_descending, Hdesc|].
  split; [apply slot_descending, Hdesc|].
  destruct (slot_filled top 0 Hpos) as [A0 B0], (slot_filled top 1 Hpos) as [A1 B1],
           (slot_filled top 2 Hpos) as [A2 B2].
  rewrite A0, A1, A2, Hlen.
  repeat split; try lia.
  - intros H. rewrite B0; [reflexivity|lia].
  - intros H. rewrite B1; [reflexivity|lia].
  - intros H. rewrite B2; [reflexivity|lia].
Qed.

Lemma batch_loop_rows (generate : model) (df : list review) (ids : list string)
    (row : summary_row) :
  forall call : nat,
    In row (batch_loop generate call df ids) ->
    exists call' id, In id ids /\ row = summarize_business generate call' df id.
Proof.
  induction ids as [|id ids IH]; intros call; [intros []|].
  cbn [batch_loop]. intros [<-|H].
  - exists call, id. split; [now left|reflexivity].
  - destruct (IH _ H) as (call' & id' & Hin & E). exists call', id'. split; [now right|exact E].
Qed.

(** X7. In every row of the batch summary the three issue counts never
    increase from slot 1 to slot 3; a slot holds the placeholder (empty
    label, count 0) exactly when the business has fewer distinct labels
    than the slot's rank. *)
Theorem batch_slots_ranked (generate : model) (df : list review) (row : summary_row) :
  In row (process_all_businesses generate df) ->
  exists call : nat,
    let labels := collect_loop generate call (business_rows df (row_business_id row)) [] in
    top_issue_3_count row <= top_issue_2_count row
    /\ top_issue_2_count row <= top_issue_1_count row
    /\ (top_issue_1_count row = 0 <-> List.length (unique labels) <= 0)
    /\ (top_issue_2_count row = 0 <-> List.length (unique labels) <= 1)
    /\ (top_issue_3_count row = 0 <-> List.length (unique labels) <= 2)
    /\ (top_issue_1_count row = 0 -> top_issue_1 row = "")
    /\ (top_issue_2_count row = 0 -> top_issue_2 row = "")
    /\ (top_issue_3_count row = 0 -> top_issue_3 row = "").
Proof.
  intros H. unfold process_all_businesses in H.
  apply batch_loop_rows in H. destruct H as (call & id & _ & ->).
  exists call. apply summarize_business_slots.
Qed.

Lemma batch_slots_ranked_witness :
  exists (row : summary_row) (call : nat),
    In row (process_all_businesses two_point_model one_review)
    /\ top_issue_3_count row <= top_issue_2_count row
    /\ top_issue_2_count row <= top_issue_1_count row.
Proof.
  eexists.
  destruct (batch_slots_ranked two_point_model one_review _ (or_introl eq_refl))
    as (call & H3 & H2 & _).
  exists call. split; [now left|]. split; [exact H3|exact H2].
Defined.

End BatchSummary.

(* ================================================================== *)
(** * The Standardizer on any input *)
(* ================================================================== *)

Section StandardizerAtLarge.

Lemma label_of_length (line : string) :
  List.length (label_of line) <= if nonblank line then 1 else 0.
Proof.
  unfold label_of, nonblank. destruct (truthy (strip line)); cbn [negb]; [|auto].
  destruct (first_rule standardizations line); [auto|].
  destruct (truthy (content line)); simpl; auto.
Qed.

Lemma flat_map_label_bound (ls : list string) :
  List.length (flat_map label_of ls) <= List.length (filter nonblank ls).
Proof.
  induction ls as [|l ls IH]; [auto|].
  cbn [flat_map filter]. rewrite length_app.
  pose proof (label_of_length l) as H.
  destruct (nonblank l); cbn [List.length]; lia.
Qed.

Lemma label_of_origin (line l : string) :
  In l (label_of line) ->
  nonblank line = true
  /\ ((first_rule standardizations line = Some l /\ canonical l)
      \/ (first_rule standardizations line = None /\ l = content line /\ l <> "")).
Proof.
  unfold label_of, nonblank. destruct (truthy (strip line)); cbn [negb]; [|intros []].
  destruct (first_rule standardizations line) as [r|] eqn:F.
  - intros [<-|[]]. split; [reflexivity|]. left. split; [reflexivity|].
    apply first_rule_some in F. destruct F as (p & Hin & _).
    apply in_map_iff. now exists (p, r).
  - destruct (truthy (content line)) eqn:T; [|intros []].
    intros [<-|[]]. split; [reflexivity|]. right. repeat split.
    intros E. rewrite E in T. discriminate.
Qed.

(** X8. For every input the Standardizer numbers its output lines
    1, 2, ..., m without gaps; it emits at most one line per non-blank
    input line, and after the ordinal each output line carries either a
    canonical label (when some rule found the line) or the line's own text
    without its leading ordinal (when none did). *)
Theorem standardizer_output_shape (feedback_text : string) :
  exists labels : list string,
    standardize_lines feedback_text = numbered_from 1 labels
    /\ List.length labels <= List.length (filter nonblank (lines feedback_text))
    /\ (forall l, In l labels ->
          exists line, In line (lines feedback_text) /\ nonblank line = true
            /\ ((first_rule standardizations line = Some l /\ canonical l)
                \/ (first_rule standardizations line = None
                    /\ l = content line /\ l <> ""))).
Proof.
  exists (flat_map label_of (lines feedback_text)).
  split; [apply standardize_lines_numbered|].
  split; [apply flat_map_label_bound|].
  intros l Hl. apply in_flat_map in Hl. destruct Hl as (line & Hline & Hl).
  exists line. split; [exact Hline|]. now apply label_of_origin.
Qed.

Lemma numbered_nonblank (labels : list string) :
  forall k : nat, filter nonblank (numbered_from k labels) = numbered_from k labels.
Proof.
  induction labels as [|l labels IH]; intros k; [reflexivity|].
  cbn [numbered_from filter].
  destruct (str_of_nat_digits k) as (d & ds & E & Hd & _). rewrite E.
  unfold nonblank at 1. cbn [append].
  destruct (strip_head d (ds ++ String "." (String " " l)) (digit_not_space d Hd))
    as [s' ->].
  cbn [truthy]. now rewrite IH.
Qed.

(** Numbered lines of emitted labels survive joining and splitting. *)
Lemma numbered_lines_split_back (labels : list string) :
  Forall emitted labels ->
  feedback_lines (unlines (numbered_from 1 labels)) = numbered_from 1 labels.
Proof.
  intros H. unfold feedback_lines.
  destruct labels as [|l0 labels0] eqn:E; [reflexivity|]. rewrite <- E in *.
  rewrite lines_unlines.
  - apply numbered_nonblank.
  - rewrite E. discriminate.
  - apply numbered_no_newline. revert H. apply Forall_impl. intros l [Hl _]. exact Hl.
Qed.

Lemma labels_emitted (feedback_text : string) :
  Forall emitted (flat_map label_of (lines feedback_text)).
Proof.
  apply Forall_forall. intros l Hl. apply in_flat_map in Hl.
  destruct Hl as (line & Hline & Hl).
  pose proof (lines_no_newline feedback_text) as Hnl. rewrite Forall_forall in Hnl.
  apply (label_of_emitted line l (Hnl line Hline) Hl).
Qed.

(** X9. Splitting the Standardizer's output at line breaks and dropping
    blank lines, as the callers do, gives back exactly the lines it
    emitted: no emitted line is blank or holds a line break. *)
Theorem standardizer_output_splits_back (feedback_text : string) :
  feedback_lines (standardize_feedback feedback_text) = standardize_lines feedback_text.
Proof.
  unfold standardize_feedback.
  rewrite (standardize_lines_numbered feedback_text).
  apply numbered_lines_split_back, labels_emitted.
Qed.

Lemma lower_char_idem (c : ascii) : lower_char (lower_char c) = lower_char c.
Proof. each_char c. Qed.

Lemma lower_char_newline (c : ascii) :
  Ascii.eqb (lower_char c) newline = Ascii.eqb c newline.
Proof. each_char c. Qed.

Lemma lower_char_digit (c : ascii) : isdigit (lower_char c) = isdigit c.
Proof. each_char c. Qed.

Lemma lower_char_space (c : ascii) : isspace (lower_char c) = isspace c.
Proof. each_char c. Qed.

Lemma atom_matches_lower (a : atom) (c : ascii) :
  atom_matches true a (lower_char c) = atom_matches true a c.
Proof.
  destruct a; cbn [atom_matches].
  - now rewrite lower_char_idem.
  - now rewrite lower_char_newline.
  - apply lower_char_digit.
  - apply lower_char_space.
Qed.

Lemma is_some_orelse {A : Type} (o o' : option A) :
  is_some (match o with Some x => Some x | None => o' end) = is_some o || is_some o'.
Proof. now destruct o. Qed.

Lemma greedy_lower (a : atom) (s : string) :
  forall k k', agree k k' ->
    is_some (greedy true a s k) = is_some (greedy true a (lower s) k').
Proof.
  induction s as [|c s IH]; intros k k' Hk.
  - apply (Hk "").
  - cbn [lower greedy]. rewrite atom_matches_lower.
    destruct (atom_matches true a c).
    + rewrite !is_some_orelse, (IH k k' Hk). f_equal. apply (Hk (String c s)).
    + apply (Hk (String c s)).
Qed.

Lemma lazy_lower (a : atom) (s : string) :
  forall k k', agree k k' ->
    is_some (lazy true a s k) = is_some (lazy true a (lower s) k').
Proof.
  induction s as [|c s IH]; intros k k' Hk.
  - cbn [lower lazy]. pose proof (Hk "") as H. cbn [lower] in H.
    destruct (k ""), (k' ""); cbn [is_some] in *; congruence.
  - cbn [lower lazy]. rewrite atom_matches_lower.
    pose proof (Hk (String c s)) as H. cbn [lower] in H.
    destruct (k (String c s)), (k' (String (lower_char c) (lower s)));
      cbn [is_some] in *; try congruence.
    destruct (atom_matches true a c); [now apply IH|reflexivity].
Qed.

Lemma mt_lower (r : regex) :
  forall s k k', agree k k' ->
    is_some (mt true r s k) = is_some (mt true r (lower s) k').
Proof.
  induction r as [|a|a|a|a|r1 IH1 r2 IH2|r1 IH1 r2 IH2]; intros s k k' Hk; cbn [mt].
  - apply Hk.
  - destruct s as [|c s]; [reflexivity|]. cbn [lower]. rewrite atom_matches_lower.
    destruct (atom_matches true a c); [apply Hk|reflexivity].
  - now apply greedy_lower.
  - now apply lazy_lower.
  - destruct s as [|c s]; [reflexivity|]. cbn [lower]. rewrite atom_matches_lower.
    destruct (atom_matches true a c); [now apply greedy_lower|reflexivity].
  - apply IH1. intros t. now apply IH2.
  - rewrite !is_some_orelse. now rewrite (IH1 s k k' Hk), (IH2 s k k' Hk).
Qed.

Lemma re_search_lower (r : regex) (s : string) :
  re_search true r (lower s) = re_search true r s.
Proof.
  assert (M : forall t, is_some (re_match true r t) = is_some (re_match true r (lower t))).
  { intros t. unfold re_match. apply mt_lower. intros u. reflexivity. }
  induction s as [|c s IH].
  - reflexivity.
  - cbn [lower re_search]. specialize (M (String c s)). cbn [lower] in M.
    destruct (re_match true r (String c s)),
             (re_match true r (String (lower_char c) (lower s)));
      cbn [is_some] in M; congruence.
Qed.

Lemma first_rule_lower (rules : list (regex * string)) (line : string) :
  first_rule rules (lower line) = first_rule rules line.
Proof.
  induction rules as [|[p r] rules IH]; [reflexivity|].
  cbn [first_rule]. now rewrite re_search_lower, IH.
Qed.

Lemma lower_fold_ascii (c : ascii) : lower_char (fold_ascii c) = lower_char c.
Proof. each_char c. Qed.

Lemma lower_fold_ascii_case (s : string) : lower (fold_ascii_case s) = lower s.
Proof.
  induction s as [|c s IH]; [reflexivity|].
  cbn [fold_ascii_case lower]. now rewrite lower_fold_ascii, IH.
Qed.

(** X10. Rule matching ignores the case of ASCII letters: two lines that
    differ only in the case of letters A to Z are found by the same rule
    (or by none), so a line matched by a rule gets the same canonical
    label however its ASCII letters are capitalised. *)
Theorem rules_ignore_case (line line' : string) :
  fold_ascii_case line = fold_ascii_case line' ->
  first_rule standardizations line = first_rule standardizations line'.
Proof.
  intros E.
  rewrite <- (first_rule_lower _ line), <- (first_rule_lower _ line').
  rewrite <- (lower_fold_ascii_case line), <- (lower_fold_ascii_case line').
  now rewrite E.
Qed.

Lemma rules_ignore_case_witness :
  first_rule standardizations "1. SERVICE: Very SLOW"
  = first_rule standardizations "1. service: very slow".
Proof. apply rules_ignore_case. reflexivity. Defined.

(** The label of a line that opens with an ordinal, whatever the ordinal. *)
Lemma label_of_ordinal_line (d : ascii) (ds body : string) :
  isdigit d = true -> all_chars isdigit ds = true ->
  label_of (String d (ds ++ String "." body))
  = match first_rule standardizations body with
    | Some r => [r]
    | None => if truthy (lstrip body) then [lstrip body] else []
    end.
Proof.
  intros Hd Hds. unfold label_of.
  destruct (strip_head d (ds ++ String "." body) (digit_not_space d Hd)) as [s' ->].
  cbn [truthy negb].
  replace (String d (ds ++ String "." body))
    with ((String d ds ++ ".") ++ body) at 1 by (simpl; now rewrite <- append_assoc).
  rewrite first_rule_skip.
  - unfold content, re_sub_bol. now rewrite ordinal_ws_numbered.
  - rewrite all_chars_app. apply andb_true_iff. split; [|reflexivity].
    apply digits_plain. simpl. now rewrite Hd.
Qed.

(** X11. The ordinal a line arrives with is discarded: two lines with the
    same text after "<digits>." contribute the same label and are given
    the same new number, whatever their original ordinals. *)
Theorem original_ordinal_discarded (acc : list string) (d d' : ascii) (ds ds' body : string) :
  isdigit d = true -> all_chars isdigit ds = true ->
  isdigit d' = true -> all_chars isdigit ds' = true ->
  standardize_step acc (String d (ds ++ String "." body))
  = standardize_step acc (String d' (ds' ++ String "." body)).
Proof.
  intros Hd Hds Hd' Hds'. rewrite !standardize_step_label.
  now rewrite !label_of_ordinal_line.
Qed.

Lemma original_ordinal_discarded_witness :
  standardize_step ["1. Value: pricing"] "7. Service: slow"
  = standardize_step ["1. Value: pricing"] "42. Service: slow".
Proof.
  apply (original_ordinal_discarded ["1. Value: pricing"] "7" "4" "" "2" " Service: slow");
    reflexivity.
Defined.

End StandardizerAtLarge.

(* ================================================================== *)
(** * Substitution, step by step *)
(* ================================================================== *)

Section Substitution.

Variable ic : bool.

Lemma sub_fuel_any (r : regex) (repl : string) :
  forall (f1 f2 : nat) (s : string),
    String.length s <= f1 -> String.length s <= f2 ->
    sub_fuel ic f1 r repl s = sub_fuel ic f2 r repl s.
Proof.
  induction f1 as [|f1 IH]; intros f2 s H1 H2.
  - destruct s; [|simpl in H1; lia]. now destruct f2.
  - destruct f2 as [|f2]; [destruct s; [reflexivity|simpl in H2; lia]|].
    destruct s as [|c s]; [reflexivity|]. cbn [sub_fuel]. simpl in H1, H2.
    destruct (re_match ic r (String c s)) as [rest|].
    + destruct (String.length rest <? String.length (String c s)) eqn:E.
      * apply Nat.ltb_lt in E. simpl in E. f_equal. apply IH; lia.
      * f_equal. apply IH; lia.
    + f_equal. apply IH; lia.
Qed.

(** The unfolding of [re_sub] at the first character. *)
Lemma re_sub_cons (r : regex) (repl : string) (c : ascii) (s : string) :
  re_sub ic r repl (String c s)
  = match re_match ic r (String c s) with
    | Some rest =>
        if String.length rest <? S (String.length s)
        then repl ++ re_sub ic r repl rest
        else String c (re_sub ic r repl s)
    | None => String c (re_sub ic r repl s)
    end.
Proof.
  unfold re_sub. cbn [String.length sub_fuel].
  destruct (re_match ic r (String c s)) as [rest|]; [|reflexivity].
  destruct (String.length rest <? S (String.length s)) eqn:E; [|reflexivity].
  apply Nat.ltb_lt in E. f_equal. apply sub_fuel_any; lia.
Qed.

Lemma string_length_ind (P : string -> Prop) :
  (forall s, (forall t, String.length t < String.length s -> P t) -> P s) ->
  forall s, P s.
Proof.
  intros H s. remember (String.length s) as n eqn:E. revert s E.
  induction n as [n IH] using lt_wf_ind. intros s ->.
  apply H. intros t Ht. now apply (IH (String.length t)).
Qed.

End Substitution.

(* ================================================================== *)
(** * The form of a cleaned line *)
(* ================================================================== *)

Section CleanedForm.

Lemma length_lstrip (s : string) : String.length (lstrip s) <= String.length s.
Proof.
  induction s as [|c s IH]; simpl; [lia|].
  destruct (isspace c); simpl; lia.
Qed.

Lemma lstrip_head (s : string) : head_space (lstrip s) = false.
Proof.
  induction s as [|c s IH]; simpl; [reflexivity|].
  destruct (isspace c) eqn:E; [exact IH|]. simpl. exact E.
Qed.

(** [re.sub(r'\s+', ' ', s)] at the first character. *)
Lemma collapse_cons (c : ascii) (s : string) :
  re_sub false spaces_re " " (String c s)
  = if isspace c
    then String " " (re_sub false spaces_re " " (lstrip s))
    else String c (re_sub false spaces_re " " s).
Proof.
  rewrite re_sub_cons. unfold re_match at 1, spaces_re at 1. cbn [mt atom_matches].
  destruct (isspace c); [|reflexivity].
  rewrite greedy_space_lstrip.
  pose proof (length_lstrip s) as L.
  destruct (String.length (lstrip s) <? S (String.length s)) eqn:E; [reflexivity|].
  apply Nat.ltb_ge in E. lia.
Qed.

Lemma collapse_single_spaced (s : string) :
  single_spaced (re_sub false spaces_re " " s) = true
  /\ head_space (re_sub false spaces_re " " s) = head_space s.
Proof.
  induction s as [s IH] using string_length_ind.
  destruct s as [|c s]; [split; reflexivity|].
  rewrite collapse_cons. destruct (isspace c) eqn:E.
  - destruct (IH (lstrip s)) as [H1 H2].
    { pose proof (length_lstrip s). simpl. lia. }
    split; [|simpl; now rewrite E].
    cbn [single_spaced]. change (isspace " ") with true. cbv iota.
    rewrite H2, lstrip_head, H1. reflexivity.
  - destruct (IH s) as [H1 _]; [simpl; lia|].
    split; [|simpl; now rewrite E].
    cbn [single_spaced]. now rewrite E, H1.
Qed.

Lemma single_spaced_tail (c : ascii) (s : string) :
  single_spaced (String c s) = true -> single_spaced s = true.
Proof. cbn [single_spaced]. intros H. apply andb_true_iff in H. tauto. Qed.

Lemma single_spaced_lstrip (s : string) :
  single_spaced s = true -> single_spaced (lstrip s) = true.
Proof.
  induction s as [|c s IH]; [reflexivity|].
  intros H. cbn [lstrip]. destruct (isspace c); [|exact H].
  apply IH. now apply single_spaced_tail in H.
Qed.

Lemma rstrip_head_space (s : string) :
  head_space (rstrip s) = true -> head_space s = true.
Proof.
  destruct s as [|c s]; [discriminate|]. cbn [rstrip].
  destruct (rstrip s); [destruct (isspace c) eqn:E|]; simpl; auto; discriminate.
Qed.

Lemma single_spaced_rstrip (s : string) :
  single_spaced s = true -> single_spaced (rstrip s) = true.
Proof.
  induction s as [|c s IH]; [reflexivity|].
  intros H. pose proof (single_spaced_tail c s H) as Ht. specialize (IH Ht).
  cbn [single_spaced] in H. apply andb_true_iff in H. destruct H as [Hc _].
  cbn [rstrip]. destruct (rstrip s) as [|c' s'] eqn:E.
  - destruct (isspace c) eqn:Ec; [reflexivity|]. cbn [single_spaced]. now rewrite Ec.
  - change (single_spaced (String c (String c' s')))
      with ((if isspace c
             then Ascii.eqb c " "%char && negb (head_space (String c' s'))
             else true) && single_spaced (String c' s')).
    rewrite IH, andb_true_r.
    destruct (isspace c); [|reflexivity].
    apply andb_true_iff in Hc. destruct Hc as [Hc1 Hc2]. rewrite Hc1. cbn [andb].
    destruct (head_space (String c' s')) eqn:Ec'; [|reflexivity].
    assert (Hh : head_space s = true).
    { apply rstrip_head_space. now rewrite E. }
    rewrite Hh in Hc2. discriminate.
Qed.

Lemma rstrip_idem (s : string) : rstrip (rstrip s) = rstrip s.
Proof.
  induction s as [|c s IH]; [reflexivity|].
  cbn [rstrip]. destruct (rstrip s) as [|c' s'] eqn:E.
  - destruct (isspace c) eqn:Ec; [reflexivity|]. cbn [rstrip]. now rewrite Ec.
  - cbn [rstrip]. cbn [rstrip] in IH. now rewrite IH.
Qed.

Lemma lstrip_fixed (s : string) : head_space s = false -> lstrip s = s.
Proof. destruct s as [|c s]; [reflexivity|]. simpl. now intros ->. Qed.

Lemma rstrip_head_keeps (s : string) : head_space s = false -> head_space (rstrip s) = false.
Proof.
  intros H. destruct (head_space (rstrip s)) eqn:E; [|reflexivity].
  apply rstrip_head_space in E. congruence.
Qed.

(** [strip] leaves nothing for a second [strip] to remove. *)
Lemma strip_idem (s : string) : strip (strip s) = strip s.
Proof.
  unfold strip. rewrite (lstrip_fixed (rstrip (lstrip s))).
  - apply rstrip_idem.
  - apply rstrip_head_keeps, lstrip_head.
Qed.

Lemma rstrip_keeps_prefix (pre rest : string) :
  all_chars (fun c => negb (isspace c)) pre = true ->
  exists rest', rstrip (pre ++ rest) = pre ++ rest'.
Proof.
  induction pre as [|c pre IH]; intros H.
  - now exists (rstrip rest).
  - cbn [all_chars] in H. apply andb_true_iff in H. destruct H as [Hc Hpre].
    apply negb_true_iff in Hc.
    destruct (IH Hpre) as [rest' E]. cbn [append rstrip]. rewrite E.
    destruct (pre ++ rest') eqn:E'.
    + rewrite Hc. destruct pre; [|discriminate]. now exists "".
    + rewrite <- E'. now exists rest'.
Qed.

Lemma ordinal_shape (line : string) :
  starts_with_ordinal line = true ->
  exists (d : ascii) (ds rest : string),
    line = String d (ds ++ String "." rest)
    /\ isdigit d = true /\ all_chars isdigit ds = true.
Proof.
  unfold starts_with_ordinal, re_match, ordinal_re. cbn [mt].
  destruct line as [|d s]; [discriminate|]. cbn [atom_matches].
  destruct (isdigit d) eqn:Hd; [|discriminate].
  destruct (greedy false Digit s _) as [x|] eqn:G; [|discriminate].
  intros _. apply greedy_splits in G. destruct G as (m & rest1 & -> & Hk & Hm).
  destruct rest1 as [|c1 rest]; [discriminate|].
  cbn [atom_matches] in Hk. destruct (Ascii.eqb "." c1) eqn:E; [|discriminate].
  apply Ascii.eqb_eq in E. subst c1. now exists d, m, rest.
Qed.

Lemma ordinal_shape_starts (d : ascii) (ds rest : string) :
  isdigit d = true -> all_chars isdigit ds = true ->
  starts_with_ordinal (String d (ds ++ String "." rest)) = true.
Proof.
  intros Hd Hds. unfold starts_with_ordinal, re_match, ordinal_re.
  cbn [mt atom_matches]. rewrite Hd.
  now rewrite (greedy_digits_dot rest _ rest eq_refl ds Hds).
Qed.

Lemma digit_or_dot_facts (c : ascii) :
  isdigit c = true \/ c = "."%char ->
  Ascii.eqb "("%char c = false /\ isspace c = false.
Proof.
  intros [H | ->]; [|split; reflexivity].
  split; [now apply digit_not_paren|now apply digit_not_space].
Qed.

Lemma unparen_head (c : ascii) (s : string) :
  Ascii.eqb "("%char c = false ->
  re_sub false paren_re "" (String c s) = String c (re_sub false paren_re "" s).
Proof.
  intros H. rewrite re_sub_cons. unfold re_match at 1, paren_re at 1.
  cbn [mt atom_matches]. now rewrite H.
Qed.

Lemma collapse_head (c : ascii) (s : string) :
  isspace c = false ->
  re_sub false spaces_re " " (String c s) = String c (re_sub false spaces_re " " s).
Proof. intros H. now rewrite collapse_cons, H. Qed.

Lemma subs_keep_ordinal (ds rest : string) :
  all_chars isdigit ds = true ->
  re_sub false spaces_re " " (re_sub false paren_re "" (ds ++ String "." rest))
  = ds ++ String "." (re_sub false spaces_re " " (re_sub false paren_re "" rest)).
Proof.
  induction ds as [|d ds IH]; intros H.
  - cbn [append]. rewrite unparen_head by reflexivity. now rewrite collapse_head.
  - cbn [all_chars] in H. apply andb_true_iff in H. destruct H as [Hd Hds].
    cbn [append]. rewrite unparen_head by now apply digit_not_paren.
    rewrite collapse_head by now apply digit_not_space.
    now rewrite IH.
Qed.

(** Tidying keeps the whole ordinal of a line that opens with one. *)
Lemma tidy_keeps_ordinal (line : string) :
  starts_with_ordinal line = true -> starts_with_ordinal (tidy line) = true.
Proof.
  intros H. apply ordinal_shape in H. destruct H as (d & ds & rest & -> & Hd & Hds).
  unfold tidy.
  change (String d (ds ++ String "." rest)) with (String d ds ++ String "." rest).
  rewrite subs_keep_ordinal by (simpl; now rewrite Hd).
  set (R := re_sub false spaces_re " " (re_sub false paren_re "" rest)).
  unfold strip. cbn [append lstrip]. rewrite (digit_not_space d Hd).
  replace (String d (ds ++ String "." R)) with ((String d ds ++ ".") ++ R)
    by (simpl; now rewrite <- append_assoc).
  destruct (rstrip_keeps_prefix (String d ds ++ ".") R) as [R' ->].
  - rewrite all_chars_app. cbn [all_chars]. rewrite (digit_not_space d Hd). cbn [negb andb].
    rewrite (all_chars_weaken isdigit (fun c => negb (isspace c)) ds); [reflexivity| |exact Hds].
    intros c Hc. now rewrite (digit_not_space c Hc).
  - replace ((String d ds ++ ".") ++ R') with (String d (ds ++ String "." R'))
      by (simpl; now rewrite <- append_assoc).
    now apply ordinal_shape_starts.
Qed.

Lemma tidy_strip (line : string) : strip (tidy line) = tidy line.
Proof. unfold tidy. apply strip_idem. Qed.

Lemma tidy_single_spaced (line : string) : single_spaced (tidy line) = true.
Proof.
  unfold tidy, strip. apply single_spaced_rstrip, single_spaced_lstrip.
  apply collapse_single_spaced.
Qed.

Lemma cleaned_line_origin (feedback_text line : string) :
  In line (cleaned_lines feedback_text) ->
  exists raw, In raw (survivors feedback_text) /\ line = tidy raw.
Proof.
  unfold cleaned_lines. intros H. apply In_firstn in H.
  rewrite valid_points_survivors in H. apply in_map_iff in H.
  destruct H as (raw & <- & Hraw). now exists raw.
Qed.

(** X12. When at least two lines pass its filters the Cleaner returns the
    first four of them (all of them when there are fewer), tidied, one per
    line and in their original order: splitting its output at line breaks
    gives exactly these 2 to 4 lines. *)
Theorem cleaner_output_lines (feedback_text : string) :
  2 <= List.length (survivors feedback_text) ->
  lines (clean_feedback feedback_text) = firstn 4 (map tidy (survivors feedback_text))
  /\ 2 <= List.length (lines (clean_feedback feedback_text)) <= 4
  /\ List.length (lines (clean_feedback feedback_text))
     = Nat.min 4 (List.length (survivors feedback_text)).
Proof.
  intros H2.
  assert (Hc : cleaned_lines feedback_text = firstn 4 (map tidy (survivors feedback_text))).
  { unfold cleaned_lines. now rewrite valid_points_survivors. }
  assert (Hlen : List.length (cleaned_lines feedback_text)
                 = Nat.min 4 (List.length (survivors feedback_text))).
  { now rewrite Hc, length_firstn, length_map. }
  assert (Hout : lines (clean_feedback feedback_text) = cleaned_lines feedback_text).
  { unfold clean_feedback. fold (cleaned_lines feedback_text).
    destruct (List.length (cleaned_lines feedback_text) <? 2) eqn:E.
    - apply Nat.ltb_lt in E. lia.
    - apply lines_unlines.
      + intros E'. rewrite E' in Hlen. cbn [List.length] in Hlen. lia.
      + apply Forall_forall. intros l Hl. now apply (cleaned_line_shape feedback_text). }
  rewrite Hout, Hlen. split; [exact Hc|]. split; [lia|reflexivity].
Qed.

Lemma cleaner_output_lines_witness :
  lines (clean_feedback stub_two_lines) = firstn 4 (map tidy (survivors stub_two_lines)).
Proof.
  apply (cleaner_output_lines stub_two_lines). vm_compute. lia.
Defined.

(** X13. Every line the Cleaner keeps still opens with its ordinal
    ("<digits>."), has no white space at either end, and has its inner
    white space collapsed: every white-space character in it is a single
    plain space. *)
Theorem cleaned_line_normal_form (feedback_text line : string) :
  In line (cleaned_lines feedback_text) ->
  starts_with_ordinal line = true
  /\ strip line = line
  /\ single_spaced line = true.
Proof.
  intros H. destruct (cleaned_line_origin _ _ H) as (raw & Hraw & ->).
  split; [|split; [apply tidy_strip|apply tidy_single_spaced]].
  apply tidy_keeps_ordinal.
  unfold survivors in Hraw. apply filter_In in Hraw. destruct Hraw as [_ Hs].
  unfold survives in Hs. apply andb_true_iff in Hs. destruct Hs as [Hs _].
  apply andb_true_iff in Hs. tauto.
Qed.

Lemma cleaned_line_normal_form_witness :
  starts_with_ordinal "1. Service slow" = true
  /\ strip "1. Service slow" = "1. Service slow"
  /\ single_spaced "1. Service slow" = true.
Proof.
  apply (cleaned_line_normal_form
           ("1.   Service (very)  slow " ++ nl ++ "2. Value: ok") "1. Service slow").
  vm_compute. now left.
Defined.

End CleanedForm.

(* ================================================================== *)
(** * Parentheticals *)
(* ================================================================== *)

Section Parentheticals.

Lemma length_append (a b : string) :
  String.length (a ++ b) = String.length a + String.length b.
Proof. induction a as [|c a IH]; simpl; [reflexivity|now rewrite IH]. Qed.

(** A match of [\(.*?\)] at the first character. *)
Lemma paren_match (c : ascii) (s : string) :
  re_match false paren_re (String c s)
  = if Ascii.eqb "("%char c
    then lazy false Dot s (fun s' => mt false (One (Chr ")")) s' Some)
    else None.
Proof. reflexivity. Qed.

Lemma paren_match_shorter (c : ascii) (s rest : string) :
  re_match false paren_re (String c s) = Some rest ->
  String.length rest < S (String.length s)
  /\ exists m, s = m ++ String ")" rest.
Proof.
  rewrite paren_match. destruct (Ascii.eqb "(" c); [|discriminate].
  intros H. apply lazy_splits in H. destruct H as (m & rest1 & -> & Hk & _).
  cbn [mt] in Hk. destruct rest1 as [|c1 r1]; [discriminate|].
  cbn [atom_matches] in Hk. destruct (Ascii.eqb ")" c1) eqn:E; [|discriminate].
  apply Ascii.eqb_eq in E. subst c1. injection Hk as ->.
  split; [|now exists m]. rewrite length_append. simpl. lia.
Qed.

Lemma lazy_close_none (s : string) :
  all_chars no_newline s = true ->
  lazy false Dot s (fun s' => mt false (One (Chr ")")) s' Some) = None ->
  all_chars not_close s = true.
Proof.
  induction s as [|c s IH]; [reflexivity|].
  cbn [all_chars lazy mt atom_matches]. intros Hn.
  apply andb_true_iff in Hn. destruct Hn as [Hc Hs].
  unfold not_close at 1. destruct (Ascii.eqb ")" c) eqn:E; [discriminate|].
  unfold no_newline in Hc. rewrite Hc. intros H.
  rewrite Ascii.eqb_sym, E. cbn [negb andb]. now apply IH.
Qed.

Lemma no_pair_tail (c : ascii) (s : string) : no_pair (String c s) = true -> no_pair s = true.
Proof. cbn [no_pair]. intros H. apply andb_true_iff in H. tauto. Qed.

Lemma no_pair_lstrip (s : string) : no_pair s = true -> no_pair (lstrip s) = true.
Proof.
  induction s as [|c s IH]; [reflexivity|].
  intros H. cbn [lstrip]. destruct (isspace c); [|exact H].
  apply IH. now apply no_pair_tail in H.
Qed.

Lemma no_pair_rstrip (s : string) : no_pair s = true -> no_pair (rstrip s) = true.
Proof.
  induction s as [|c s IH]; [reflexivity|].
  intros H. pose proof (no_pair_tail c s H) as Ht. specialize (IH Ht).
  cbn [no_pair] in H. apply andb_true_iff in H. destruct H as [Hc _].
  cbn [rstrip]. destruct (rstrip s) as [|c' s'] eqn:E.
  - destruct (isspace c); [reflexivity|]. cbn [no_pair all_chars]. now rewrite orb_true_r.
  - change (no_pair (String c (String c' s')))
      with ((negb (Ascii.eqb c "("%char) || all_chars not_close (String c' s'))
            && no_pair (String c' s')).
    rewrite IH, andb_true_r.
    destruct (negb (Ascii.eqb c "(")); [reflexivity|]. cbn [orb] in *.
    rewrite <- E. now apply rstrip_all_chars.
Qed.

Lemma unparen_no_pair (s : string) :
  all_chars no_newline s = true -> no_pair (re_sub false paren_re "" s) = true.
Proof.
  induction s as [s IH] using string_length_ind. intros Hn.
  destruct s as [|c s]; [reflexivity|].
  assert (Hs : all_chars no_newline s = true).
  { cbn [all_chars] in Hn. apply andb_true_iff in Hn. tauto. }
  rewrite re_sub_cons.
  destruct (re_match false paren_re (String c s)) as [rest|] eqn:M.
  - destruct (paren_match_shorter c s rest M) as [Hlen (m & E)].
    apply Nat.ltb_lt in Hlen. rewrite Hlen. cbn [append].
    apply IH; [now apply Nat.ltb_lt in Hlen|].
    rewrite E, all_chars_app in Hs. apply andb_true_iff in Hs. destruct Hs as [_ Hs].
    cbn [all_chars] in Hs. apply andb_true_iff in Hs. tauto.
  - cbn [no_pair]. rewrite (IH s) by (simpl; auto). rewrite andb_true_r.
    destruct (Ascii.eqb c "(") eqn:E; [|reflexivity]. cbn [negb orb].
    apply re_sub_all_chars; [reflexivity|].
    apply lazy_close_none; [exact Hs|].
    rewrite paren_match in M. rewrite Ascii.eqb_sym, E in M. exact M.
Qed.

Lemma collapse_no_pair (s : string) :
  no_pair s = true -> no_pair (re_sub false spaces_re " " s) = true.
Proof.
  induction s as [s IH] using string_length_ind. intros Hp.
  destruct s as [|c s]; [reflexivity|].
  pose proof (no_pair_tail c s Hp) as Ht.
  rewrite collapse_cons. destruct (isspace c) eqn:E.
  - cbn [no_pair]. change (Ascii.eqb " " "(") with false. cbn [negb orb andb].
    apply IH; [pose proof (length_lstrip s); simpl; lia|now apply no_pair_lstrip].
  - cbn [no_pair] in *. rewrite (IH s) by (simpl; auto). rewrite andb_true_r.
    apply andb_true_iff in Hp. destruct Hp as [Hc _].
    destruct (negb (Ascii.eqb c "(")); [reflexivity|]. cbn [orb] in *.
    now apply re_sub_all_chars.
Qed.

(** X14. No parenthetical is left in a line the Cleaner keeps: no opening
    parenthesis in it has a closing parenthesis anywhere after it. *)
Theorem cleaned_line_no_parenthetical (feedback_text line : string) :
  In line (cleaned_lines feedback_text) -> no_pair line = true.
Proof.
  intros H. destruct (cleaned_line_origin _ _ H) as (raw & Hraw & ->).
  unfold survivors in Hraw. apply filter_In in Hraw. destruct Hraw as [Hraw _].
  apply in_map_iff in Hraw. destruct Hraw as (l0 & <- & Hl0).
  unfold tidy, strip. apply no_pair_rstrip, no_pair_lstrip, collapse_no_pair.
  apply unparen_no_pair, rstrip_all_chars, lstrip_all_chars.
  pose proof (lines_no_newline (PyStr.strip feedback_text)) as F.
  rewrite Forall_forall in F. now apply F.
Qed.

Lemma cleaned_line_no_parenthetical_witness :
  no_pair "1. Service slow) and ( rude" = true.
Proof.
  apply (cleaned_line_no_parenthetical
           ("1. Service (very) slow) and ( rude" ++ nl ++ "2. Value: ok")).
  vm_compute. now left.
Defined.

End Parentheticals.

(* ================================================================== *)
(** * From standardized lines to labels and suggestions *)
(* ================================================================== *)

Section LabelsAndSuggestions.

Lemma extract_loop_flat (ls : list string) :
  forall acc : list string,
    extract_loop ls acc
    = (acc ++ flat_map (fun l => if truthy (content (strip l))
                                 then [content (strip l)] else []) ls)%list.
Proof.
  induction ls as [|l ls IH]; intros acc.
  - simpl. now rewrite app_nil_r.
  - cbn [extract_loop flat_map]. fold (content (strip l)).
    destruct (truthy (content (strip l))).
    + rewrite IH, <- app_assoc. reflexivity.
    + apply IH.
Qed.

Lemma rstrip_app (a l : string) :
  rstrip l <> "" -> rstrip (a ++ l) = a ++ rstrip l.
Proof.
  intros H. induction a as [|c a IH]; [reflexivity|].
  cbn [append rstrip]. rewrite IH.
  destruct (a ++ rstrip l) eqn:E; [|reflexivity].
  destruct a; [|discriminate]. simpl in E. contradiction.
Qed.

Lemma lstrip_rstrip (s : string) : lstrip (rstrip s) = rstrip (lstrip s).
Proof.
  induction s as [|c s IH]; [reflexivity|].
  cbn [lstrip]. destruct (isspace c) eqn:E.
  - rewrite <- IH. cbn [rstrip]. destruct (rstrip s) eqn:R.
    + now rewrite E.
    + cbn [lstrip]. now rewrite E.
  - apply lstrip_fixed. apply rstrip_head_keeps. simpl. exact E.
Qed.

Lemma strip_nonempty_rstrip (l : string) : strip l <> "" -> rstrip l <> "".
Proof.
  intros H R. apply H. apply spaces_strip_empty. now apply rstrip_empty.
Qed.

Lemma emitted_nonblank (l : string) : emitted l -> strip l <> "".
Proof.
  intros [_ H] E.
  assert (A : all_chars isspace l = true) by now apply strip_empty_spaces.
  destruct (first_rule standardizations l) as [r|] eqn:F.
  - apply first_rule_some in F. destruct F as (p & Hin & Hs).
    rewrite (rules_need_letters p r l Hin) in Hs; [discriminate|].
    revert A. apply all_chars_weaken. intros c Hc. unfold ordinal_char.
    rewrite Hc. apply orb_true_r.
  - specialize (H eq_refl). now rewrite (spaces_lstrip l A) in H.
Qed.

(** The label read back from a numbered line. *)
Lemma content_numbered (k : nat) (l : string) :
  strip l <> "" -> content (strip (str_of_nat k ++ ". " ++ l)) = strip l.
Proof.
  intros H. destruct (str_of_nat_digits k) as (d & ds & -> & Hd & Hds).
  unfold strip at 1.
  change (String d ds ++ ". " ++ l) with (String d (ds ++ String "." (String " " l))).
  cbn [lstrip]. rewrite (digit_not_space d Hd).
  replace (String d (ds ++ String "." (String " " l)))
    with ((String d ds ++ ". ") ++ l) by (simpl; now rewrite <- append_assoc).
  rewrite rstrip_app by now apply strip_nonempty_rstrip.
  replace ((String d ds ++ ". ") ++ rstrip l)
    with (String d (ds ++ String "." (String " " (rstrip l))))
    by (simpl; now rewrite <- append_assoc).
  unfold content, re_sub_bol. rewrite ordinal_ws_numbered by assumption.
  cbn [append lstrip]. change (isspace " ") with true. cbv iota.
  apply lstrip_rstrip.
Qed.

Lemma extract_numbered (labels : list string) :
  Forall emitted labels ->
  forall k : nat,
    flat_map (fun l => if truthy (content (strip l)) then [content (strip l)] else [])
             (numbered_from k labels)
    = map strip labels.
Proof.
  induction 1 as [|l labels Hl _ IH]; intros k; [reflexivity|].
  cbn [numbered_from flat_map map].
  pose proof (emitted_nonblank l Hl) as Hne.
  rewrite (content_numbered k l Hne), IH.
  destruct (strip l); [contradiction|reflexivity].
Qed.

(** X15. Reading the labels back from the Standardizer's output gives one
    label per standardized line, in order: the label the line carries after
    its ordinal, with white space at its ends removed. *)
Theorem extracted_labels_match_lines (feedback_text : string) :
  exists labels : list string,
    standardize_lines feedback_text = numbered_from 1 labels
    /\ extract_feedback_categories (standardize_feedback feedback_text) = map strip labels
    /\ List.length (extract_feedback_categories (standardize_feedback feedback_text))
       = List.length (standardize_lines feedback_text).
Proof.
  exists (flat_map label_of (lines feedback_text)).
  pose proof (labels_emitted feedback_text) as Hem.
  pose proof (standardize_lines_numbered feedback_text) as Hnum.
  assert (E : extract_feedback_categories (standardize_feedback feedback_text)
              = map strip (flat_map label_of (lines feedback_text))).
  { unfold extract_feedback_categories, standardize_feedback.
    rewrite extract_loop_flat, Hnum. cbn [List.app].
    destruct (flat_map label_of (lines feedback_text)) as [|l0 ls0] eqn:El; [reflexivity|].
    rewrite <- El in *. rewrite lines_unlines.
    - now apply extract_numbered.
    - rewrite El. discriminate.
    - apply numbered_no_newline. revert Hem. apply Forall_impl. intros l [Hl _]. exact Hl. }
  split; [exact Hnum|]. split; [exact E|].
  now rewrite E, Hnum, length_map, numbered_from_length.
Qed.

Lemma suggest_loop_length (generate : model) (points : list string) :
  forall call : nat, List.length (suggest_loop generate call points) = List.length points.
Proof.
  induction points as [|p points IH]; intros call; simpl; [reflexivity|now rewrite IH].
Qed.

Lemma suggest_loop_nth (generate : model) (labels : list string) :
  forall (call k i : nat) (l : string),
    nth_error labels i = Some l ->
    nth_error (suggest_loop generate call (numbered_from k labels)) i
    = Some ((str_of_nat (k + i) ++ ". " ++ l) ++ " " ++ arrow ++ " "
            ++ generate_improvement_suggestion generate (call + i) (lstrip l)).
Proof.
  induction labels as [|l0 labels IH]; intros call k i l H; [destruct i; discriminate|].
  destruct i as [|i].
  - injection H as ->. cbn [numbered_from suggest_loop nth_error].
    rewrite !Nat.add_0_r. do 4 f_equal.
    destruct (str_of_nat_digits k) as (d & ds & -> & Hd & Hds).
    change (String d ds ++ ". " ++ l) with (String d (ds ++ String "." (String " " l))).
    unfold re_sub_bol. rewrite ordinal_ws_numbered by assumption. reflexivity.
  - cbn [numbered_from suggest_loop nth_error]. cbn [nth_error] in H.
    rewrite (IH (S call) (S k) i l H). do 2 f_equal.
    + do 2 f_equal. lia.
    + do 3 f_equal. f_equal. lia.
Qed.

(** X16. [analyze_review_with_suggestions] asks the model for exactly one
    suggestion per standardized line: the i-th suggestion opens with the
    i-th line and an arrow, comes from model call number i (the extraction
    is call 0), and its prompt quotes that line's label without the
    ordinal. *)
Theorem one_suggestion_per_line (generate : model) (review_text : pytext) :
  let result := analyze_review_with_suggestions generate review_text in
  let made := suggest_loop generate 1 (feedback_lines (feedback_points result)) in
  exists labels : list string,
    feedback_lines (feedback_points result) = numbered_from 1 labels
    /\ suggestions result = unlines made
    /\ List.length made = List.length labels
    /\ (forall i l, nth_error labels i = Some l ->
          nth_error made i
          = Some ((str_of_nat (1 + i) ++ ". " ++ l) ++ " " ++ arrow ++ " "
                  ++ generate_improvement_suggestion generate (1 + i) (lstrip l))).
Proof.
  intros result made. subst made result.
  cbn [analyze_review_with_suggestions feedback_points suggestions].
  set (cleaned := clean_feedback (analyze_review generate 0 review_text)).
  exists (flat_map label_of (lines cleaned)).
  assert (E : feedback_lines (standardize_feedback cleaned)
              = numbered_from 1 (flat_map label_of (lines cleaned))).
  { unfold standardize_feedback. rewrite standardize_lines_numbered.
    apply numbered_lines_split_back, labels_emitted. }
  rewrite E. split; [reflexivity|]. split; [reflexivity|].
  split; [now rewrite suggest_loop_length, numbered_from_length|].
  intros i l H. now apply suggest_loop_nth.
Qed.

End LabelsAndSuggestions.

(* ================================================================== *)
(** * Pruning: errors, bounds and a second run *)
(* ================================================================== *)

Section PruningEdges.

Lemma scan_none (df : dataframe) (threshold : Q) (cols : list string) :
  forall acc : list low_variance,
    scan df threshold cols acc = None <-> exists col, In col cols /\ getitem df col = None.
Proof.
  induction cols as [|col cols IH]; intros acc.
  - simpl. split; [discriminate|intros (c & [] & _)].
  - cbn [scan]. destruct (getitem df col) as [series|] eqn:G.
    + assert (R : forall acc', scan df threshold cols acc' = None
                               <-> exists c, In c (col :: cols) /\ getitem df c = None).
      { intros acc'. rewrite IH. split.
        - intros (c & Hc & Hn). exists c. split; [now right|exact Hn].
        - intros (c & [<-|Hc] & Hn); [congruence|]. now exists c. }
      destruct (mem (dtype series) checked_dtypes); [|apply R].
      destruct (nunique (cells series) <=? 10); [|apply R].
      destruct (max_proportion (cells series)) as [mp|]; [|apply R].
      destruct (Qle_bool threshold mp); apply R.
    + split; [|reflexivity]. intros _. exists col. split; [now left|exact G].
Qed.

Lemma getitem_none_repeated (df : dataframe) (c : column) :
  In c df ->
  (getitem df (label c) = None
   <-> 2 <= List.length (filter (fun c' => String.eqb (label c') (label c)) df)).
Proof.
  intros Hin. unfold getitem.
  assert (H1 : In c (filter (fun c' => String.eqb (label c') (label c)) df)).
  { apply filter_In. split; [exact Hin|apply String.eqb_refl]. }
  destruct (filter (fun c' => String.eqb (label c') (label c)) df) as [|a [|b l]].
  - contradiction.
  - simpl. split; [discriminate|lia].
  - simpl. split; [lia|reflexivity].
Qed.

(** X17. [remove_low_variance_features] fails (the [.dtype] of a repeated
    label raises) exactly when some label outside the exclusion list
    names more than one column; a label repeated only among the excluded
    columns does no harm. *)
Theorem pruning_fails_on_repeated_label
    (df : dataframe) (threshold : Q) (exclude_cols : list string) :
  remove_low_variance_features df threshold exclude_cols = None
  <-> exists c : column,
        In c df /\ mem (label c) exclude_cols = false
        /\ 2 <= List.length (filter (fun c' => String.eqb (label c') (label c)) df).
Proof.
  unfold remove_low_variance_features.
  destruct (scan df threshold _ []) as [low|] eqn:S.
  - split.
    + destruct (0 <? List.length low); discriminate.
    + intros (c & Hin & Hex & Hrep). exfalso.
      assert (N : scan df threshold
                    (filter (fun col => negb (mem col exclude_cols)) (map label df)) []
                  = None).
      { apply scan_none. exists (label c). split.
        - apply filter_In. split; [now apply in_map|now rewrite Hex].
        - now apply getitem_none_repeated. }
      congruence.
  - split; [|reflexivity]. intros _. apply scan_none in S.
    destruct S as (col & Hcol & Hn). apply filter_In in Hcol. destruct Hcol as [Hcol Hex].
    apply in_map_iff in Hcol. destruct Hcol as (c & <- & Hin).
    exists c. split; [exact Hin|]. split; [now apply negb_true_iff|].
    now apply getitem_none_repeated.
Qed.

(** What the function returns on a frame with distinct labels. *)
Lemma pruning_result (df : dataframe) (threshold : Q) (exclude_cols : list string) :
  NoDup (map label df) ->
  exists low_var_df : list low_variance,
    remove_low_variance_features df threshold exclude_cols
    = Some (filter (fun c => negb (is_low_variance threshold exclude_cols c)) df, low_var_df)
    /\ map lv_column low_var_df
       = map label (filter (is_low_variance threshold exclude_cols) df).
Proof.
  intros ND. unfold remove_low_variance_features.
  rewrite feature_cols_columns.
  rewrite (scan_rows df threshold ND)
    by (intros c Hc; apply filter_In in Hc; tauto).
  cbn [List.app].
  set (low := flat_map low_variance_row _).
  assert (Hlabels : map lv_column low
                    = map label (filter (is_low_variance threshold exclude_cols) df)).
  { unfold low. rewrite scan_rows_labels, filter_filter. f_equal. apply filter_ext.
    intros c. now rewrite is_low_variance_split. }
  exists low. split; [|exact Hlabels].
  destruct (0 <? List.length low) eqn:E.
  - now rewrite Hlabels, drop_selected.
  - apply Nat.ltb_ge in E.
    assert (Hnil : filter (is_low_variance threshold exclude_cols) df = []).
    { destruct (filter (is_low_variance threshold exclude_cols) df) eqn:F; [reflexivity|].
      apply (f_equal (@List.length _)) in Hlabels. rewrite length_map in Hlabels.
      simpl in Hlabels. lia. }
    now rewrite (filter_none _ _ Hnil).
Qed.

Lemma NoDup_map_filter (P : column -> bool) (df : dataframe) :
  NoDup (map label df) -> NoDup (map label (filter P df)).
Proof.
  induction df as [|c df IH]; intros ND; [constructor|].
  cbn [map] in ND. apply NoDup_cons_iff in ND. destruct ND as [Hc ND].
  cbn [filter]. destruct (P c); [|now apply IH].
  cbn [map]. constructor; [|now apply IH].
  intros H. apply Hc. apply in_map_iff in H. destruct H as (c' & E & Hc').
  apply filter_In in Hc'. apply in_map_iff. exists c'. tauto.
Qed.

(** X18. Pruning is complete in one pass: on a frame with distinct labels,
    running [remove_low_variance_features] again on its own result, with
    the same threshold and exclusion list, drops nothing and reports an
    empty summary. *)
Theorem pruning_second_run_drops_nothing
    (df df' : dataframe) (low : list low_variance) (threshold : Q)
    (exclude_cols : list string) :
  NoDup (map label df) ->
  remove_low_variance_features df threshold exclude_cols = Some (df', low) ->
  remove_low_variance_features df' threshold exclude_cols = Some (df', []).
Proof.
  intros ND H.
  destruct (pruning_result df threshold exclude_cols ND) as (low0 & E & _).
  rewrite E in H. injection H as <- _.
  set (keep := fun c => negb (is_low_variance threshold exclude_cols c)).
  destruct (pruning_result (filter keep df) threshold exclude_cols
              (NoDup_map_filter keep df ND)) as (low1 & E1 & L1).
  assert (Hnil : filter (is_low_variance threshold exclude_cols) (filter keep df) = []).
  { rewrite filter_filter. clear. induction df as [|c df IH]; [reflexivity|].
    cbn [filter]. unfold keep at 1.
    destruct (is_low_variance threshold exclude_cols c); cbn [negb andb]; exact IH. }
  rewrite Hnil in L1. destruct low1; [|discriminate].
  rewrite E1, (filter_none _ _ Hnil). reflexivity.
Qed.

Lemma pruning_second_run_drops_nothing_witness :
  remove_low_variance_features [flag_column; demand_column]
    default_threshold default_exclude_cols
  = Some ([flag_column; demand_column], []).
Proof.
  apply (pruning_second_run_drops_nothing
           [flag_column; rating_column; demand_column] [flag_column; demand_column]
           [{| lv_column := "has_rating"; lv_max_proportion := 4 # 4 |}]).
  - repeat constructor; simpl; intuition discriminate.
  - reflexivity.
Defined.

Lemma cell_eqb_notna (v w : cell) : notna v = true -> cell_eqb v w = true -> notna w = true.
Proof. destruct v, w; simpl; congruence. Qed.

Lemma count_le_present (v : cell) (values : list cell) :
  notna v = true -> count_of v values <= List.length (filter notna values).
Proof.
  intros Hv. unfold count_of. induction values as [|w values IH]; [auto|].
  cbn [filter]. destruct (cell_eqb v w) eqn:E.
  - rewrite (cell_eqb_notna v w Hv E). simpl. lia.
  - destruct (notna w); simpl; lia.
Qed.

Lemma distinct_notna (values : list cell) : Forall (fun v => notna v = true) (distinct values).
Proof.
  induction values as [|v values IH]; [constructor|].
  cbn [distinct]. destruct (notna v) eqn:E; [|exact IH].
  constructor; [exact E|]. rewrite Forall_forall in *. intros w Hw.
  apply filter_In in Hw. now apply IH.
Qed.

Lemma top_le_present (values : list cell) (vs : list cell) :
  Forall (fun v => notna v = true) vs ->
  fold_right Nat.max 0 (map (fun v => count_of v values) vs)
  <= List.length (filter notna values).
Proof.
  induction 1 as [|v vs Hv _ IH]; simpl; [lia|].
  pose proof (count_le_present v values Hv). lia.
Qed.

(** The largest share is a share: it never exceeds 1. *)
Lemma max_proportion_le_1 (values : list cell) (mp : Q) :
  max_proportion values = Some mp -> (mp <= 1)%Q.
Proof.
  unfold max_proportion. destruct (distinct values) as [|v vs] eqn:D; [discriminate|].
  intros H. injection H as <-.
  pose proof (top_le_present values (v :: vs)) as T. rewrite <- D in T.
  specialize (T (distinct_notna values)). rewrite D in T.
  set (top := fold_right Nat.max 0 (map (fun v0 => count_of v0 values) (v :: vs))) in *.
  set (present := List.length (filter notna values)) in *.
  assert (P : 0 < present).
  { pose proof (distinct_notna values) as F. rewrite D in F. inversion F; subst.
    assert (Hin : In v (distinct values)) by (rewrite D; now left).
    clear - Hin. unfold present. induction values as [|w values IH]; [contradiction|].
    cbn [distinct] in Hin. cbn [filter]. destruct (notna w); [simpl; lia|now apply IH]. }
  apply Qle_shift_div_r.
  - rewrite <- (Zlt_Qlt 0). apply (Nat2Z.inj_lt 0 present). exact P.
  - rewrite Qmult_1_l. rewrite <- Zle_Qle. apply Nat2Z.inj_le. exact T.
Qed.

(** X19. A threshold above 1 prunes nothing: on a frame with distinct
    labels the function returns the frame as it is, with an empty
    summary, since no value's share can exceed 1. *)
Theorem threshold_above_one_keeps_all
    (df : dataframe) (threshold : Q) (exclude_cols : list string) :
  NoDup (map label df) -> (1 < threshold)%Q ->
  remove_low_variance_features df threshold exclude_cols = Some (df, []).
Proof.
  intros ND Ht.
  destruct (pruning_result df threshold exclude_cols ND) as (low & E & L).
  assert (Hnone : forall c, is_low_variance threshold exclude_cols c = false).
  { intros c. unfold is_low_variance.
    destruct (max_proportion (cells c)) as [mp|] eqn:M; [|apply andb_false_r].
    assert (Q : Qle_bool threshold mp = false).
    { destruct (Qle_bool threshold mp) eqn:B; [|reflexivity].
      apply Qle_bool_iff in B. apply max_proportion_le_1 in M.
      exfalso. apply (Qlt_not_le _ _ Ht). now apply Qle_trans with mp. }
    rewrite Q. apply andb_false_r. }
  assert (Hnil : filter (is_low_variance threshold exclude_cols) df = []).
  { clear - Hnone. induction df as [|c df IH]; [reflexivity|].
    cbn [filter]. now rewrite Hnone. }
  rewrite Hnil in L. destruct low; [|discriminate].
  rewrite E, (filter_none _ _ Hnil). reflexivity.
Qed.

Lemma threshold_above_one_keeps_all_witness :
  remove_low_variance_features [flag_column; rating_column; demand_column]
    (101 # 100) default_exclude_cols
  = Some ([flag_column; rating_column; demand_column], []).
Proof.
  apply threshold_above_one_keeps_all.
  - repeat constructor; simpl; intuition discriminate.
  - reflexivity.
Defined.

End PruningEdges.

(* ================================================================== *)
(** * How many labels a review can add *)
(* ================================================================== *)

Section LabelsPerReview.

Lemma extract_length (feedback_text : string) :
  List.length (extract_feedback_categories (standardize_feedback feedback_text))
  = List.length (flat_map label_of (lines feedback_text)).
Proof.
  unfold extract_feedback_categories, standardize_feedback.
  rewrite extract_loop_flat, standardize_lines_numbered. cbn [List.app].
  pose proof (labels_emitted feedback_text) as Hem.
  destruct (flat_map label_of (lines feedback_text)) as [|l0 ls0] eqn:El; [reflexivity|].
  rewrite <- El in *. rewrite lines_unlines.
  - now rewrite extract_numbered, length_map.
  - rewrite El. discriminate.
  - apply numbered_no_newline. revert Hem. apply Forall_impl. intros l [Hl _]. exact Hl.
Qed.

(** A response with at least two valid lines adds at most four labels. *)
Lemma review_adds_at_most_four (response : string) :
  2 <= List.length (survivors response) ->
  List.length (extract_feedback_categories (standardize_feedback (clean_feedback response)))
  <= 4.
Proof.
  intros H2. rewrite extract_length.
  assert (Hlen : 2 <= List.length (cleaned_lines response) <= 4).
  { unfold cleaned_lines. rewrite length_firstn, valid_points_survivors, length_map. lia. }
  assert (Hout : lines (clean_feedback response) = cleaned_lines response).
  { unfold clean_feedback. fold (cleaned_lines response).
    destruct (List.length (cleaned_lines response) <? 2) eqn:E.
    - apply Nat.ltb_lt in E. lia.
    - apply lines_unlines.
      + intros E'. rewrite E' in Hlen. simpl in Hlen. lia.
      + apply Forall_forall. intros l Hl. now apply (cleaned_line_shape response). }
  rewrite Hout.
  rewrite (flat_map_filter_length label_of has_detail).
  - pose proof (filter_length_le has_detail (cleaned_lines response)). lia.
  - intros l Hl. destruct (cleaned_line_shape response l Hl) as (_ & d & t & -> & Hd).
    now apply label_of_cleaned.
Qed.

Lemma collect_loop_bound (generate : model) (rows : list review) :
  (forall call prompt, 2 <= List.length (survivors (generate call prompt))) ->
  forall (call : nat) (acc : list string),
    List.length (collect_loop generate call rows acc)
    <= List.length acc + 4 * List.length rows.
Proof.
  intros Hgen. induction rows as [|row rows IH]; intros call acc.
  - simpl. lia.
  - cbn [collect_loop]. etransitivity; [apply IH|].
    rewrite length_app. cbn [List.length].
    pose proof (review_adds_at_most_four (analyze_review generate call (text row))
                  (Hgen call _)).
    lia.
Qed.

Lemma occurrences_le_length (label : string) (items : list string) :
  occurrences label items <= List.length items.
Proof. unfold occurrences. apply filter_length_le. Qed.

(** X20. If the model answers every review with at least two valid
    lines, so that the Cleaner never falls back, a review adds at most
    four labels, and so no issue of a business report is counted more than
    four times the number of its reviews. *)
Theorem issue_count_bounded (generate : model) (recommend : recommender)
    (df : list review) (business : string) (rep : report) :
  (forall call prompt, 2 <= List.length (survivors (generate call prompt))) ->
  analyze_business_reviews generate recommend df business = Some rep ->
  List.length (aggregated_labels generate df business) <= 4 * total_reviews rep
  /\ forall issue count, In (issue, count) (top_issues rep) ->
                         count <= 4 * total_reviews rep.
Proof.
  intros Hgen. unfold analyze_business_reviews.
  destruct (negb (truthy business)); [discriminate|].
  fold (business_rows df business).
  destruct (List.length (business_rows df business) =? 0); [discriminate|].
  fold (aggregated_labels generate df business).
  intros H. injection H as <-. cbn [total_reviews top_issues].
  assert (B : List.length (aggregated_labels generate df business)
              <= 4 * List.length (business_rows df business)).
  { unfold aggregated_labels.
    pose proof (collect_loop_bound generate (business_rows df business) Hgen 0 []) as C.
    simpl in C. lia. }
  split; [exact B|].
  intros issue count Hin. unfold most_common in Hin. apply In_firstn in Hin.
  apply (Permutation_in _ (sorted_desc_perm _)) in Hin.
  assert (E : count = occurrences issue (aggregated_labels generate df business)).
  { rewrite <- (weight_lookup issue count (Counter (aggregated_labels generate df business)));
      [|rewrite counter_keys; apply unique_NoDup|exact Hin].
    unfold Counter. now rewrite Counter_weight. }
  pose proof (occurrences_le_length issue (aggregated_labels generate df business)). lia.
Qed.

Lemma issue_count_bounded_witness :
  exists rep : report,
    analyze_business_reviews repeating_model silent_recommender one_review "b1" = Some rep
    /\ forall issue count, In (issue, count) (top_issues rep) ->
                           count <= 4 * total_reviews rep.
Proof.
  eexists. split; [reflexivity|].
  refine (proj2 (issue_count_bounded repeating_model silent_recommender one_review "b1"
                   _ _ eq_refl)).
  intros call prompt. vm_compute. lia.
Defined.

End LabelsPerReview.

(* ================================================================== *)
(** * The multi-label encoder *)
(* ================================================================== *)

Section Encoding.

Variable str_num : Q -> string.
Variable int_dtype : string.

Lemma insert_sorted_perm (x : string) (l : list string) :
  Permutation (insert_sorted x l) (x :: l).
Proof.
  induction l as [|y l IH]; cbn [insert_sorted]; [apply Permutation_refl|].
  destruct (String.leb x y); [apply Permutation_refl|].
  eapply perm_trans; [apply perm_skip, IH|apply perm_swap].
Qed.

Lemma sorted_strings_perm (l : list string) : Permutation (sorted_strings l) l.
Proof.
  induction l as [|x l IH]; [apply Permutation_refl|].
  cbn [sorted_strings fold_right]. fold (sorted_strings l).
  eapply perm_trans; [apply insert_sorted_perm|apply perm_skip, IH].
Qed.

Lemma leb_flip (x y : string) : String.leb x y = false -> String.leb y x = true.
Proof. intros H. destruct (String.leb_total x y) as [E|E]; congruence. Qed.

Lemma insert_sorted_ascending (x : string) (l : list string) :
  ascending l -> ascending (insert_sorted x l).
Proof.
  unfold ascending. induction 1 as [|y l Hs IH Hhd]; cbn [insert_sorted].
  - repeat constructor.
  - destruct (String.leb x y) eqn:E.
    + constructor; [now constructor|now constructor].
    + constructor; [exact IH|].
      destruct l as [|z l]; cbn [insert_sorted].
      * constructor. now apply leb_flip.
      * destruct (String.leb x z); constructor.
        -- now apply leb_flip.
        -- now inversion Hhd.
Qed.

Lemma sorted_strings_ascending (l : list string) : ascending (sorted_strings l).
Proof.
  induction l as [|x l IH]; [constructor|].
  cbn [sorted_strings fold_right]. now apply insert_sorted_ascending.
Qed.

Lemma classes_In (rows : list (list string)) (c : string) :
  In c (classes rows) <-> exists row, In row rows /\ In c row.
Proof.
  unfold classes. split.
  - intros H. apply (Permutation_in _ (sorted_strings_perm _)) in H.
    apply unique_In, in_concat in H. destruct H as (row & ? & ?). eauto.
  - intros (row & ? & ?).
    apply (Permutation_in _ (Permutation_sym (sorted_strings_perm _))).
    apply unique_In, in_concat. eauto.
Qed.

Lemma classes_NoDup (rows : list (list string)) : NoDup (classes rows).
Proof.
  unfold classes.
  apply (Permutation_NoDup (Permutation_sym (sorted_strings_perm _))).
  apply unique_NoDup.
Qed.

(** X21: when the label names one column, the encoder returns the other
    columns in their order followed by one indicator column per class; the
    classes are distinct, in code-point order, and exactly the labels
    parsed from some cell; a cell of the class's column is 1 when the
    class is among the labels parsed from the row's cell, 0 otherwise. *)
Theorem encoder_appends_indicator_columns
    (df : dataframe) (col : string) (series : column) :
  getitem df col = Some series ->
  exists cs : list string,
    encode_multilabel_field str_num int_dtype df col
    = Some (filter (fun c => negb (String.eqb (label c) col)) df
            ++ map (fun c =>
                      {| label := col ++ "_" ++ c;
                         dtype := int_dtype;
                         cells := map (fun x => if mem c (parse_cell str_num x)
                                                then Num 1 else Num 0)
                                      (cells series) |}) cs)%list
    /\ NoDup cs
    /\ ascending cs
    /\ (forall c, In c cs
                  <-> exists x, In x (cells series) /\ In c (parse_cell str_num x)).
Proof.
  intros G. exists (classes (map (parse_cell str_num) (cells series))).
  split; [|split; [apply classes_NoDup|split; [apply sorted_strings_ascending|]]].
  - unfold encode_multilabel_field. rewrite G. cbv zeta. f_equal. f_equal.
    + unfold drop. apply filter_ext. intros c. unfold mem. cbn [existsb].
      now rewrite orb_false_r.
    + unfold encoded_columns. apply map_ext. intros c. f_equal.
      rewrite map_map. reflexivity.
  - intros c. rewrite classes_In. split.
    + intros (row & Hr & Hc). apply in_map_iff in Hr.
      destruct Hr as (x & <- & Hx). eauto.
    + intros (x & Hx & Hc). exists (parse_cell str_num x). split; [|exact Hc].
      now apply in_map.
Qed.

Lemma split_nonempty (sep : ascii) (s : string) : split sep s <> [].
Proof.
  induction s as [|c s IH]; cbn [split]; [discriminate|].
  destruct (Ascii.eqb c sep); [discriminate|].
  destruct (split sep s); [contradiction|discriminate].
Qed.

Lemma parse_cell_empty (x : cell) :
  parse_cell str_num x = [] <-> notna x = false \/ is_placeholder x = true.
Proof.
  unfold parse_cell. destruct (notna x); cbn [andb].
  - destruct (is_placeholder x); cbn [negb].
    + split; auto.
    + split.
      * intros H. apply map_eq_nil in H. now apply split_nonempty in H.
      * intros [H|H]; discriminate.
  - split; auto.
Qed.

Lemma encoded_cell (col : string) (rows : list (list string)) (e : column) :
  In e (encoded_columns int_dtype col rows) ->
  exists c, In c (classes rows) /\ label e = col ++ "_" ++ c
            /\ dtype e = int_dtype /\ cells e = map (indicator c) rows.
Proof.
  unfold encoded_columns. intros H. apply in_map_iff in H.
  destruct H as (c & <- & Hc). exists c. auto.
Qed.

(** X22: a row shows 0 in every indicator column exactly when its cell is
    missing or one of the texts '[]', '' and 'nan'; any other cell, even
    a blank one, sets an indicator. *)
Theorem all_zero_rows_are_placeholders
    (col : string) (xs : list cell) (i : nat) (x : cell) :
  nth_error xs i = Some x ->
  (forall e, In e (encoded_columns int_dtype col (map (parse_cell str_num) xs)) ->
             nth_error (cells e) i = Some (Num 0))
  <-> (x = Missing \/ x = Obj "[]" \/ x = Obj "" \/ x = Obj "nan").
Proof.
  intros Hx.
  assert (P : parse_cell str_num x = []
              <-> (x = Missing \/ x = Obj "[]" \/ x = Obj "" \/ x = Obj "nan")).
  { rewrite parse_cell_empty. destruct x as [q| |s]; cbn [notna is_placeholder].
    - split; [intros [H|H]; discriminate|intros [H|[H|[H|H]]]; discriminate].
    - split; auto.
    - unfold mem. cbn [existsb]. rewrite !orb_true_iff, !String.eqb_eq.
      split.
      + intros [H|[H|[H|[H|H]]]]; try discriminate; subst; auto.
      + intros [H|[H|[H|H]]]; try discriminate; injection H as ->; auto. }
  rewrite <- P. split.
  - intros H. destruct (parse_cell str_num x) as [|c row] eqn:E; [reflexivity|].
    exfalso.
    set (rows := map (parse_cell str_num) xs).
    assert (Hc : In c (classes rows)).
    { apply classes_In. exists (c :: row). split; [|now left].
      unfold rows. rewrite <- E. apply in_map. eapply nth_error_In, Hx. }
    specialize (H {| label := col ++ "_" ++ c; dtype := int_dtype;
                     cells := map (indicator c) rows |}).
    cbn [cells] in H.
    rewrite nth_error_map in H. unfold rows in H at 2.
    rewrite nth_error_map, Hx in H. cbn [option_map] in H. rewrite E in H.
    unfold indicator, mem in H. cbn [existsb] in H.
    rewrite String.eqb_refl in H. cbn [orb] in H.
    assert (Some (Num 1) = Some (Num 0)) as Habs; [|discriminate].
    apply H. unfold encoded_columns.
    apply (in_map (fun c0 => {| label := col ++ "_" ++ c0; dtype := int_dtype;
                                cells := map (indicator c0) rows |})), Hc.
  - intros E e He. apply encoded_cell in He. destruct He as (c & _ & _ & _ & ->).
    rewrite !nth_error_map, Hx. cbn [option_map]. rewrite E. reflexivity.
Qed.

Lemma lstrip_chars_length (chars : list ascii) (s : string) :
  String.length (lstrip_chars chars s) <= String.length s.
Proof.
  induction s as [|c s IH]; cbn [lstrip_chars]; [lia|].
  destruct (existsb (Ascii.eqb c) chars); cbn [String.length]; lia.
Qed.

Lemma lstrip_chars_fixed_app (chars : list ascii) (l t : string) :
  l <> "" -> lstrip_chars chars l = l -> lstrip_chars chars (l ++ t) = l ++ t.
Proof.
  destruct l as [|c r]; [congruence|]. intros _ H.
  cbn [append lstrip_chars] in *.
  destruct (existsb (Ascii.eqb c) chars); [|reflexivity].
  pose proof (lstrip_chars_length chars r) as L. rewrite H in L.
  cbn [String.length] in L. lia.
Qed.

Lemma rstrip_chars_snoc_in (chars : list ascii) (a : string) (c : ascii) :
  existsb (Ascii.eqb c) chars = true ->
  rstrip_chars chars (a ++ String c "") = rstrip_chars chars a.
Proof.
  intros H. induction a as [|x a IH]; cbn [append rstrip_chars].
  - now rewrite H.
  - now rewrite IH.
Qed.

Lemma rstrip_chars_snoc_out (chars : list ascii) (a : string) (c : ascii) :
  existsb (Ascii.eqb c) chars = false ->
  rstrip_chars chars (a ++ String c "") = a ++ String c "".
Proof.
  intros H. induction a as [|x a IH]; cbn [append rstrip_chars].
  - now rewrite H.
  - rewrite IH. destruct a; reflexivity.
Qed.

Lemma lstrip_spaces_app (pre s : string) :
  all_chars isspace pre = true -> lstrip (pre ++ s) = lstrip s.
Proof.
  induction pre as [|c pre IH]; cbn [all_chars append lstrip]; [reflexivity|].
  intros H. apply andb_true_iff in H. destruct H as [-> H]. now apply IH.
Qed.

Lemma item_label_quoted (pre l : string) :
  all_chars isspace pre = true ->
  lstrip_chars quotes l = l -> rstrip_chars quotes l = l ->
  item_label (pre ++ "'" ++ l ++ "'") = l.
Proof.
  intros Hpre Hl Hr. unfold item_label, strip.
  rewrite (lstrip_spaces_app _ _ Hpre).
  change (lstrip ("'" ++ l ++ "'")) with ("'" ++ l ++ "'").
  rewrite append_assoc, rstrip_app by (vm_compute; discriminate).
  change (rstrip "'") with "'". rewrite <- append_assoc.
  unfold strip_chars.
  change (lstrip_chars quotes ("'" ++ l ++ "'")) with (lstrip_chars quotes (l ++ "'")).
  destruct (string_dec l "") as [->|Hne]; [reflexivity|].
  rewrite (lstrip_chars_fixed_app _ _ _ Hne Hl).
  rewrite rstrip_chars_snoc_in by reflexivity. exact Hr.
Qed.

Lemma split_no_comma (s : string) :
  all_chars not_comma s = true -> split comma s = [s].
Proof.
  induction s as [|c s IH]; cbn [split all_chars]; [reflexivity|].
  intros H. apply andb_true_iff in H. destruct H as [Hc Hs].
  unfold not_comma in Hc. apply negb_true_iff in Hc. rewrite Hc.
  now rewrite (IH Hs).
Qed.

Lemma split_app_comma (a b : string) :
  all_chars not_comma a = true ->
  split comma (a ++ String comma b) = a :: split comma b.
Proof.
  induction a as [|c a IH]; cbn [split all_chars append].
  - intros _. now rewrite Ascii.eqb_refl.
  - intros H. apply andb_true_iff in H. destruct H as [Hc Ha].
    unfold not_comma in Hc. apply negb_true_iff in Hc. rewrite Hc.
    now rewrite (IH Ha).
Qed.

Lemma split_repr_items (rest : list string) : forall (pre l : string),
  all_chars not_comma pre = true ->
  Forall (fun l => all_chars not_comma l = true) (l :: rest) ->
  split comma (pre ++ repr_items (l :: rest))
  = (pre ++ "'" ++ l ++ "'") :: map (fun l' => " " ++ "'" ++ l' ++ "'") rest.
Proof.
  induction rest as [|l' rest IH]; intros pre l Hpre Hall.
  - cbn [repr_items map]. apply split_no_comma.
    inversion Hall; subst.
    rewrite !all_chars_app, Hpre. cbn [all_chars andb].
    now rewrite H1.
  - inversion Hall as [|? ? Hl Hrest]; subst.
    change (repr_items (l :: l' :: rest))
      with ("'" ++ l ++ "'" ++ ", " ++ repr_items (l' :: rest)).
    replace (pre ++ "'" ++ l ++ "'" ++ ", " ++ repr_items (l' :: rest))
      with ((pre ++ "'" ++ l ++ "'") ++ String comma (" " ++ repr_items (l' :: rest))).
    + rewrite split_app_comma.
      * rewrite (IH " " l' eq_refl Hrest). reflexivity.
      * rewrite !all_chars_app, Hpre. cbn [all_chars andb]. now rewrite Hl.
    + rewrite <- !append_assoc. cbn [append]. rewrite <- ?append_assoc. reflexivity.
Qed.

Lemma repr_items_last (ls : list string) :
  ls <> [] -> exists t, repr_items ls = t ++ "'".
Proof.
  induction ls as [|l rest IH]; [congruence|]. intros _.
  destruct rest as [|l' rest].
  - exists ("'" ++ l). cbn [repr_items]. now rewrite <- append_assoc.
  - destruct IH as (t & E); [discriminate|].
    exists ("'" ++ l ++ "'" ++ ", " ++ t).
    change (repr_items (l :: l' :: rest))
      with ("'" ++ l ++ "'" ++ ", " ++ repr_items (l' :: rest)).
    rewrite E. rewrite <- !append_assoc. cbn [append].
    rewrite <- ?append_assoc. reflexivity.
Qed.

Lemma strip_brackets_repr (ls : list string) :
  ls <> [] -> strip_chars brackets (repr_list ls) = repr_items ls.
Proof.
  intros Hne. unfold repr_list, strip_chars.
  change (lstrip_chars brackets ("[" ++ repr_items ls ++ "]"))
    with (lstrip_chars brackets (repr_items ls ++ "]")).
  assert (H : lstrip_chars brackets (repr_items ls ++ "]") = repr_items ls ++ "]").
  { destruct ls as [|l [|l' rest]]; [congruence|reflexivity|reflexivity]. }
  rewrite H. rewrite rstrip_chars_snoc_in by reflexivity.
  destruct (repr_items_last ls Hne) as (t & ->).
  now apply rstrip_chars_snoc_out.
Qed.

(** X23: the parser reads back a list of labels from the text Python
    prints for it, provided the list is not empty and every label is
    plain: it holds no comma, no backslash, no single quote and no
    non-printable character, and does not begin or end with a double
    quote. *)
Theorem parse_reads_back_printed_list (labels : list string) :
  labels <> [] ->
  Forall plain_label labels ->
  parse_cell str_num (Obj (repr_list labels)) = labels.
Proof.
  intros Hne Hall. unfold parse_cell.
  assert (G : is_placeholder (Obj (repr_list labels)) = false).
  { destruct labels as [|l [|l' rest]]; [congruence|reflexivity|reflexivity]. }
  rewrite G. cbn [notna negb andb str_cell].
  rewrite (strip_brackets_repr _ Hne).
  destruct labels as [|l rest]; [congruence|].
  change (repr_items (l :: rest)) with ("" ++ repr_items (l :: rest)).
  rewrite split_repr_items.
  - cbn [map]. inversion Hall as [|? ? (_ & Hl & Hr) Hrest]; subst.
    f_equal; [now apply (item_label_quoted "")|].
    clear - Hrest. induction Hrest as [|l' rest (_ & Hl & Hr) _ IH]; [reflexivity|].
    cbn [map]. f_equal; [now apply (item_label_quoted " ")|exact IH].
  - reflexivity.
  - eapply Forall_impl; [|exact Hall]. intros a (H & _).
    apply (all_chars_weaken plain_char); [|exact H].
    intros c Hc. unfold plain_char in Hc. now apply andb_true_iff in Hc.
Qed.

Lemma filter_none_all {A : Type} (P : A -> bool) (l : list A) :
  (forall x, In x l -> P x = false) -> filter P l = [].
Proof.
  induction l as [|x l IH]; intros H; [reflexivity|].
  cbn [filter]. rewrite (H x) by now left.
  apply IH. intros y Hy. apply H. now right.
Qed.

Lemma append_longer (a b : string) : b <> "" -> a ++ b <> a.
Proof.
  intros Hb E. assert (L : String.length (a ++ b) = String.length a) by now rewrite E.
  rewrite length_append in L. destruct b; [congruence|]. cbn [String.length] in L. lia.
Qed.

(** X24: the encoded column is gone from the returned frame, so encoding
    the same label a second time fails. *)
Theorem encoder_second_call_fails (df out : dataframe) (col : string) :
  encode_multilabel_field str_num int_dtype df col = Some out ->
  encode_multilabel_field str_num int_dtype out col = None.
Proof.
  unfold encode_multilabel_field at 1.
  destruct (getitem df col) as [series|]; [|discriminate].
  cbv zeta. intros H. injection H as <-.
  unfold encode_multilabel_field, getitem.
  rewrite filter_app.
  assert (A : filter (fun c => String.eqb (label c) col) (drop [col] df) = []).
  { unfold drop. rewrite filter_filter. apply filter_none_all. intros c _.
    unfold mem. cbn [existsb]. rewrite orb_false_r.
    now destruct (String.eqb (label c) col). }
  assert (B : filter (fun c => String.eqb (label c) col)
                (encoded_columns int_dtype col
                   (map (parse_cell str_num) (cells series))) = []).
  { apply filter_none_all. intros e He. apply encoded_cell in He.
    destruct He as (c & _ & -> & _). apply String.eqb_neq.
    apply append_longer. discriminate. }
  now rewrite A, B.
Qed.

Lemma indicator_everywhere (c : string) (rows : list (list string)) :
  Forall (In c) rows -> map (indicator c) rows = repeat (Num 1) (List.length rows).
Proof.
  induction 1 as [|row rows Hc _ IH]; [reflexivity|].
  cbn [map List.length repeat]. rewrite IH. f_equal.
  unfold indicator. apply mem_In in Hc. now rewrite Hc.
Qed.

Lemma distinct_repeat_one (n : nat) : distinct (repeat (Num 1) (S n)) = [Num 1].
Proof.
  induction n as [|n IH]; [reflexivity|].
  change (repeat (Num 1) (S (S n))) with (Num 1 :: repeat (Num 1) (S n)).
  cbn [distinct notna]. rewrite IH. reflexivity.
Qed.

Lemma count_repeat_one (n : nat) : count_of (Num 1) (repeat (Num 1) n) = n.
Proof.
  unfold count_of. induction n as [|n IH]; [reflexivity|].
  cbn [repeat filter]. change (cell_eqb (Num 1) (Num 1)) with true.
  cbn [List.length]. now rewrite IH.
Qed.

Lemma present_repeat_one (n : nat) : List.length (filter notna (repeat (Num 1) n)) = n.
Proof.
  induction n as [|n IH]; [reflexivity|].
  cbn [repeat filter notna List.length]. now rewrite IH.
Qed.

(** X25: a class carried by every row gives a column of ones, which the
    pruning test counts as low-variance at any threshold up to 1, unless
    its label is excluded. *)
Theorem universal_class_is_low_variance
    (col c : string) (rows : list (list string))
    (threshold : Q) (exclude_cols : list string) :
  rows <> [] ->
  Forall (In c) rows ->
  mem int_dtype checked_dtypes = true ->
  (threshold <= 1)%Q ->
  mem (col ++ "_" ++ c) exclude_cols = false ->
  exists e,
    In e (encoded_columns int_dtype col rows)
    /\ label e = col ++ "_" ++ c
    /\ is_low_variance threshold exclude_cols e = true.
Proof.
  intros Hne Hall Hd Ht Hex.
  exists {| label := col ++ "_" ++ c; dtype := int_dtype;
            cells := map (indicator c) rows |}.
  split; [|split; [reflexivity|]].
  - unfold encoded_columns.
    apply (in_map (fun c0 => {| label := col ++ "_" ++ c0; dtype := int_dtype;
                                cells := map (indicator c0) rows |})).
    apply classes_In. destruct rows as [|row rows]; [congruence|].
    exists row. split; [now left|]. now inversion Hall.
  - unfold is_low_variance. cbn [label dtype cells].
    rewrite Hex, Hd, (indicator_everywhere _ _ Hall).
    destruct rows as [|row rows]; [congruence|].
    cbn [List.length]. set (n := List.length rows).
    unfold nunique, max_proportion. rewrite distinct_repeat_one.
    cbn [List.length map fold_right Nat.leb negb andb].
    rewrite count_repeat_one, present_repeat_one, Nat.max_0_r.
    apply Qle_bool_iff. apply Qle_trans with 1%Q; [exact Ht|].
    apply Qle_shift_div_l.
    + unfold Qlt, inject_Z. cbn [Qnum Qden]. lia.
    + rewrite Qmult_1_l. apply Qle_refl.
Qed.

End Encoding.

Lemma encoder_appends_indicator_columns_witness :
  exists cs : list string,
    encode_multilabel_field no_number_text "int64" venue_frame "categories"
    = Some (filter (fun c => negb (String.eqb (label c) "categories")) venue_frame
            ++ map (fun c =>
                      {| label := "categories" ++ "_" ++ c;
                         dtype := "int64";
                         cells := map (fun x => if mem c (parse_cell no_number_text x)
                                                then Num 1 else Num 0)
                                      (cells categories_column) |}) cs)%list
    /\ NoDup cs
    /\ ascending cs
    /\ (forall c, In c cs
                  <-> exists x, In x (cells categories_column)
                                /\ In c (parse_cell no_number_text x)).
Proof.
  apply (encoder_appends_indicator_columns no_number_text "int64"
           venue_frame "categories" categories_column).
  reflexivity.
Defined.

Lemma all_zero_rows_are_placeholders_witness :
  (forall e,
      In e (encoded_columns "int64" "categories"
              (map (parse_cell no_number_text) (cells categories_column))) ->
      nth_error (cells e) 1 = Some (Num 0))
  <-> (Obj "[]" = Missing \/ Obj "[]" = Obj "[]" \/ Obj "[]" = Obj "" \/ Obj "[]" = Obj "nan").
Proof.
  apply (all_zero_rows_are_placeholders no_number_text "int64" "categories"
           (cells categories_column) 1 (Obj "[]")).
  reflexivity.
Defined.

Lemma parse_reads_back_printed_list_witness :
  parse_cell no_number_text (Obj (repr_list ["Bars"; "Pubs"])) = ["Bars"; "Pubs"].
Proof.
  apply parse_reads_back_printed_list.
  - discriminate.
  - repeat constructor.
Defined.

Lemma encoder_second_call_fails_witness :
  encode_multilabel_field no_number_text "int64"
    [demand_column;
     {| label := "categories_Bars"; dtype := "int64";
        cells := [Num 1; Num 0; Num 0; Num 1] |};
     {| label := "categories_Pubs"; dtype := "int64";
        cells := [Num 1; Num 0; Num 0; Num 0] |}]
    "categories"
  = None.
Proof.
  apply (encoder_second_call_fails no_number_text "int64" venue_frame).
  vm_compute. reflexivity.
Defined.

Lemma universal_class_is_low_variance_witness :
  exists e,
    In e (encoded_columns "int64" "categories" [["Bars"; "Pubs"]; ["Bars"]])
    /\ label e = "categories" ++ "_" ++ "Bars"
    /\ is_low_variance default_threshold default_exclude_cols e = true.
Proof.
  apply universal_class_is_low_variance.
  - discriminate.
  - repeat constructor; simpl; auto.
  - reflexivity.
  - vm_compute. discriminate.
  - reflexivity.
Defined.
